(** * The socket-diagnostics telemetry pipeline of AQM_CCA

    A shallow embedding of [scripts/parse_ss_tin_output.py] (the parser of
    [ss -tin] text), of [scripts/publish_ss_json_http.py] (the host list, the
    collector with its thread and its write-then-rename store) and of the
    accessors of [scripts/ss_tin_table.py], with the properties the
    specification states about them and further properties of the code.

    Conventions of the embedding.
    - A Python [str] is a sequence of code points; the model keeps the code
      points below 256, a character being an [ascii] read as its code point
      (Latin-1).  The character classes ([str.isspace], [str.isdigit], the
      line boundaries of [str.splitlines], [\s] and [\d] of [re]) are
      Python's on these code points.
    - A Python value (None, bool, int, float, str, list, dict) is a [value];
      a dict is an association list in insertion order.  A float is kept as
      the literal handed to [float()].
    - An [int] is a [Z]; the interpreter's resource limits (memory, the cap
      on the number of digits of an integer literal) are not modelled.
    - An exception is a [Raise] in the [result] monad.
    - The clock, the host name, the subprocesses and the disk are explicit
      inputs (oracles) and explicit state. *)

From stdpp Require Import base list gmap strings pretty.
From Stdlib Require Import ZArith Ascii Lia.
From Stdlib Require QArith.

Set Warnings "-clear-no-such-hyp".

Open Scope string_scope.
Open Scope list_scope.
Open Scope Z_scope.
Open Scope nat_scope.

(** ** Python strings *)

Abbreviation str := (list ascii).

Definition s_ (s : string) : str := String.list_ascii_of_string s.
Coercion s_ : string >-> list.
Arguments s_ !_ /.

Module Py.

Definition code (c : ascii) : nat := nat_of_ascii c.

(** [str.isspace] on one character: U+0009..U+000D, U+001C..U+0020, U+0085,
    U+00A0.  The same set is [\s] of [re] and what [str.strip()] and
    [str.split()] remove. *)
Definition isspace (c : ascii) : bool :=
  let n := code c in
  ((9 <=? n) && (n <=? 13)) || ((28 <=? n) && (n <=? 32)) || (n =? 133) || (n =? 160).

(** The line boundaries of [str.splitlines]: \n \v \f \r, U+001C..U+001E,
    U+0085. *)
Definition islinebreak (c : ascii) : bool :=
  let n := code c in
  ((10 <=? n) && (n <=? 13)) || ((28 <=? n) && (n <=? 30)) || (n =? 133).

(** [\d] of [re] and the digits [int()] accepts: 0..9. *)
Definition isdecimal (c : ascii) : bool :=
  let n := code c in (48 <=? n) && (n <=? 57).

(** [str.isdigit] on one character: the decimal digits and the superscript
    digits U+00B2, U+00B3, U+00B9. *)
Definition isdigit_char (c : ascii) : bool :=
  let n := code c in isdecimal c || (n =? 178) || (n =? 179) || (n =? 185).

(** [[A-Za-z]], [[A-Za-z_]] and [[A-Za-z0-9_]] of the regular expressions. *)
Definition isletter (c : ascii) : bool :=
  let n := code c in ((65 <=? n) && (n <=? 90)) || ((97 <=? n) && (n <=? 122)).

Definition isident_start (c : ascii) : bool := isletter c || (code c =? 95).

Definition isword (c : ascii) : bool := isletter c || isdecimal c || (code c =? 95).

Definition chr_eqb (a b : ascii) : bool := Ascii.eqb a b.

Arguments chr_eqb : simpl never.
Arguments isspace : simpl never.
Arguments islinebreak : simpl never.
Arguments isdecimal : simpl never.
Arguments isdigit_char : simpl never.
Arguments isletter : simpl never.
Arguments isident_start : simpl never.
Arguments isword : simpl never.

Definition LF : ascii := "010"%char.
Definition CR : ascii := "013"%char.

Fixpoint drop_while (p : ascii -> bool) (s : str) : str :=
  match s with
  | [] => []
  | c :: rest => if p c then drop_while p rest else s
  end.

Fixpoint take_while (p : ascii -> bool) (s : str) : str :=
  match s with
  | [] => []
  | c :: rest => if p c then c :: take_while p rest else []
  end.

(** [s.lstrip()], [s.rstrip()], [s.strip()]. *)
Definition lstrip (s : str) : str := drop_while isspace s.
Definition rstrip (s : str) : str := rev (drop_while isspace (rev s)).
Definition strip (s : str) : str := rstrip (lstrip s).

(** [s.strip(c)] and [s.rstrip(c)] for a one-character argument. *)
Definition rstrip_chr (c : ascii) (s : str) : str := rev (drop_while (chr_eqb c) (rev s)).
Definition strip_chr (c : ascii) (s : str) : str :=
  rstrip_chr c (drop_while (chr_eqb c) s).

(** [s.startswith(p)]. *)
Fixpoint startswith (p s : str) : bool :=
  match p, s with
  | [], _ => true
  | a :: p', b :: s' => chr_eqb a b && startswith p' s'
  | _ :: _, [] => false
  end.

Definition endswith (p s : str) : bool := startswith (rev p) (rev s).

(** [c in s] for a character and [sub in s] for a substring. *)
Definition has_chr (c : ascii) (s : str) : bool := existsb (chr_eqb c) s.

Fixpoint contains (sub s : str) : bool :=
  startswith sub s || match s with [] => false | _ :: rest => contains sub rest end.

Definition str_eqb (a b : str) : bool := bool_decide (a = b).

(** [s.splitlines()]: [cur] is the line being read. *)
Fixpoint splitlines_from (cur s : str) : list str :=
  match s with
  | [] => match cur with [] => [] | _ => [cur] end
  | c :: rest =>
      if islinebreak c then
        cur :: (if chr_eqb c CR
                then match rest with
                     | c' :: rest' => if chr_eqb c' LF then splitlines_from [] rest'
                                      else splitlines_from [] rest
                     | [] => []
                     end
                else splitlines_from [] rest)
      else splitlines_from (cur ++ [c]) rest
  end.

Definition splitlines (s : str) : list str := splitlines_from [] s.

(** [s.split()]: the maximal runs of non-whitespace. *)
Fixpoint split_ws_from (cur s : str) : list str :=
  match s with
  | [] => match cur with [] => [] | _ => [cur] end
  | c :: rest =>
      if isspace c then
        match cur with
        | [] => split_ws_from [] rest
        | _ => cur :: split_ws_from [] rest
        end
      else split_ws_from (cur ++ [c]) rest
  end.

Definition split_ws (s : str) : list str := split_ws_from [] s.

(** [s.split(c)]: every piece, empty ones included. *)
Fixpoint split_chr_from (sep : ascii) (cur s : str) : list str :=
  match s with
  | [] => [cur]
  | c :: rest =>
      if chr_eqb c sep then cur :: split_chr_from sep [] rest
      else split_chr_from sep (cur ++ [c]) rest
  end.

Definition split_chr (sep : ascii) (s : str) : list str := split_chr_from sep [] s.

(** [s.split(c, 1)] when [c in s]: the text before and after the first [c];
    [None] when [c] does not occur. *)
Fixpoint split1 (sep : ascii) (s : str) : option (str * str) :=
  match s with
  | [] => None
  | c :: rest =>
      if chr_eqb c sep then Some ([], rest)
      else match split1 sep rest with
           | Some (a, b) => Some (c :: a, b)
           | None => None
           end
  end.

(** [s.rsplit(c, 1)] when [c in s]: the text before and after the last [c]. *)
Fixpoint rsplit1 (sep : ascii) (s : str) : option (str * str) :=
  match s with
  | [] => None
  | c :: rest =>
      match rsplit1 sep rest with
      | Some (a, b) => Some (c :: a, b)
      | None => if chr_eqb c sep then Some ([], rest) else None
      end
  end.

(** [" ".join(parts)]. *)
Fixpoint join (sep : str) (parts : list str) : str :=
  match parts with
  | [] => []
  | [p] => p
  | p :: rest => p ++ sep ++ join sep rest
  end.

(** [s.isdigit()]: non-empty and every character a digit. *)
Definition isdigit (s : str) : bool :=
  match s with [] => false | _ => forallb isdigit_char s end.

End Py.

(** ** Exceptions *)

Inductive exn := ValueError | AttributeError | TypeError | OSError.

Inductive result (A : Type) :=
| Ok (a : A)
| Raise (e : exn).
Arguments Ok {A} a.
Arguments Raise {A} e.

Definition bind {A B} (r : result A) (k : A -> result B) : result B :=
  match r with
  | Ok a => k a
  | Raise e => Raise e
  end.

Notation "'let*' x ':=' r 'in' k" := (bind r (fun x => k))
  (at level 10, x name, r at level 200, k at level 200).

Definition fmap_result {A B} (f : A -> B) (r : result A) : result B :=
  match r with
  | Ok a => Ok (f a)
  | Raise e => Raise e
  end.

(** ** Python values *)

#[warnings="-register-all"]
Inductive value :=
| VNone
| VBool (b : bool)
| VInt (z : Z)
| VFloat (lit : str)
| VStr (s : str)
| VList (l : list value)
| VDict (d : list (str * value)).

Abbreviation dict := (list (str * value)).

Module Dict.

(** [d.get(k)] *)
Fixpoint get (d : dict) (k : str) : option value :=
  match d with
  | [] => None
  | (k', v) :: rest => if Py.str_eqb k' k then Some v else get rest k
  end.

(** [d[k] = v]: an existing key keeps its place, a new one goes last. *)
Fixpoint set (d : dict) (k : str) (v : value) : dict :=
  match d with
  | [] => [(k, v)]
  | (k', v') :: rest =>
      if Py.str_eqb k' k then (k', v) :: rest else (k', v') :: set rest k v
  end.

(** [d.setdefault(k, []).append(x)]: the list under [k] grows by [x]; a value
    under [k] that is no list has no [append]. *)
Definition append_to (d : dict) (k : str) (x : value) : result dict :=
  match get d k with
  | None => Ok (set d k (VList [x]))
  | Some (VList l) => Ok (set d k (VList (l ++ [x])))
  | Some _ => Raise AttributeError
  end.

Definition keys (d : dict) : list str := map fst d.

End Dict.

(** [int(s)] for the literals the parser hands to it: surrounding
    whitespace, an optional sign, then decimal digits; anything else is a
    [ValueError]. *)
Definition digit_val (c : ascii) : Z := Z.of_nat (Py.code c) - 48.

Definition digits_val (s : str) : Z :=
  fold_left (fun acc c => acc * 10 + digit_val c)%Z s 0%Z.

Definition int_unsigned (s : str) : result Z :=
  match s with
  | [] => Raise ValueError
  | _ => if forallb Py.isdecimal s then Ok (digits_val s) else Raise ValueError
  end.

Definition int (s : str) : result Z :=
  match Py.strip s with
  | c :: rest =>
      if Py.chr_eqb c "+" then int_unsigned rest
      else if Py.chr_eqb c "-" then fmap_result Z.opp (int_unsigned rest)
      else int_unsigned (c :: rest)
  | [] => Raise ValueError
  end.

(** [float(s)]: kept as the literal, surrounding whitespace removed. *)
Definition float (s : str) : value := VFloat (Py.strip s).

(** The truth value of a string or a list: it is not empty. *)
Definition nonempty {A} (s : list A) : bool :=
  match s with [] => false | _ => true end.

Fixpoint mapM {A B} (f : A -> result B) (l : list A) : result (list B) :=
  match l with
  | [] => Ok []
  | a :: rest => let* b := f a in let* bs := mapM f rest in Ok (b :: bs)
  end.

Fixpoint foldM {A S} (f : S -> A -> result S) (l : list A) (s : S) : result S :=
  match l with
  | [] => Ok s
  | a :: rest => let* s' := f s a in foldM f rest s'
  end.

(** ** The regular expressions of lines 10-19

    Each pattern is matched the way [re] matches it (greedy, leftmost); the
    classes that alternate in a pattern are disjoint, so every group is a
    maximal run and no backtracking changes the outcome. *)

Module Re.

(** [$] also matches just before a final newline. *)
Definition chomp (s : str) : str :=
  match rev s with
  | c :: r => if Py.chr_eqb c Py.LF then rev r else s
  | [] => s
  end.

(** A maximal, non-empty run of characters of class [p]. *)
Definition run1 (p : ascii -> bool) (s : str) : option (str * str) :=
  match Py.take_while p s with
  | [] => None
  | r => Some (r, Py.drop_while p s)
  end.

Definition nonspace (c : ascii) : bool := negb (Py.isspace c).

Definition drop_sign (s : str) : str :=
  match s with
  | c :: r => if Py.chr_eqb c "+" || Py.chr_eqb c "-" then r else s
  | [] => []
  end.

(** [\d+] *)
Definition digits1 (s : str) : bool := nonempty s && forallb Py.isdecimal s.

(** [\d+\.\d*|\d*\.\d+|\d+] *)
Definition float_unsigned (t : str) : bool :=
  match Py.split1 "." t with
  | None => digits1 t
  | Some (a, b) =>
      forallb Py.isdecimal a && forallb Py.isdecimal b && (nonempty a || nonempty b)
  end.

(** The text between [^] and [$] of [RE_INT] and of [RE_FLOAT]. *)
Definition int_literal (s : str) : bool := digits1 (drop_sign s).
Definition float_literal (s : str) : bool := float_unsigned (drop_sign s).

(** [RE_INT.match(s)] and [RE_FLOAT.match(s)] as truth values. *)
Definition RE_INT (s : str) : bool := int_literal (chomp s).
Definition RE_FLOAT (s : str) : bool := float_literal (chomp s).

(** [[A-Za-z%/]] *)
Definition isunit (c : ascii) : bool :=
  Py.isletter c || Py.chr_eqb c "%" || Py.chr_eqb c "/".

Definition isnumchar (c : ascii) : bool := Py.isdecimal c || Py.chr_eqb c ".".

(** [RE_NUM_UNIT.match(s)]: groups 1 and 2. *)
Definition RE_NUM_UNIT (s : str) : option (str * str) :=
  let s := chomp s in
  let t := drop_sign s in
  let sign := take (length s - length t) s in
  let num := Py.take_while isnumchar t in
  let unit := Py.drop_while isnumchar t in
  if float_unsigned num && nonempty unit && forallb isunit unit
  then Some (sign ++ num, unit) else None.

(** [RE_IDENTIFIER.match(s)] as a truth value. *)
Definition RE_IDENTIFIER (s : str) : bool :=
  match chomp s with
  | c :: r => Py.isident_start c && forallb Py.isword r
  | [] => false
  end.

(** [RE_PAREN_GROUP] tried at the head of [s]: name, body and the length of
    the match. *)
Definition paren_group_at (s : str) : option (str * str * nat) :=
  match Py.take_while Py.isword s, Py.drop_while Py.isword s with
  | [], _ => None
  | name, c1 :: c2 :: r =>
      if Py.chr_eqb c1 ":" && Py.chr_eqb c2 "(" then
        let notclose c := negb (Py.chr_eqb c ")") in
        match Py.drop_while notclose r with
        | _ :: _ =>
            let body := Py.take_while notclose r in
            Some (name, body, length name + 2 + length body + 1)
        | [] => None
        end
      else None
  | _, _ => None
  end.

(** [RE_PAREN_GROUP.finditer(text)]: the (name, body) of each match, left to
    right without overlap; [skip] characters belong to the last match. *)
Fixpoint finditer_from (skip : nat) (s : str) : list (str * str) :=
  match s with
  | [] => []
  | _ :: rest =>
      match skip with
      | S k => finditer_from k rest
      | O =>
          match paren_group_at s with
          | Some (name, body, len) => (name, body) :: finditer_from (len - 1) rest
          | None => finditer_from 0 rest
          end
      end
  end.

Definition RE_PAREN_GROUP_finditer (text : str) : list (str * str) :=
  finditer_from 0 text.

(** [RE_PAREN_GROUP.sub("", text)] *)
Fixpoint sub_from (skip : nat) (s : str) : str :=
  match s with
  | [] => []
  | c :: rest =>
      match skip with
      | S k => sub_from k rest
      | O =>
          match paren_group_at s with
          | Some (_, _, len) => sub_from (len - 1) rest
          | None => c :: sub_from 0 rest
          end
      end
  end.

Definition RE_PAREN_GROUP_sub (text : str) : str := sub_from 0 text.

(** The groups of [RE_HEADER]. *)
Record header_match := {
  h_state : str;
  h_recvq : str;
  h_sendq : str;
  h_local : str;
  h_peer : str;
  h_proc : option str
}.

(** [RE_HEADER.match(s)].  After the peer, the optional last group takes
    the whitespace and then, as proc, the rest of the string, which [.] and
    [$] allow to hold a newline only as its last character. *)
Definition RE_HEADER (s : str) : option header_match :=
  '(state, r) ← run1 nonspace s;
  '(_, r) ← run1 Py.isspace r;
  '(recvq, r) ← run1 Py.isdecimal r;
  '(_, r) ← run1 Py.isspace r;
  '(sendq, r) ← run1 Py.isdecimal r;
  '(_, r) ← run1 Py.isspace r;
  '(local, r) ← run1 nonspace r;
  '(_, r) ← run1 Py.isspace r;
  '(peer, r) ← run1 nonspace r;
  match r with
  | [] =>
      Some {| h_state := state; h_recvq := recvq; h_sendq := sendq;
              h_local := local; h_peer := peer; h_proc := None |}
  | _ =>
      let proc := chomp (Py.drop_while Py.isspace r) in
      if Py.has_chr Py.LF proc then None
      else Some {| h_state := state; h_recvq := recvq; h_sendq := sendq;
                   h_local := local; h_peer := peer; h_proc := Some proc |}
  end.

(** The bracketed pattern of line 69 on a stripped [s]: an opening bracket,
    the ip, a closing bracket, a colon and the port.  The port is the final
    run of digits, the ip what stands between the opening bracket and the
    closing bracket before the colon; [.] keeps newlines out of the ip. *)
Definition bracket_match (s : str) : option (str * str) :=
  match s with
  | c :: t =>
      if Py.chr_eqb c "[" then
        let port := rev (Py.take_while Py.isdecimal (rev t)) in
        match Py.drop_while Py.isdecimal (rev t) with
        | c1 :: c2 :: ip_rev =>
            if Py.chr_eqb c1 ":" && Py.chr_eqb c2 "]" && nonempty port
               && negb (Py.has_chr Py.LF ip_rev)
            then Some (rev ip_rev, port) else None
        | _ => None
        end
      else None
  | [] => None
  end.

End Re.


(** ** [parse_ss_tin_output.py] *)

Module Parser.

(** *** [split_blocks] *)

Record split_state := {
  blocks : list (str * list str);
  cur_header : option str;
  cur_cont : list str
}.

Definition split_init : split_state :=
  {| blocks := []; cur_header := None; cur_cont := [] |}.

(** The flush of lines 46-47 and 51-52. *)
Definition flush (st : split_state) : list (str * list str) :=
  match cur_header st with
  | Some h => blocks st ++ [(h, cur_cont st)]
  | None => blocks st
  end.

(** The line is skipped by line 34 ([not ln.strip()]). *)
Definition is_blank (ln : str) : bool :=
  match Py.strip ln with [] => true | _ => false end.

(** The line is skipped by line 36. *)
Definition is_state_row (ln : str) : bool := Py.startswith "State " (Py.lstrip ln).

(** [ln[:1].isspace()] *)
Definition is_indented (ln : str) : bool :=
  match ln with
  | c :: _ => Py.isspace c
  | [] => false
  end.

(** One turn of the loop of lines 33-49. *)
Definition split_step (st : split_state) (ln : str) : split_state :=
  if is_blank ln then st
  else if is_state_row ln then st
  else if is_indented ln then
    match cur_header st with
    | Some _ =>
        {| blocks := blocks st; cur_header := cur_header st;
           cur_cont := cur_cont st ++ [Py.strip ln] |}
    | None =>
        {| blocks := blocks st ++ [([], [Py.strip ln])]; cur_header := None;
           cur_cont := cur_cont st |}
    end
  else
    {| blocks := flush st; cur_header := Some (Py.strip ln); cur_cont := [] |}.

Definition input_lines (ss_output : str) : list str :=
  map (Py.rstrip_chr Py.LF) (Py.splitlines ss_output).

Definition split_lines (lines : list str) : list (str * list str) :=
  flush (fold_left split_step lines split_init).

Definition split_blocks (ss_output : str) : list (str * list str) :=
  split_lines (input_lines ss_output).

(** *** [parse_ip_port] *)

Definition endpoint (raw : str) (ip port : value) : value :=
  VDict [("raw" : str, VStr raw); ("ip" : str, ip); ("port" : str, port)].

Definition parse_ip_port (addr_port : str) : result value :=
  let s := Py.strip addr_port in
  if Py.startswith "[" s then
    match Re.bracket_match s with
    | Some (ip, port) =>
        let* p := int port in Ok (endpoint addr_port (VStr ip) (VInt p))
    | None => Ok (endpoint addr_port VNone VNone)
    end
  else
    (* [":" in s] and [s.rsplit(":", 1)] *)
    match Py.rsplit1 ":" s with
    | Some (ip, port) =>
        if Py.isdigit port then
          let* p := int port in Ok (endpoint addr_port (VStr ip) (VInt p))
        else Ok (endpoint addr_port (VStr ip) (VStr port))
    | None => Ok (endpoint addr_port (VStr s) VNone)
    end.

(** *** [coerce_value] *)

(** [float(x) if "." in x else int(x)] *)
Definition number (x : str) : result value :=
  if Py.has_chr "." x then Ok (float x) else fmap_result VInt (int x).

(** [[p.strip() for p in s.split(",") if p.strip() != ""]] *)
Definition comma_parts (s : str) : list str :=
  filter (fun p => nonempty p = true) (map Py.strip (Py.split_chr "," s)).

(** The test and the split of lines 106-110: the stripped sides when the
    pair rule applies. *)
Definition pair_sides (s : str) : option (str * str) :=
  if Py.has_chr "/" s && negb (Py.startswith "/" s) && negb (Py.endswith "/" s) then
    match Py.split1 "/" s with
    | Some (l, r) =>
        let left_ := Py.strip l in
        let right_ := Py.strip r in
        if Re.RE_FLOAT left_ && Re.RE_FLOAT right_ then Some (left_, right_) else None
    | None => None
    end
  else None.

Definition has_bracket (s : str) : bool :=
  existsb (fun ch => Py.has_chr ch s) ("()[]{}" : str).

Definition coerce_value (s0 : str) : result value :=
  let s := Py.strip_chr "," (Py.strip s0) in
  if negb (nonempty s) then Ok (VStr s)
  else
    match pair_sides s with
    | Some (left_, right_) =>
        let* a := number left_ in
        let* b := number right_ in
        Ok (VDict [("a" : str, a); ("b" : str, b)])
    | None =>
        if Py.has_chr "," s && negb (has_bracket s) then
          let parts := comma_parts s in
          if nonempty parts && forallb Re.RE_FLOAT parts then
            let* out := mapM number parts in Ok (VList out)
          else Ok (VList (map VStr parts))
        else if Re.RE_INT s then fmap_result VInt (int s)
        else if Re.RE_FLOAT s then Ok (float s)
        else
          match Re.RE_NUM_UNIT s with
          | Some (num_str, unit) =>
              let* num := number num_str in
              Ok (VDict [("value" : str, num); ("unit" : str, VStr unit)])
          | None => Ok (VStr s)
          end
    end.

(** *** [parse_paren_body] *)

(** One turn of the loop of lines 151-156. *)
Definition paren_step (out : dict) (p : str) : result dict :=
  match Py.split1 ":" p with
  | Some (k, v) =>
      let* x := coerce_value (Py.strip v) in Ok (Dict.set out (Py.strip k) x)
  | None => Dict.append_to out "items" (VStr p)
  end.

Definition parse_paren_body (body : str) : result dict :=
  foldM paren_step (comma_parts (Py.strip body)) [].

(** *** [parse_metrics] *)

(** [bool(RE_FLOAT.match(nxt) or RE_NUM_UNIT.match(nxt) or RE_INT.match(nxt))] *)
Definition looks_like_value (nxt : str) : bool :=
  Re.RE_FLOAT nxt || bool_decide (is_Some (Re.RE_NUM_UNIT nxt)) || Re.RE_INT nxt.

(** The loop of lines 197-229; a key-value pair takes two tokens. *)
Fixpoint token_loop (metrics : dict) (tokens : list str) : result dict :=
  match tokens with
  | [] => Ok metrics
  | t :: rest =>
      match Py.split1 ":" t with
      | Some (k0, v0) =>
          let k := Py.strip k0 in
          let v := Py.strip v0 in
          if nonempty k then
            let* x := coerce_value v in token_loop (Dict.set metrics k x) rest
          else token_loop metrics rest
      | None =>
          let single :=
            let* metrics' :=
              Dict.append_to metrics
                (if Re.RE_IDENTIFIER t then "flags" else "unparsed") (VStr t) in
            token_loop metrics' rest in
          if Re.RE_IDENTIFIER t then
            match rest with
            | nxt :: rest' =>
                if negb (Py.has_chr ":" nxt) && looks_like_value nxt then
                  let* x := coerce_value nxt in
                  token_loop (Dict.set metrics t x) rest'
                else single
            | [] => single
            end
          else single
      end
  end.

(** One turn of the loop of lines 178-181. *)
Definition group_step (paren_groups : dict) (m : str * str) : result dict :=
  let* g := parse_paren_body (snd m) in Ok (Dict.set paren_groups (fst m) (VDict g)).

Definition metrics_text (lines : list str) : str :=
  Py.strip (Py.join " " (map Py.strip lines)).

(** Lines 193-195: a leading bare identifier is the congestion-control name. *)
Definition take_cc (metrics : dict) (tokens : list str) : dict * list str :=
  match tokens with
  | t0 :: rest =>
      if negb (Py.has_chr ":" t0) && Re.RE_IDENTIFIER t0
      then (Dict.set metrics "cc" (VStr t0), rest)
      else (metrics, tokens)
  | [] => (metrics, tokens)
  end.

Definition parse_metrics (lines : list str) : result dict :=
  let text := metrics_text lines in
  let metrics : dict := [("raw" : str, VStr text)] in
  if negb (nonempty text) then Ok metrics
  else
    let* paren_groups := foldM group_step (Re.RE_PAREN_GROUP_finditer text) [] in
    let '(metrics, text_wo_groups) :=
      match paren_groups with
      | _ :: _ =>
          (Dict.set metrics "groups" (VDict paren_groups),
           Py.strip (Re.RE_PAREN_GROUP_sub text))
      | [] => (metrics, text)
      end in
    let '(metrics, tokens) := take_cc metrics (Py.split_ws text_wo_groups) in
    token_loop metrics tokens.

(** *** [parse_ss_tin_output] *)

(** What the call reads from its surroundings: the clock
    ([datetime.now(timezone.utc).isoformat()]) and [socket.gethostname()]. *)
Record env := {
  now_utc : str;
  hostname : str
}.

(** Lines 242-265: the record of a block that has a header. *)
Definition parse_block (header : str) (cont : list str) : result value :=
  match Re.RE_HEADER header with
  | None =>
      Ok (VDict [("raw_header" : str, VStr header);
                 ("raw_cont" : str, VList (map VStr cont))])
  | Some m =>
      let* recvq := int (Re.h_recvq m) in
      let* sendq := int (Re.h_sendq m) in
      let proc := Py.strip (default [] (Re.h_proc m)) in
      let* local := parse_ip_port (Re.h_local m) in
      let* peer := parse_ip_port (Re.h_peer m) in
      let* metrics := parse_metrics cont in
      Ok (VDict [("state" : str, VStr (Re.h_state m));
                 ("recv_q" : str, VInt recvq);
                 ("send_q" : str, VInt sendq);
                 ("local" : str, local);
                 ("peer" : str, peer);
                 ("process" : str, VStr proc);
                 ("header_raw" : str, VStr header);
                 ("metrics" : str, VDict metrics);
                 ("cont_lines_raw" : str, VList (map VStr cont))])
  end.

(** The loop of lines 238-265 over the blocks still to read. *)
Fixpoint parse_blocks (blocks : list (str * list str)) (sockets : list value)
  : result (list value) :=
  match blocks with
  | [] => Ok sockets
  | (header, cont) :: rest =>
      if negb (nonempty header) then parse_blocks rest sockets
      else
        let* rec := parse_block header cont in
        parse_blocks rest (sockets ++ [rec])
  end.

Definition document (w : env) (sockets : list value) : value :=
  VDict [("meta" : str,
          VDict [("captured_at_utc" : str, VStr (now_utc w));
                 ("hostname" : str, VStr (hostname w));
                 ("source_cmd" : str, VStr "ss -tin")]);
         ("sockets" : str, VList sockets)].

Definition parse_ss_tin_output (w : env) (ss_tin_output : str) : result value :=
  let* sockets := parse_blocks (split_blocks ss_tin_output) [] in
  Ok (document w sockets).

End Parser.

(** ** [publish_ss_json_http.py]: the store

    The directory is a table of names and a table of files (inodes): a name
    leads to a file, and a reader that has opened a name keeps the file it
    got, whatever the name leads to later.  Directories are not modelled
    ([mkdir] changes no file). *)

Module Store.

Record fs := {
  names : gmap str nat;
  data : gmap nat str;
  next : nat
}.

Definition empty : fs := {| names := ∅; data := ∅; next := 0 |}.

(** The steps [atomic_write_text] takes; a reader may run between any two. *)
Inductive op :=
| Mkdir (dir : str)
| OpenTrunc (path : str)
| WriteChr (path : str) (c : ascii)
| Replace (src dst : str).

Definition apply_op (o : op) (f : fs) : fs :=
  match o with
  | Mkdir _ => f
  | OpenTrunc p =>
      match names f !! p with
      | Some i => {| names := names f; data := <[i := []]> (data f); next := next f |}
      | None =>
          {| names := <[p := next f]> (names f);
             data := <[next f := []]> (data f);
             next := S (next f) |}
      end
  | WriteChr p c =>
      match names f !! p with
      | Some i =>
          {| names := names f;
             data := <[i := default [] (data f !! i) ++ [c]]> (data f);
             next := next f |}
      | None => f
      end
  | Replace src dst =>
      match names f !! src with
      | Some i =>
          {| names := <[dst := i]> (delete src (names f)); data := data f; next := next f |}
      | None => f
      end
  end.

Definition run_ops (ops : list op) (f : fs) : fs :=
  fold_left (fun f o => apply_op o f) ops f.

(** [path.with_suffix(path.suffix + ".tmp")]: the name with [.tmp] added. *)
Definition tmp_path (path : str) : str := path ++ (".tmp" : str).

Definition is_tmp (path : str) : bool := Py.endswith ".tmp" path.

(** [path.parent] *)
Definition parent (path : str) : str :=
  match Py.rsplit1 "/" path with
  | Some (dir, _) => dir
  | None => "."
  end.

(** Lines 103-106: make the directory, open the temporary file (creating or
    truncating it), write the content, rename over the final path. *)
Definition atomic_write_ops (path content : str) : list op :=
  [Mkdir (parent path); OpenTrunc (tmp_path path)]
  ++ map (WriteChr (tmp_path path)) content
  ++ [Replace (tmp_path path) path].

(** [atomic_write_text(path, content)]; [fault = Some k] is an [OSError] at
    step [k], the steps before it done. *)
Definition atomic_write_text (fault : option nat) (path content : str) (f : fs)
  : result unit * fs :=
  let ops := atomic_write_ops path content in
  match fault with
  | Some k =>
      if k <? length ops then (Raise OSError, run_ops (take k ops) f)
      else (Ok tt, run_ops ops f)
  | None => (Ok tt, run_ops ops f)
  end.

(** What opening [path] gives, and what reading an open file gives. *)
Definition open (f : fs) (path : str) : option nat := names f !! path.
Definition read (f : fs) (i : nat) : option str := data f !! i.

(** [open(path).read()] in one step. *)
Definition read_file (f : fs) (path : str) : option str :=
  i ← open f path; read f i.


End Store.

(** ** [publish_ss_json_http.py]: the collector *)

Module Collector.

(** What one [subprocess.run(cmd, ..., timeout=timeout)] does: it completes
    with a return code and the two captured streams, or the timeout expires
    with what was captured, if anything. *)
Inductive outcome :=
| Completed (returncode : Z) (stdout stderr : str)
| TimeoutExpired (stdout stderr : option str).

(** The surroundings of the collector. *)
Record oracle := {
  subprocess_run : nat -> list str -> nat -> outcome;
  clock : nat -> str;
  gethostname : str;
  disk_fault : nat -> option nat;
  dumps : value -> str
}.

Record world := {
  commands : list (list str);
  n_clock : nat;
  n_write : nat;
  files : Store.fs
}.

Definition world0 : world :=
  {| commands := []; n_clock := 0; n_write := 0; files := Store.empty |}.

Definition io (A : Type) : Type := world -> result A * world.

Definition ret {A} (a : A) : io A := fun w => (Ok a, w).

Definition io_bind {A B} (m : io A) (k : A -> io B) : io B :=
  fun w =>
    match m w with
    | (Ok a, w') => k a w'
    | (Raise e, w') => (Raise e, w')
    end.

Notation "'do*' x ':=' m 'in' k" := (io_bind m (fun x => k))
  (at level 10, x name, m at level 200, k at level 200).

(** [x or d] for a string that may be [None]. *)
Definition or_else (x : option str) (d : str) : str :=
  match x with
  | Some (c :: r) => c :: r
  | _ => d
  end.

Definition looks_like_ss (out : str) : bool :=
  (Py.contains "State" out && Py.contains "Recv-Q" out && Py.contains "Send-Q" out)
  || Py.contains "ESTAB" out.

Definition attempts (m_path host : str) : list (list str) :=
  [[m_path; host; ("ss" : str); ("-tin" : str)];
   [m_path; host; ("bash" : str); ("-lc" : str); ("ss -tin" : str)];
   [m_path; host; ("sh" : str); ("-lc" : str); ("ss -tin" : str)];
   [m_path; host; ("ss -tin" : str)]].

(** The accepting test of line 90. *)
Definition accepted (r : outcome) : bool :=
  match r with
  | Completed rc out _ => (rc =? 0)%Z && looks_like_ss out
  | TimeoutExpired _ _ => false
  end.

(** What lines 93 and 95-97 keep of an attempt that is not accepted. *)
Definition last_of (timeout : nat) (r : outcome) : Z * str * str :=
  match r with
  | Completed rc out err => (rc, out, err)
  | TimeoutExpired out err =>
      (124%Z, or_else out [],
       or_else err (("timeout after " : str) ++ s_ (pretty timeout) ++ ("s" : str)))
  end.

Section WithOracle.
Variable o : oracle.

(** [subprocess.run]: the command is logged and the oracle answers. *)
Definition run (cmd : list str) (timeout : nat) : io outcome :=
  fun w =>
    (Ok (subprocess_run o (length (commands w)) cmd timeout),
     {| commands := commands w ++ [cmd]; n_clock := n_clock w;
        n_write := n_write w; files := files w |}).

(** [datetime.now(timezone.utc).isoformat()] *)
Definition now : io str :=
  fun w =>
    (Ok (clock o (n_clock w)),
     {| commands := commands w; n_clock := S (n_clock w);
        n_write := n_write w; files := files w |}).

(** The loop of lines 83-97 over the attempts still to make. *)
Fixpoint try_attempts (cmds : list (list str)) (timeout : nat) (last : Z * str * str)
  : io (Z * str * str) :=
  match cmds with
  | [] => ret last
  | cmd :: rest =>
      do* r := run cmd timeout in
      if accepted r then ret (last_of timeout r)
      else try_attempts rest timeout (last_of timeout r)
  end.

Definition run_ss_tin_on_host (m_path host : str) (timeout : nat) : io (Z * str * str) :=
  try_attempts (attempts m_path host) timeout (1%Z, [], []).

Definition atomic_write_text (path content : str) : io unit :=
  fun w =>
    let '(r, f) := Store.atomic_write_text (disk_fault o (n_write w)) path content (files w) in
    (r, {| commands := commands w; n_clock := n_clock w;
           n_write := S (n_write w); files := f |}).

(** [parse_ss_tin_output(out)], which reads the clock and the host name. *)
Definition parse (out : str) : io value :=
  do* t := now in
  fun w => (Parser.parse_ss_tin_output
              {| Parser.now_utc := t; Parser.hostname := gethostname o |} out, w).

(** [out_dir / name] *)
Definition path_join (out_dir name : str) : str := out_dir ++ ("/" : str) ++ name.

Definition host_entry (host file : str) (ok : bool) (rc : Z) (n_sockets : nat) : value :=
  VDict [("host" : str, VStr host); ("file" : str, VStr file); ("ok" : str, VBool ok);
         ("rc" : str, VInt rc); ("n_sockets" : str, VInt (Z.of_nat n_sockets))].

(** Lines 131-135 on the parsed document. *)
Definition with_host_meta (now_ host : str) (parsed : value) : result value :=
  match parsed with
  | VDict d =>
      let parsed_meta := default (VDict []) (Dict.get d "meta") in
      let parsed_meta :=
        match parsed_meta with
        | VDict m =>
            let m := match Dict.get m "captured_at_utc" with
                     | Some _ => m
                     | None => Dict.set m "captured_at_utc" (VStr now_)
                     end in
            VDict (Dict.set m "mininet_host" (VStr host))
        | other => other
        end in
      Ok (VDict (Dict.set d "meta" parsed_meta))
  | _ => Raise TypeError
  end.

(** [len(parsed.get("sockets", []) or [])] *)
Definition count_sockets (parsed : value) : nat :=
  match parsed with
  | VDict d =>
      match Dict.get d "sockets" with
      | Some (VList l) => length l
      | _ => 0
      end
  | _ => 0
  end.

Definition error_record (now_ host : str) (rc : Z) (out err : str) : value :=
  VDict [("meta" : str,
          VDict [("captured_at_utc" : str, VStr now_); ("mininet_host" : str, VStr host);
                 ("ok" : str, VBool false); ("rc" : str, VInt rc)]);
         ("error" : str, VStr (Py.strip err));
         ("stdout_head" : str, VStr (take 2000 out))].

(** One turn of the loop of lines 124-156: the entries of the index so far,
    then the host. *)
Definition collect_host (now_ m_path out_dir : str) (timeout : nat)
  (entries : list value) (host : str) : io (list value) :=
  do* r := run_ss_tin_on_host m_path host timeout in
  let '(rc, out, err) := r in
  if (rc =? 0)%Z && nonempty (Py.strip out) then
    do* parsed := parse out in
    do* record := (fun w => (with_host_meta now_ host parsed, w)) in
    let n_sockets := count_sockets parsed in
    let host_file := host ++ ("_ss_tin.json" : str) in
    do* _ := atomic_write_text (path_join out_dir host_file) (dumps o record) in
    ret (entries ++ [host_entry host host_file true rc n_sockets])
  else
    let host_file := host ++ ("_ss_tin_error.json" : str) in
    let record := error_record now_ host rc out err in
    do* _ := atomic_write_text (path_join out_dir host_file) (dumps o record) in
    ret (entries ++ [host_entry host host_file false rc 0]).

Fixpoint collect_hosts (now_ m_path out_dir : str) (timeout : nat)
  (entries : list value) (hosts : list str) : io (list value) :=
  match hosts with
  | [] => ret entries
  | host :: rest =>
      do* entries' := collect_host now_ m_path out_dir timeout entries host in
      collect_hosts now_ m_path out_dir timeout entries' rest
  end.

Definition index_of (now_ out_dir : str) (entries : list value) : value :=
  VDict [("updated_at_utc" : str, VStr now_); ("out_dir" : str, VStr out_dir);
         ("hosts" : str, VList entries)].

Definition collect_and_write (hosts : list str) (m_path out_dir : str) (timeout : nat)
  : io value :=
  do* now_ := now in
  do* entries := collect_hosts now_ m_path out_dir timeout [] hosts in
  let index := index_of now_ out_dir entries in
  do* _ := atomic_write_text (path_join out_dir "index.json") (dumps o index) in
  ret index.

End WithOracle.

(** *** [parse_host_list] *)

(** [parse_host_list] returns the hosts or leaves through [SystemExit] with
    a message. *)
Inductive host_list :=
| Hosts (hosts : list str)
| SystemExit (message : str).

(** The pattern of line 60 at the start of [s]: whitespace, digits,
    whitespace, a dash, whitespace, digits, whitespace up to the end; groups
    1 and 2. *)
Definition range_match (s : str) : option (str * str) :=
  '(a, r) ← Re.run1 Py.isdecimal (Py.lstrip s);
  match Py.lstrip r with
  | c :: r =>
      if Py.chr_eqb c "-" then
        '(b, r) ← Re.run1 Py.isdecimal (Py.lstrip r);
        if forallb Py.isspace r then Some (a, b) else None
      else None
  | [] => None
  end.

(** [f"{prefix}{i}"] *)
Definition host_name (prefix : str) (i : Z) : str := prefix ++ s_ (pretty i).

Definition parse_host_list (hosts_csv host_range : option str) (prefix : str)
  : result host_list :=
  match hosts_csv with
  | Some (c :: r) =>
      Ok (Hosts (filter (fun h => nonempty h = true)
                   (map Py.strip (Py.split_chr "," (c :: r)))))
  | _ =>
      match host_range with
      | Some (c :: r) =>
          match range_match (c :: r) with
          | None => Ok (SystemExit "--range must be like 1-8")
          | Some (ga, gb) =>
              let* a := int ga in
              let* b := int gb in
              let '(a, b) := if (b <? a)%Z then (b, a) else (a, b) in
              Ok (Hosts (map (host_name prefix) (seqZ a (b + 1 - a))))
          end
      | _ => Ok (SystemExit "Provide either --hosts hs1,hs2 or --range 1-8")
      end
  end.

(** *** [start_collector_thread] *)


Section Loop.
Variable o : oracle.
(** [str(e)], the message of an exception, and [json.dumps(v, indent=2)]. *)
Variable str_of : exn -> str.
Variable dumps_indent : value -> str.
Variable hosts : list str.
Variable m_path : str.
Variable out_dir : str.
Variable timeout : nat.





End Loop.

End Collector.

(** ** [ss_tin_table.py]: what the table reads from a record *)

Module Table.

(** [bool(v)]; a float is zero when its literal has no digit but zeros. *)
Definition truthy (v : value) : bool :=
  match v with
  | VNone => false
  | VBool b => b
  | VInt z => negb (z =? 0)%Z
  | VFloat lit => existsb (fun c => Py.isdecimal c && negb (Py.chr_eqb c "0")) lit
  | VStr s => nonempty s
  | VList l => nonempty l
  | VDict d => nonempty d
  end.

(** [x or d] *)
Definition or_ (x d : value) : value := if truthy x then x else d.

(** [x.get(k, d)]: only a dict has [get]. *)
Definition get (x : value) (k : str) (d : value) : result value :=
  match x with
  | VDict m => Ok (default d (Dict.get m k))
  | _ => Raise AttributeError
  end.



Definition get_group_metric (sock : value) (group key : str) (default_ : value)
  : result value :=
  let* metrics := fmap_result (fun m => or_ m (VDict [])) (get sock "metrics" (VDict [])) in
  let* groups := fmap_result (fun m => or_ m (VDict [])) (get metrics "groups" (VDict [])) in
  let* g := fmap_result (fun m => or_ m (VDict [])) (get groups group (VDict [])) in
  get g key default_.


End Table.

(** * The vocabulary of the properties *)

Section ParserVocabulary.
Import Parser.

(** The lines the loop of [split_blocks] does not skip. *)
Definition kept (ln : str) : Prop := is_blank ln = false /\ is_state_row ln = false.

(** [e] is the stripped text of a kept line of [lines]. *)
Definition entry_of (lines : list str) (e : str) : Prop :=
  exists ln, ln ∈ lines /\ kept ln /\ e = Py.strip ln.

Definition block_from (lines : list str) (b : str * list str) : Prop :=
  (fst b = [] \/ entry_of lines (fst b)) /\ Forall (entry_of lines) (snd b).

Definition state_from (lines : list str) (st : split_state) : Prop :=
  Forall (block_from lines) (blocks st)
  /\ (forall h, cur_header st = Some h -> entry_of lines h)
  /\ Forall (entry_of lines) (cur_cont st).

(** The characters a numeric literal is made of. *)
Definition isnumish (c : ascii) : bool :=
  Py.isdecimal c || Py.chr_eqb c "+" || Py.chr_eqb c "-" || Py.chr_eqb c ".".

(** No whitespace, comma, slash or newline. *)
Definition isplain (c : ascii) : bool :=
  negb (Py.isspace c) && negb (Py.chr_eqb "," c) && negb (Py.chr_eqb c "/")
  && negb (Py.chr_eqb c Py.LF).

(** What [number] makes of a literal: a float when it holds a decimal point,
    an int otherwise. *)
Definition is_number_of (a : str) (x : value) : Prop :=
  if Py.has_chr "." a then x = VFloat a else exists z, int a = Ok z /\ x = VInt z.

End ParserVocabulary.

#[global] Instance kept_dec ln : Decision (kept ln).
Proof. unfold kept. apply _. Defined.

(** A fact about every character, settled on each of the 256. *)
Ltac each_char c :=
  destruct c as [[] [] [] [] [] [] [] []]; vm_compute; intuition congruence.

(** What [coerce_value] applies its rules to (line 100). *)
Definition normal_form (s0 : str) : str := Py.strip_chr "," (Py.strip s0).

Section RecordVocabulary.
Import Parser.

(** The blocks [parse_ss_tin_output] does not skip at line 239. *)
Definition has_header (b : str * list str) : Prop := fst b ≠ [].

(** The record of a block whose header does not match [RE_HEADER]. *)
Definition raw_record (header : str) (cont : list str) : value :=
  VDict [("raw_header" : str, VStr header); ("raw_cont" : str, VList (map VStr cont))].

(** [rec] is the record of block [b]. *)
Definition record_of (b : str * list str) (rec : value) : Prop :=
  parse_block (fst b) (snd b) = Ok rec
  /\ (Re.RE_HEADER (fst b) = None -> rec = raw_record (fst b) (snd b)).

(** The [sockets] entry of a result document. *)
Definition sockets_of (doc : value) : option value :=
  match doc with
  | VDict d => Dict.get d "sockets"
  | _ => None
  end.

End RecordVocabulary.

#[global] Instance has_header_dec b : Decision (has_header b).
Proof. unfold has_header. apply _. Defined.

Definition LFs : str := [Py.LF].

(** A stray continuation line, a header that matches and one that does not. *)
Definition sample_text : str :=
  concat [("  stray" : str); LFs;
          ("ESTAB 0 0 10.0.0.1:5201 10.0.0.2:51322" : str); LFs;
          ("   cubic rto:204" : str); LFs;
          ("ESTAB zero 0 10.0.0.1:5201" : str); LFs].

Definition sample_env : Parser.env :=
  {| Parser.now_utc := "2024-01-01T00:00:00+00:00"; Parser.hostname := "h1" |}.

(** The key a token of the outer text writes to: the text before its first
    colon, or the token itself when it is the key of a [key value] pair. *)
Definition touches (k t : str) : bool :=
  match Py.split1 ":" t with
  | Some (k0, _) => Py.str_eqb (Py.strip k0) k
  | None => Py.str_eqb t k
  end.

(** The key a part of a group body writes to. *)
Definition part_key (k p : str) : bool :=
  match Py.split1 ":" p with
  | Some (k0, _) => Py.str_eqb (Py.strip k0) k
  | None => Py.str_eqb "items" k
  end.

(** The tokens [parse_metrics] scans once the groups are cut out. *)
Definition outer_tokens (text : str) : list str :=
  Py.split_ws (Py.strip (Re.RE_PAREN_GROUP_sub text)).

Definition reserved_keys : list str :=
  [("raw" : str); ("groups" : str); ("cc" : str); ("flags" : str); ("unparsed" : str)].

Section StoreVocabulary.
Import Store.

(** No hard links, and every file in use was handed out by the allocator. *)
Definition wf (f : fs) : Prop :=
  (forall p i, names f !! p = Some i -> i < next f)
  /\ (forall p q i, names f !! p = Some i -> names f !! q = Some i -> p = q).

(** The steps that touch a temporary name only. *)
Definition op_tmp (o : op) : Prop :=
  match o with
  | Mkdir _ => True
  | OpenTrunc p => is_tmp p = true
  | WriteChr p _ => is_tmp p = true
  | Replace _ _ => False
  end.

(** From [f] to [f'] no final name moved and no file that a final name led
    to, or that was in no directory, changed. *)
Definition quiet (f f' : fs) : Prop :=
  next f <= next f'
  /\ (forall q, is_tmp q = false -> names f' !! q = names f !! q)
  /\ (forall i, i < next f -> (forall p, names f !! p = Some i -> is_tmp p = false) ->
                data f' !! i = data f !! i)
  /\ (forall p i, names f' !! p = Some i -> i < next f -> names f !! p = Some i).

(** The steps before the rename. *)
Definition write_steps (path content : str) : list op :=
  [Mkdir (parent path); OpenTrunc (tmp_path path)] ++ map (WriteChr (tmp_path path)) content.

End StoreVocabulary.

(** The disk after a sequence of [atomic_write_text] calls, each with its
    fault, path and content. *)
Definition replay (trace : list (option nat * str * str)) (f : Store.fs) : Store.fs :=
  fold_left (fun f t => snd (Store.atomic_write_text t.1.1 t.1.2 t.2 f)) trace f.

Definition final_paths (trace : list (option nat * str * str)) : Prop :=
  Forall (fun t => Store.is_tmp t.1.2 = false) trace.

(** The action changes the disk through [atomic_write_text] on final paths
    only. *)
Definition writes_atomically {A} (m : Collector.io A) : Prop :=
  forall w, exists trace,
    final_paths trace /\ Collector.files (snd (m w)) = replay trace (Collector.files w).




Section SweepVocabulary.
Import Collector.
Variable o : oracle.




End SweepVocabulary.

Definition sample_dumps (v : value) : str :=
  match v with
  | VDict d => concat (Dict.keys d)
  | _ => []
  end.

(** hs1 never answers in time, hs2 prints a table. *)
Definition oracle_timeout : Collector.oracle :=
  {| Collector.subprocess_run := fun _ cmd _ =>
       match cmd with
       | _ :: host :: _ =>
           if Py.str_eqb host "hs1" then Collector.TimeoutExpired None None
           else Collector.Completed 0 sample_text []
       | _ => Collector.Completed 1 [] []
       end;
     Collector.clock := fun _ => "2024-01-01T00:00:00+00:00";
     Collector.gethostname := "h1";
     Collector.disk_fault := fun _ => None;
     Collector.dumps := sample_dumps |}.



Definition two_hosts : list str := [("hs1" : str); ("hs2" : str)].

(** The store after one sweep over [two_hosts]. *)
Definition sample_store : Store.fs :=
  Collector.files
    (snd (Collector.collect_and_write oracle_timeout two_hosts "/m" "/out" 10
            Collector.world0)).

Section SplitterVocabulary.
Import Parser.

(** A header line with the continuation lines under it. *)
Definition group_lines (g : str * list str) : list str := fst g :: snd g.

(** The block [split_blocks] makes of a continuation line that has no header,
    and of a header line with its continuation lines. *)
Definition stray_block (ln : str) : str * list str := ([], [Py.strip ln]).

Definition group_block (g : str * list str) : str * list str :=
  (Py.strip (fst g), map Py.strip (snd g)).

(** A non-indented line followed by indented ones. *)
Definition is_group (g : str * list str) : Prop :=
  is_indented (fst g) = false /\ Forall (fun ln => is_indented ln = true) (snd g).

End SplitterVocabulary.

Section HeaderVocabulary.

(** A field of a header row, and the whitespace between two fields. *)
Definition is_field (s : str) : Prop := s <> [] /\ forallb Re.nonspace s = true.
Definition is_gap (s : str) : Prop := s <> [] /\ forallb Py.isspace s = true.

(** What may follow the peer: nothing, or whitespace and the process text,
    on one line. *)
Definition is_tail (s : str) : Prop :=
  s = [] \/ (Parser.is_indented s = true /\ Py.has_chr Py.LF s = false).

Record header_fields := {
  f_state : str;
  f_recvq : str;
  f_sendq : str;
  f_local : str;
  f_peer : str;
  f_tail : str
}.

(** [h] is a header row with these fields. *)
Definition header_of (f : header_fields) (h : str) : Prop :=
  exists w1 w2 w3 w4,
    h = f_state f ++ w1 ++ f_recvq f ++ w2 ++ f_sendq f ++ w3
        ++ f_local f ++ w4 ++ f_peer f ++ f_tail f
    /\ is_gap w1 /\ is_gap w2 /\ is_gap w3 /\ is_gap w4
    /\ is_field (f_state f) /\ Re.digits1 (f_recvq f) = true
    /\ Re.digits1 (f_sendq f) = true
    /\ is_field (f_local f) /\ is_field (f_peer f) /\ is_tail (f_tail f).



End HeaderVocabulary.

Section CostVocabulary.
Import Collector.

(** What an action may add to the world: at most [c] commands, each one
    allowed by [allowed], at most [t] readings of the clock and at most [d]
    calls of [atomic_write_text]. *)
Definition within {A} (allowed : list str -> Prop) (c t d : nat) (m : io A) : Prop :=
  forall w, exists new,
    commands (snd (m w)) = commands w ++ new
    /\ Forall allowed new /\ length new <= c
    /\ n_clock w <= n_clock (snd (m w)) <= n_clock w + t
    /\ n_write w <= n_write (snd (m w)) <= n_write w + d.

(** [cmd] is one of the four variants for one of the hosts. *)
Definition variant_for (m_path : str) (hosts : list str) (cmd : list str) : Prop :=
  exists host, host ∈ hosts /\ cmd ∈ attempts m_path host.



End CostVocabulary.

Section HostListVocabulary.

(** [not x] for an optional string: [None] or the empty string. *)
Definition falsy (x : option str) : Prop := x = None \/ x = Some [].

(** A name that [--hosts] can yield: not empty, no whitespace around it, no
    comma in it. *)
Definition clean_name (h : str) : Prop :=
  h <> [] /\ Py.strip h = h /\ Py.has_chr "," h = false.

End HostListVocabulary.

Section FrameVocabulary.
Import Collector.







End FrameVocabulary.

Section TokenVocabulary.

(** A bare identifier: what line 193 takes for the congestion-control name. *)
Definition is_bare (t : str) : bool := negb (Py.has_chr ":" t) && Re.RE_IDENTIFIER t.

(** The tokens the loop of lines 197-229 scans: the outer tokens without the
    congestion-control name. *)
Definition scanned_tokens (text : str) : list str :=
  snd (Parser.take_cc [] (outer_tokens text)).

End TokenVocabulary.




Definition sample_fields : header_fields :=
  {| f_state := "ESTAB"; f_recvq := "0"; f_sendq := "0"; f_local := "10.0.0.1:5201";
     f_peer := "10.0.0.2:51322"; f_tail := " users:x" |}.

(** * Properties *)

(** ** Strings *)

Section StringFacts.

Lemma chr_eqb_eq (a b : ascii) : Py.chr_eqb a b = true <-> a = b.
Proof. apply Ascii.eqb_eq. Qed.

Lemma chr_eqb_refl (a : ascii) : Py.chr_eqb a a = true.
Proof. apply Ascii.eqb_refl. Qed.

Lemma chr_eqb_sym (a b : ascii) : Py.chr_eqb a b = Py.chr_eqb b a.
Proof. apply Ascii.eqb_sym. Qed.

Lemma str_eqb_eq (a b : str) : Py.str_eqb a b = true <-> a = b.
Proof. unfold Py.str_eqb. apply bool_decide_eq_true. Qed.

Lemma str_eqb_refl (a : str) : Py.str_eqb a a = true.
Proof. by apply str_eqb_eq. Qed.

Lemma str_eqb_neq (a b : str) : Py.str_eqb a b = false <-> a ≠ b.
Proof. unfold Py.str_eqb. apply bool_decide_eq_false. Qed.

Lemma take_drop_while (p : ascii -> bool) (s : str) :
  Py.take_while p s ++ Py.drop_while p s = s.
Proof. induction s as [|c s IH]; simpl; [done|]. destruct (p c); simpl; by f_equal. Qed.

Lemma take_while_all (p : ascii -> bool) (s : str) :
  forallb p (Py.take_while p s) = true.
Proof. induction s as [|c s IH]; simpl; [done|]. destruct (p c) eqn:E; simpl; [by rewrite E|done]. Qed.

Lemma drop_while_head (p : ascii -> bool) (s : str) c r :
  Py.drop_while p s = c :: r -> p c = false.
Proof.
  induction s as [|a s IH]; simpl; [done|].
  destruct (p a) eqn:E; [done|]. intros [= -> ->]. done.
Qed.

Lemma drop_while_suffix (p : ascii -> bool) (s : str) :
  Py.drop_while p s `suffix_of` s.
Proof. exists (Py.take_while p s). by rewrite take_drop_while. Qed.

Lemma drop_while_all (p : ascii -> bool) (s : str) :
  forallb p s = true -> Py.drop_while p s = [].
Proof. induction s as [|c s IH]; simpl; [done|]. destruct (p c); simpl; [done|done]. Qed.

Lemma drop_while_none (p : ascii -> bool) (s : str) c :
  p c = false -> Py.drop_while p (c :: s) = c :: s.
Proof. simpl. by intros ->. Qed.

Lemma take_while_app_stop (p : ascii -> bool) (a : str) c r :
  forallb p a = true -> p c = false -> Py.take_while p (a ++ c :: r) = a.
Proof.
  induction a as [|x a IH]; simpl; intros Ha Hc; [by rewrite Hc|].
  apply andb_true_iff in Ha as [-> Ha]. by rewrite IH.
Qed.

Lemma drop_while_app_stop (p : ascii -> bool) (a : str) c r :
  forallb p a = true -> p c = false -> Py.drop_while p (a ++ c :: r) = c :: r.
Proof.
  induction a as [|x a IH]; simpl; intros Ha Hc; [by rewrite Hc|].
  apply andb_true_iff in Ha as [-> Ha]. by rewrite IH.
Qed.

Lemma take_while_all_id (p : ascii -> bool) (a : str) :
  forallb p a = true -> Py.take_while p a = a.
Proof.
  induction a as [|x a IH]; simpl; [done|]. intros Ha.
  apply andb_true_iff in Ha as [-> Ha]. by rewrite IH.
Qed.

Lemma rstrip_prefix (s : str) : Py.rstrip s `prefix_of` s.
Proof.
  unfold Py.rstrip. destruct (drop_while_suffix Py.isspace (rev s)) as [k Hk].
  exists (rev k). rewrite <- rev_app_distr, <- Hk. by rewrite rev_involutive.
Qed.

Lemma strip_prefix_lstrip (s : str) : Py.strip s `prefix_of` Py.lstrip s.
Proof. apply rstrip_prefix. Qed.

Lemma startswith_prefix (p s : str) : Py.startswith p s = true <-> p `prefix_of` s.
Proof.
  revert s. induction p as [|a p IH]; intros s; simpl.
  - split; [intros _; apply prefix_nil|done].
  - destruct s as [|b s].
    + split; [done|]. intros [k Hk]. done.
    + rewrite andb_true_iff, chr_eqb_eq, IH. split.
      * intros [-> H]. by apply prefix_cons.
      * intros [k Hk]. simplify_eq/=. split; [done|]. by exists k.
Qed.

Lemma startswith_false_prefix (p s t : str) :
  Py.startswith p s = false -> t `prefix_of` s -> Py.startswith p t = false.
Proof.
  intros Hs Ht. destruct (Py.startswith p t) eqn:E; [|done].
  apply startswith_prefix in E. rewrite <- Hs. symmetry.
  apply startswith_prefix. by etrans.
Qed.

End StringFacts.

(** ** The splitter *)

Section Splitter.
Import Parser.

Lemma split_step_skip st ln : ~ kept ln -> split_step st ln = st.
Proof.
  unfold kept, split_step. intros H.
  destruct (is_blank ln); [done|]. destruct (is_state_row ln); [done|].
  by destruct H.
Qed.

Lemma flush_from lines st : state_from lines st -> Forall (block_from lines) (flush st).
Proof.
  intros (Hb & Hh & Hc). unfold flush. destruct (cur_header st) as [h|]; [|done].
  apply Forall_app. split; [done|]. constructor; [|done].
  split; simpl; [right; by apply Hh|done].
Qed.

Lemma split_step_from lines st ln :
  ln ∈ lines -> state_from lines st -> state_from lines (split_step st ln).
Proof.
  intros Hin Hst. destruct (decide (kept ln)) as [Hk|Hk];
    [|by rewrite split_step_skip].
  assert (He : entry_of lines (Py.strip ln)) by (by exists ln).
  pose proof (flush_from _ _ Hst) as Hfl.
  destruct Hst as (Hb & Hh & Hc), Hk as [Hk1 Hk2].
  unfold split_step. rewrite Hk1, Hk2.
  destruct (is_indented ln).
  - destruct (cur_header st) as [h|] eqn:E.
    + split_and!; simpl; [done|intros h' [= <-]; by apply Hh|].
      apply Forall_app; split; [done|by constructor].
    + split_and!; simpl; [|done|done]. apply Forall_app; split; [done|].
      constructor; [|done]. split; simpl; [by left|by constructor].
  - split_and!; simpl; [done| |done]. by intros h [= <-].
Qed.

Lemma fold_split_from lines l st :
  l ⊆ lines -> state_from lines st -> state_from lines (fold_left split_step l st).
Proof.
  revert st. induction l as [|ln l IH]; intros st Hl Hst; simpl; [done|].
  apply IH; [set_solver|]. apply split_step_from; [set_solver|done].
Qed.

Lemma fold_split_filter l st :
  fold_left split_step (filter kept l) st = fold_left split_step l st.
Proof.
  revert st. induction l as [|ln l IH]; intros st; simpl; [done|].
  rewrite filter_cons. destruct (decide (kept ln)) as [Hk|Hk]; simpl.
  - apply IH.
  - rewrite IH. by rewrite split_step_skip.
Qed.

Lemma entry_not_state lines e :
  entry_of lines e -> e ≠ [] /\ Py.startswith "State " e = false.
Proof.
  intros (ln & _ & [Hb Hs] & ->). split.
  - unfold is_blank in Hb. by destruct (Py.strip ln).
  - eapply startswith_false_prefix; [exact Hs|apply strip_prefix_lstrip].
Qed.

End Splitter.

(** C9.  Whatever the input text, [split_blocks] takes its headers and
    continuation entries only from lines that are neither blank nor begin,
    after leading whitespace, with "State " (indented lines included): every
    header is the stripped text of such a line (or the empty marker of a stray
    continuation) and so is every continuation entry; hence no header and no
    continuation entry begins with "State " and no continuation entry is
    empty; and deleting the blank and "State " lines from the input changes
    nothing. *)
Theorem split_blocks_skips_state_and_blank_lines (ss_output : str) :
  Forall (fun b : str * list str =>
            (fst b = [] \/ entry_of (Parser.input_lines ss_output) (fst b))
            /\ Py.startswith "State " (fst b) = false
            /\ Forall (fun e => entry_of (Parser.input_lines ss_output) e
                                /\ e ≠ [] /\ Py.startswith "State " e = false) (snd b))
         (Parser.split_blocks ss_output)
  /\ Parser.split_blocks ss_output
     = Parser.split_lines (filter kept (Parser.input_lines ss_output)).
Proof.
  split.
  - assert (H : Forall (block_from (Parser.input_lines ss_output))
                  (Parser.split_blocks ss_output)).
    { apply flush_from, fold_split_from; [done|]. by split_and!; simpl. }
    eapply Forall_impl; [exact H|]. intros [h c] [Hh Hc]; simpl in *.
    split_and!; [done| |].
    + destruct Hh as [->|Hh]; [reflexivity|]. by destruct (entry_not_state _ _ Hh).
    + eapply Forall_impl; [exact Hc|]. intros e He. split; [done|].
      by apply entry_not_state in He.
  - unfold Parser.split_blocks, Parser.split_lines. by rewrite fold_split_filter.
Qed.

(** ** Value coercion *)

Section Coercion.
Import Parser.

Lemma isnumish_plain c : isnumish c = true -> isplain c = true.
Proof. each_char c. Qed.

Lemma isdecimal_numish c : Py.isdecimal c = true -> isnumish c = true.
Proof. unfold isnumish. by intros ->. Qed.

Lemma forallb_impl (p q : ascii -> bool) (s : str) :
  (forall c, p c = true -> q c = true) -> forallb p s = true -> forallb q s = true.
Proof.
  intros H. induction s as [|c s IH]; simpl; [done|].
  rewrite !andb_true_iff. intros [? ?]. split; [by apply H|by apply IH].
Qed.

Lemma forallb_rev (p : ascii -> bool) (s : str) : forallb p (rev s) = forallb p s.
Proof.
  induction s as [|c s IH]; simpl; [done|].
  rewrite forallb_app, IH. simpl. rewrite andb_true_r. apply andb_comm.
Qed.

Lemma drop_while_keeps (p : ascii -> bool) (s : str) :
  forallb (fun c => negb (p c)) s = true -> Py.drop_while p s = s.
Proof. destruct s as [|c s]; simpl; [done|]. by destruct (p c). Qed.

Lemma drop_while_app_all (p : ascii -> bool) (a b : str) :
  forallb p a = true -> Py.drop_while p (a ++ b) = Py.drop_while p b.
Proof.
  induction a as [|c a IH]; simpl; [done|].
  rewrite andb_true_iff. intros [-> ?]. by apply IH.
Qed.

Lemma rdrop_while_keeps (p : ascii -> bool) (s : str) :
  forallb (fun c => negb (p c)) s = true -> rev (Py.drop_while p (rev s)) = s.
Proof.
  intros H. rewrite drop_while_keeps; [apply rev_involutive|by rewrite forallb_rev].
Qed.

Lemma strip_keeps (s : str) :
  forallb (fun c => negb (Py.isspace c)) s = true -> Py.strip s = s.
Proof.
  intros H. unfold Py.strip, Py.lstrip, Py.rstrip.
  rewrite (drop_while_keeps _ s H). by apply rdrop_while_keeps.
Qed.

Lemma strip_chr_keeps (x : ascii) (s : str) :
  forallb (fun c => negb (Py.chr_eqb x c)) s = true -> Py.strip_chr x s = s.
Proof.
  intros H. unfold Py.strip_chr, Py.rstrip_chr.
  rewrite (drop_while_keeps _ s H). by apply rdrop_while_keeps.
Qed.

Lemma chomp_keeps (s : str) :
  forallb (fun c => negb (Py.chr_eqb c Py.LF)) s = true -> Re.chomp s = s.
Proof.
  intros H. unfold Re.chomp. rewrite <- forallb_rev in H.
  destruct (rev s) as [|c r]; [done|]. simpl in H.
  by destruct (Py.chr_eqb c Py.LF).
Qed.

Lemma isplain_parts (s : str) :
  forallb isplain s = true ->
  forallb (fun c => negb (Py.isspace c)) s = true
  /\ forallb (fun c => negb (Py.chr_eqb "," c)) s = true
  /\ forallb (fun c => negb (Py.chr_eqb c "/")) s = true
  /\ forallb (fun c => negb (Py.chr_eqb c Py.LF)) s = true.
Proof.
  intros H. split_and!; (eapply forallb_impl; [|exact H]); intros c; unfold isplain;
    rewrite !andb_true_iff; tauto.
Qed.

Lemma split1_Some sep s a b :
  Py.split1 sep s = Some (a, b) -> s = a ++ sep :: b /\ Py.has_chr sep a = false.
Proof.
  revert a. induction s as [|c s IH]; intros a; simpl; [done|].
  destruct (Py.chr_eqb c sep) eqn:E.
  - intros [= <- <-]. apply chr_eqb_eq in E as ->. done.
  - destruct (Py.split1 sep s) as [[a' b']|]; [|done]. intros [= <- <-].
    destruct (IH a' eq_refl) as [-> Hn]. split; [done|]. simpl.
    rewrite Hn, orb_false_r. unfold Py.chr_eqb in *. by rewrite Ascii.eqb_sym.
Qed.

Lemma split1_None sep s : Py.split1 sep s = None <-> Py.has_chr sep s = false.
Proof.
  induction s as [|c s IH]; simpl; [done|].
  unfold Py.chr_eqb. rewrite (Ascii.eqb_sym sep c).
  destruct (Ascii.eqb c sep); simpl; [done|].
  destruct (Py.split1 sep s) as [[a b]|]; [|tauto].
  split; [done|]. intros H. apply IH in H. done.
Qed.

Lemma split1_app sep a b :
  Py.has_chr sep a = false -> Py.split1 sep (a ++ sep :: b) = Some (a, b).
Proof.
  induction a as [|c a IH]; simpl.
  - by rewrite chr_eqb_refl.
  - rewrite orb_false_iff. intros [Hc Ha]. unfold Py.chr_eqb in *.
    rewrite Ascii.eqb_sym, Hc. fold (Py.chr_eqb). by rewrite (IH Ha).
Qed.

Lemma has_chr_false sep (s : str) :
  Py.has_chr sep s = false <-> forallb (fun c => negb (Py.chr_eqb sep c)) s = true.
Proof.
  induction s as [|c s IH]; simpl; [done|].
  rewrite orb_false_iff, andb_true_iff, negb_true_iff. tauto.
Qed.

Lemma float_unsigned_chars t :
  Re.float_unsigned t = true -> t ≠ [] /\ forallb isnumish t = true.
Proof.
  unfold Re.float_unsigned. destruct (Py.split1 "." t) as [[a b]|] eqn:E.
  - apply split1_Some in E as [-> _]. rewrite !andb_true_iff. intros [[Ha Hb] _].
    split; [by destruct a|]. rewrite forallb_app. simpl.
    rewrite (forallb_impl _ _ _ isdecimal_numish Ha).
    by rewrite (forallb_impl _ _ _ isdecimal_numish Hb).
  - unfold Re.digits1. rewrite andb_true_iff. intros [Hn Hd]. split; [by destruct t|].
    by apply (forallb_impl _ _ _ isdecimal_numish).
Qed.

Lemma float_literal_chars a :
  Re.float_literal a = true -> a ≠ [] /\ forallb isnumish a = true.
Proof.
  unfold Re.float_literal, Re.drop_sign. destruct a as [|c r]; [done|].
  destruct (Py.chr_eqb c "+" || Py.chr_eqb c "-") eqn:E.
  - intros H. apply float_unsigned_chars in H as [_ H]. split; [done|]. simpl.
    rewrite H, andb_true_r. unfold isnumish. apply orb_true_iff in E as [->| ->];
      by rewrite ?orb_true_r.
  - apply float_unsigned_chars.
Qed.

Lemma float_literal_plain a :
  Re.float_literal a = true -> a ≠ [] /\ forallb isplain a = true.
Proof.
  intros H. apply float_literal_chars in H as [? H]. split; [done|].
  by apply (forallb_impl _ _ _ isnumish_plain).
Qed.

Lemma RE_FLOAT_literal a : Re.float_literal a = true -> Re.RE_FLOAT a = true.
Proof.
  intros H. unfold Re.RE_FLOAT. rewrite chomp_keeps; [done|].
  apply float_literal_plain in H as [_ H]. by apply isplain_parts in H as (_ & _ & _ & H).
Qed.

(** [int] succeeds on a numeric literal without a decimal point. *)
Lemma int_of_literal a :
  Re.float_literal a = true -> Py.has_chr "." a = false -> exists z, int a = Ok z.
Proof.
  intros H Hdot. pose proof (float_literal_plain _ H) as [Hne Hp].
  apply isplain_parts in Hp as (Hsp & _). unfold int. rewrite (strip_keeps _ Hsp).
  unfold Re.float_literal, Re.drop_sign in H. destruct a as [|c r]; [done|].
  assert (Hnd : forall t, Py.has_chr "." t = false -> Re.float_unsigned t = true ->
                  exists z, int_unsigned t = Ok z).
  { intros t Ht. unfold Re.float_unsigned. apply split1_None in Ht as ->.
    unfold Re.digits1, int_unsigned. rewrite andb_true_iff. intros [Hn ->].
    destruct t; [done|]. eauto. }
  assert (Hr : Py.has_chr "." r = false).
  { unfold Py.has_chr in *. simpl in Hdot. by apply orb_false_iff in Hdot as [_ ?]. }
  destruct (Py.chr_eqb c "+") eqn:E1; simpl in H.
  { by apply Hnd. }
  destruct (Py.chr_eqb c "-") eqn:E2; simpl in H.
  { destruct (Hnd r Hr H) as [z ->]. simpl. eauto. }
  by apply Hnd.
Qed.

Lemma number_of_literal a :
  Re.float_literal a = true -> exists x, number a = Ok x /\ is_number_of a x.
Proof.
  intros H. unfold number, is_number_of. destruct (Py.has_chr "." a) eqn:E.
  - exists (VFloat a). split; [|done]. unfold float. f_equal. f_equal.
    apply strip_keeps. apply float_literal_plain in H as [_ H].
    by apply isplain_parts in H as (H & _).
  - destruct (int_of_literal a H E) as [z Hz]. exists (VInt z). rewrite Hz. eauto.
Qed.

Lemma pair_sides_literals a b :
  Re.float_literal a = true -> Re.float_literal b = true ->
  pair_sides (a ++ "/"%char :: b) = Some (a, b).
Proof.
  intros Ha Hb. pose proof (float_literal_plain _ Ha) as [Hane Hap].
  pose proof (float_literal_plain _ Hb) as [Hbne Hbp].
  pose proof (isplain_parts _ Hap) as (Ha1 & Ha2 & Ha3 & Ha4).
  pose proof (isplain_parts _ Hbp) as (Hb1 & Hb2 & Hb3 & Hb4).
  unfold pair_sides.
  assert (Py.has_chr "/" (a ++ "/"%char :: b) = true) as ->.
  { unfold Py.has_chr. rewrite existsb_app. simpl. by rewrite orb_true_r. }
  assert (Py.startswith "/" (a ++ "/"%char :: b) = false) as ->.
  { destruct a as [|c a]; [done|]. simpl in *. apply andb_true_iff in Ha3 as [Hc _].
    apply negb_true_iff in Hc. by rewrite chr_eqb_sym, Hc. }
  assert (Py.endswith "/" (a ++ "/"%char :: b) = false) as ->.
  { unfold Py.endswith. rewrite rev_app_distr. simpl. rewrite <- forallb_rev in Hb3.
    destruct (rev b) as [|c r] eqn:E.
    - apply (f_equal (@rev ascii)) in E. rewrite rev_involutive in E. done.
    - simpl in *. apply andb_true_iff in Hb3 as [Hc _]. apply negb_true_iff in Hc.
      by rewrite chr_eqb_sym, Hc. }
  simpl. rewrite split1_app.
  - rewrite !strip_keeps by done. by rewrite !RE_FLOAT_literal.
  - apply has_chr_false. eapply forallb_impl; [|exact Ha3]. intros c.
    by rewrite chr_eqb_sym.
Qed.

Lemma normal_form_literals a b :
  Re.float_literal a = true -> Re.float_literal b = true ->
  Py.strip_chr "," (Py.strip (a ++ "/"%char :: b)) = a ++ "/"%char :: b.
Proof.
  intros Ha Hb. pose proof (float_literal_plain _ Ha) as [Hane Hap].
  pose proof (float_literal_plain _ Hb) as [Hbne Hbp].
  pose proof (isplain_parts _ Hap) as (Ha1 & Ha2 & Ha3 & Ha4).
  pose proof (isplain_parts _ Hbp) as (Hb1 & Hb2 & Hb3 & Hb4).
  rewrite strip_keeps; [rewrite strip_chr_keeps; [done|]|];
    rewrite forallb_app; simpl; by rewrite ?Ha1, ?Ha2, ?Hb1, ?Hb2.
Qed.

End Coercion.

(** C8.  For every value string [a/b] whose sides are numeric literals (an
    optional sign, digits, at most one decimal point), [coerce_value] returns
    the pair of the two numbers, each a float when its literal holds a decimal
    point and an int otherwise, whatever the other side is; no other coercion
    rule gets to see such a string.  In particular "1.929/0.888" gives the
    pair of the floats 1.929 and 0.888. *)
Theorem coerce_value_pair (a b : str) :
  Re.float_literal a = true ->
  Re.float_literal b = true ->
  (exists x y,
      Parser.coerce_value (a ++ "/"%char :: b)
      = Ok (VDict [("a" : str, x); ("b" : str, y)])
      /\ is_number_of a x /\ is_number_of b y)
  /\ Parser.coerce_value "1.929/0.888"
     = Ok (VDict [("a" : str, VFloat "1.929"); ("b" : str, VFloat "0.888")]).
Proof.
  intros Ha Hb. split; [|reflexivity].
  destruct (number_of_literal a Ha) as (x & Hx & Hxa).
  destruct (number_of_literal b Hb) as (y & Hy & Hyb).
  exists x, y. split; [|done]. unfold Parser.coerce_value.
  rewrite normal_form_literals by done.
  assert (nonempty (a ++ "/"%char :: b) = true) as -> by (by destruct a).
  simpl. rewrite pair_sides_literals by done. by rewrite Hx, Hy.
Qed.

Lemma coerce_value_pair_witness :
  exists x y,
    Parser.coerce_value (("-12" : str) ++ "/"%char :: (".5" : str))
    = Ok (VDict [("a" : str, x); ("b" : str, y)])
    /\ x = VInt (-12) /\ y = VFloat ".5".
Proof.
  destruct (coerce_value_pair "-12" ".5" eq_refl eq_refl) as [(x & y & H & Hx & Hy) _].
  exists x, y. split; [exact H|]. split.
  - destruct Hx as (z & Hz & ->). vm_compute in Hz. by injection Hz as <-.
  - exact Hy.
Defined.

Section Normalisation.
Import Parser.

Lemma coerce_value_normal_form s0 s1 :
  normal_form s0 = normal_form s1 -> coerce_value s0 = coerce_value s1.
Proof. unfold coerce_value, normal_form. by intros ->. Qed.

Lemma coerce_value_empty_iff s0 :
  coerce_value s0 = Ok (VStr []) <-> normal_form s0 = [].
Proof.
  unfold coerce_value. fold (normal_form s0). destruct (normal_form s0) as [|c s] eqn:E.
  { done. }
  split; [|done]. change (negb (nonempty (c :: s))) with false. cbv iota.
  unfold bind, fmap_result, float. intros H. repeat case_match; simplify_eq.
Qed.

Lemma normal_form_blank (ws1 cs ws2 : str) :
  forallb Py.isspace ws1 = true ->
  forallb (Py.chr_eqb ",") cs = true ->
  forallb Py.isspace ws2 = true ->
  normal_form (ws1 ++ cs ++ ws2) = [].
Proof.
  intros H1 Hc H2. unfold normal_form.
  assert (Hs : Py.strip (ws1 ++ cs ++ ws2) = cs).
  { unfold Py.strip, Py.lstrip, Py.rstrip. rewrite drop_while_app_all by done.
    destruct cs as [|c cs].
    - simpl. by rewrite (drop_while_all _ _ H2).
    - assert (Hsp : Py.isspace c = false).
      { simpl in Hc. apply andb_true_iff in Hc as [Hc _]. apply chr_eqb_eq in Hc as <-.
        reflexivity. }
      rewrite <- app_comm_cons, (drop_while_none _ _ _ Hsp), app_comm_cons.
      rewrite rev_app_distr, drop_while_app_all by (by rewrite forallb_rev).
      rewrite rdrop_while_keeps; [done|].
      eapply forallb_impl; [|exact Hc]. intros x Hx. apply chr_eqb_eq in Hx as <-.
      reflexivity. }
  rewrite Hs. unfold Py.strip_chr, Py.rstrip_chr. by rewrite (drop_while_all _ _ Hc).
Qed.

End Normalisation.

(** C10, as the code has it.  [coerce_value] strips surrounding whitespace
    and then leading and trailing commas before any rule: its result depends
    on its argument only through that normal form.  So "12," is the integer
    12, and the result is the empty string exactly when the normal form is
    empty, which covers the empty string, whitespace only, commas only, and
    commas with whitespace around them. *)
Theorem coerce_value_strips_first :
  (forall s0 s1 : str,
      normal_form s0 = normal_form s1 -> Parser.coerce_value s0 = Parser.coerce_value s1)
  /\ Parser.coerce_value "12," = Ok (VInt 12)
  /\ (forall s0 : str, Parser.coerce_value s0 = Ok (VStr []) <-> normal_form s0 = [])
  /\ (forall ws1 cs ws2 : str,
         forallb Py.isspace ws1 = true ->
         forallb (Py.chr_eqb ",") cs = true ->
         forallb Py.isspace ws2 = true ->
         Parser.coerce_value (ws1 ++ cs ++ ws2) = Ok (VStr [])).
Proof.
  split_and!.
  - apply coerce_value_normal_form.
  - reflexivity.
  - apply coerce_value_empty_iff.
  - intros ws1 cs ws2 H1 Hc H2. apply coerce_value_empty_iff. by apply normal_form_blank.
Qed.

Lemma coerce_value_strips_first_witness :
  Parser.coerce_value ((" " : str) ++ (",," : str) ++ (" " : str)) = Ok (VStr []).
Proof.
  apply (proj2 (proj2 (proj2 coerce_value_strips_first)) " " ",," " "); reflexivity.
Defined.

(** C10 as stated fails: ", ," is made of commas and whitespace only, and
    [coerce_value] returns the whitespace between the commas, not the empty
    string. *)
Lemma coerce_value_comma_space_comma :
  forallb (fun c => Py.isspace c || Py.chr_eqb "," c) (", ," : str) = true
  /\ Parser.coerce_value ", ," = Ok (VStr " ")
  /\ Parser.coerce_value ", ," <> Ok (VStr []).
Proof. split_and!; [reflexivity|reflexivity|discriminate]. Qed.

(** ** The parser's output *)

Section Records.
Import Parser.

Lemma nonempty_false_iff {A} (l : list A) : nonempty l = false <-> l = [].
Proof. by destruct l. Qed.

Lemma parse_block_record b rec : parse_block (fst b) (snd b) = Ok rec -> record_of b rec.
Proof.
  intros H. split; [done|]. intros Hn. unfold parse_block in H. rewrite Hn in H.
  by injection H as <-.
Qed.

Lemma parse_blocks_records bs acc out :
  parse_blocks bs acc = Ok out ->
  exists new, out = acc ++ new /\ Forall2 record_of (filter has_header bs) new.
Proof.
  revert acc. induction bs as [|[h c] bs IH]; intros acc; simpl.
  - intros [= <-]. exists []. by rewrite app_nil_r.
  - rewrite filter_cons. destruct (nonempty h) eqn:E; simpl.
    + destruct (decide (has_header (h, c))) as [_|Hn];
        [|destruct Hn; unfold has_header; simpl; by destruct h].
      destruct (parse_block h c) as [rec|e] eqn:Hb; simpl; [|done].
      intros H. apply IH in H as (new & -> & Hnew). exists (rec :: new).
      split; [by rewrite <- app_assoc|]. constructor; [|done].
      by apply (parse_block_record (h, c)).
    + apply nonempty_false_iff in E as ->.
      destruct (decide (has_header ([], c))) as [Hn|_]; [by destruct Hn|]. apply IH.
Qed.

Lemma sockets_of_document w sockets : sockets_of (document w sockets) = Some (VList sockets).
Proof. reflexivity. Qed.


End Records.

(** C1, as the code has it.  When [parse_ss_tin_output] returns, its
    [sockets] hold exactly one record for every block of [split_blocks] that
    has a header, in the order of the blocks: the record [parse_block] makes
    of it, which for a header that does not match the five-field grammar is
    the raw record of the header and its continuation lines.  The blocks
    without a header (a continuation line before any header) are skipped, so
    the number of records is the number of blocks with a header. *)
Theorem parse_ss_tin_output_one_record_per_header
  (w : Parser.env) (ss_tin_output : str) (doc : value) :
  Parser.parse_ss_tin_output w ss_tin_output = Ok doc ->
  exists sockets : list value,
    doc = Parser.document w sockets
    /\ Forall2 record_of (filter has_header (Parser.split_blocks ss_tin_output)) sockets
    /\ length sockets = length (filter has_header (Parser.split_blocks ss_tin_output)).
Proof.
  unfold Parser.parse_ss_tin_output.
  destruct (Parser.parse_blocks _ _) as [sockets|e] eqn:E; simpl; [|done].
  intros [= <-]. apply parse_blocks_records in E as (new & -> & H). simpl.
  exists new. split_and!; [done|done|]. symmetry. by eapply Forall2_length.
Qed.

Lemma parse_ss_tin_output_one_record_per_header_witness :
  exists doc sockets,
    Parser.parse_ss_tin_output sample_env sample_text = Ok doc
    /\ doc = Parser.document sample_env sockets
    /\ length sockets = 2
    /\ length (Parser.split_blocks sample_text) = 3.
Proof.
  destruct (Parser.parse_ss_tin_output sample_env sample_text) as [doc|e] eqn:E;
    [|vm_compute in E; discriminate].
  destruct (parse_ss_tin_output_one_record_per_header _ _ _ E) as (sockets & Hd & _ & Hl).
  exists doc, sockets. split_and!; [done|done| |reflexivity].
  rewrite Hl. reflexivity.
Defined.

(** C1 as stated fails: the splitter keeps a continuation line that has no
    header as a block of its own, and the parser makes no record of it. *)
Lemma stray_continuation_has_no_record :
  Parser.split_blocks "  stray" = [([], [("stray" : str)])]
  /\ Parser.parse_ss_tin_output sample_env "  stray" = Ok (Parser.document sample_env []).
Proof. split; reflexivity. Qed.




(** ** Dictionaries *)

Section Dictionaries.

Lemma str_eqb_decide (a b : str) :
  Py.str_eqb a b = if decide (a = b) then true else false.
Proof. unfold Py.str_eqb. apply bool_decide_decide. Qed.

Lemma get_set (d : dict) k v k' :
  Dict.get (Dict.set d k v) k' = if decide (k = k') then Some v else Dict.get d k'.
Proof.
  induction d as [|[k0 v0] d IH]; simpl.
  - rewrite str_eqb_decide. by destruct (decide (k = k')).
  - rewrite (str_eqb_decide k0 k). destruct (decide (k0 = k)) as [->|Hne]; simpl.
    + rewrite str_eqb_decide. by destruct (decide (k = k')).
    + rewrite IH, str_eqb_decide. destruct (decide (k0 = k')) as [->|]; [|done].
      by rewrite decide_False.
Qed.

Lemma get_set_eq (d : dict) k v : Dict.get (Dict.set d k v) k = Some v.
Proof. rewrite get_set. by rewrite decide_True. Qed.

Lemma get_set_ne (d : dict) k v k' : k ≠ k' -> Dict.get (Dict.set d k v) k' = Dict.get d k'.
Proof. intros. rewrite get_set. by rewrite decide_False. Qed.

Lemma keys_set (d : dict) k v k' :
  k' ∈ Dict.keys (Dict.set d k v) <-> k' ∈ Dict.keys d \/ k' = k.
Proof.
  unfold Dict.keys. induction d as [|[k0 v0] d IH]; simpl.
  - rewrite list_elem_of_singleton. set_solver.
  - destruct (Py.str_eqb k0 k) eqn:E; simpl.
    + apply str_eqb_eq in E as ->. set_solver.
    + rewrite !elem_of_cons, IH. tauto.
Qed.

Lemma get_keys (d : dict) k v : Dict.get d k = Some v -> k ∈ Dict.keys d.
Proof.
  unfold Dict.keys. induction d as [|[k0 v0] d IH]; simpl; [done|].
  destruct (Py.str_eqb k0 k) eqn:E.
  - apply str_eqb_eq in E as ->. set_solver.
  - set_solver.
Qed.

Lemma append_to_get (d d' : dict) k x k' :
  Dict.append_to d k x = Ok d' -> k ≠ k' -> Dict.get d' k' = Dict.get d k'.
Proof.
  unfold Dict.append_to. intros H Hne.
  destruct (Dict.get d k) as [[]|]; simplify_eq; by rewrite get_set_ne.
Qed.

Lemma append_to_keys (d d' : dict) k x k' :
  Dict.append_to d k x = Ok d' -> k' ∈ Dict.keys d' -> k' ∈ Dict.keys d \/ k' = k.
Proof.
  unfold Dict.append_to. intros H.
  destruct (Dict.get d k) as [[]|]; simplify_eq; by rewrite keys_set.
Qed.

End Dictionaries.

(** ** Metrics *)

Section Metrics.
Import Parser.

Lemma foldM_app {A S} (f : S -> A -> result S) (a b : list A) (s : S) :
  foldM f (a ++ b) s = let* s' := foldM f a s in foldM f b s'.
Proof.
  revert s. induction a as [|x a IH]; intros s; simpl; [done|].
  destruct (f s x); simpl; [apply IH|done].
Qed.

Lemma bind_Ok {A B} (r : result A) (k : A -> result B) b :
  bind r k = Ok b -> exists a, r = Ok a /\ k a = Ok b.
Proof. destruct r; simpl; [eauto|done]. Qed.

(** Groups: a later match of the same name replaces an earlier one. *)
Lemma fold_groups_keep post G1 G name :
  foldM group_step post G1 = Ok G -> name ∉ map fst post ->
  Dict.get G name = Dict.get G1 name.
Proof.
  revert G1. induction post as [|[n b] post IH]; intros G1; simpl.
  - by intros [= ->].
  - intros H Hn. apply bind_Ok in H as (G2 & H2 & H). unfold group_step in H2.
    apply bind_Ok in H2 as (g & _ & [= <-]). simpl in *.
    rewrite (IH _ H) by set_solver. apply get_set_ne. set_solver.
Qed.

Lemma fold_groups_last pre name body post G0 G :
  foldM group_step (pre ++ (name, body) :: post) G0 = Ok G ->
  name ∉ map fst post ->
  exists g, parse_paren_body body = Ok g /\ Dict.get G name = Some (VDict g).
Proof.
  rewrite foldM_app. intros H Hn. apply bind_Ok in H as (G1 & _ & H). simpl in H.
  apply bind_Ok in H as (G2 & H2 & H). unfold group_step in H2.
  apply bind_Ok in H2 as (g & Hg & [= <-]). simpl in *.
  exists g. split; [done|]. rewrite (fold_groups_keep _ _ _ _ H Hn). apply get_set_eq.
Qed.

(** Group bodies: a later part with the same key replaces an earlier one. *)
Lemma fold_parts_keep post g1 g k :
  foldM paren_step post g1 = Ok g -> Forall (fun q => part_key k q = false) post ->
  Dict.get g k = Dict.get g1 k.
Proof.
  revert g1. induction post as [|q post IH]; intros g1; simpl.
  - by intros [= ->].
  - intros H Hq. apply Forall_cons in Hq as [Hq Hpost].
    apply bind_Ok in H as (g2 & H2 & H). rewrite (IH _ H Hpost).
    unfold paren_step in H2. unfold part_key in Hq.
    destruct (Py.split1 ":" q) as [[k0 v0]|].
    + apply bind_Ok in H2 as (x & _ & [= <-]). apply get_set_ne.
      by apply str_eqb_neq in Hq.
    + eapply append_to_get; [exact H2|]. by apply str_eqb_neq in Hq.
Qed.

Lemma fold_parts_last pre p post k0 v0 g0 g :
  foldM paren_step (pre ++ p :: post) g0 = Ok g ->
  Py.split1 ":" p = Some (k0, v0) ->
  Forall (fun q => part_key (Py.strip k0) q = false) post ->
  exists x, coerce_value (Py.strip v0) = Ok x /\ Dict.get g (Py.strip k0) = Some x.
Proof.
  rewrite foldM_app. intros H Hp Hpost. apply bind_Ok in H as (g1 & _ & H). simpl in H.
  apply bind_Ok in H as (g2 & H2 & H). unfold paren_step in H2. rewrite Hp in H2.
  apply bind_Ok in H2 as (x & Hx & [= <-]). exists x. split; [done|].
  rewrite (fold_parts_keep _ _ _ _ H Hpost). apply get_set_eq.
Qed.

(** The token loop writes only to the keys its tokens name, and to [flags]
    and [unparsed]. *)
Lemma token_loop_get k tokens :
  k ≠ ("flags" : str) -> k ≠ ("unparsed" : str) ->
  forall m m', Forall (fun t => touches k t = false) tokens ->
  token_loop m tokens = Ok m' -> Dict.get m' k = Dict.get m k.
Proof.
  intros Hf Hu. induction tokens as [tokens IH] using (induction_ltof1 _ (@length str)).
  unfold ltof in IH. intros m m' Ht H. destruct tokens as [|t rest]; simpl in H.
  { by injection H as <-. }
  apply Forall_cons in Ht as [Ht Hrest]. unfold touches in Ht.
  assert (Hsingle : forall key, key = ("flags" : str) \/ key = ("unparsed" : str) ->
            (let* metrics' := Dict.append_to m key (VStr t) in token_loop metrics' rest)
            = Ok m' -> Dict.get m' k = Dict.get m k).
  { intros key Hkey Hs. apply bind_Ok in Hs as (m1 & H1 & Hs).
    rewrite (IH rest) with (m := m1) (m' := m'); [|simpl; lia|done|done].
    eapply append_to_get; [exact H1|]. by destruct Hkey as [-> | ->]. }
  destruct (Py.split1 ":" t) as [[k0 v0]|].
  - apply str_eqb_neq in Ht. destruct (nonempty (Py.strip k0)).
    + apply bind_Ok in H as (x & _ & H).
      rewrite (IH rest) with (m := Dict.set m (Py.strip k0) x) (m' := m');
        [|simpl; lia|done|done]. by apply get_set_ne.
    + apply (IH rest); [simpl; lia|done|done].
  - apply str_eqb_neq in Ht. destruct (Re.RE_IDENTIFIER t).
    + destruct rest as [|nxt rest']; [by apply (Hsingle "flags"); [left|]|].
      destruct (negb (Py.has_chr ":" nxt) && looks_like_value nxt);
        [|by apply (Hsingle "flags"); [left|]].
      apply bind_Ok in H as (x & _ & H). apply Forall_cons in Hrest as [_ Hrest].
      rewrite (IH rest') with (m := Dict.set m t x) (m' := m');
        [|simpl; lia|done|done]. by apply get_set_ne.
    + by apply (Hsingle "unparsed"); [right|].
Qed.

Lemma token_loop_keys k tokens :
  forall m m', token_loop m tokens = Ok m' -> k ∈ Dict.keys m' ->
  k ∈ Dict.keys m \/ k = ("flags" : str) \/ k = ("unparsed" : str)
  \/ exists t, t ∈ tokens /\ touches k t = true.
Proof.
  induction tokens as [tokens IH] using (induction_ltof1 _ (@length str)).
  unfold ltof in IH. intros m m' H Hk. destruct tokens as [|t rest]; simpl in H.
  { injection H as <-. by left. }
  assert (Hrest : forall r m1, r `suffix_of` rest -> length r < length (t :: rest) ->
            token_loop m1 r = Ok m' ->
            k ∈ Dict.keys m1 \/ k = ("flags" : str) \/ k = ("unparsed" : str)
            \/ exists t', t' ∈ t :: rest /\ touches k t' = true).
  { intros r m1 [pre ->] Hlen Hr. destruct (IH r Hlen m1 m' Hr Hk) as [?|[?|[?|(t' & Hin & Ht')]]];
      [tauto|tauto|tauto|]. right; right; right. exists t'. split; [|done]. set_solver. }
  assert (Hsingle : forall key, key = ("flags" : str) \/ key = ("unparsed" : str) ->
            (let* metrics' := Dict.append_to m key (VStr t) in token_loop metrics' rest)
            = Ok m' ->
            k ∈ Dict.keys m \/ k = ("flags" : str) \/ k = ("unparsed" : str)
            \/ exists t', t' ∈ t :: rest /\ touches k t' = true).
  { intros key Hkey Hs. apply bind_Ok in Hs as (m1 & H1 & Hs).
    destruct (Hrest rest m1) as [Hin|?]; [done|simpl; lia|done| |tauto].
    destruct (append_to_keys _ _ _ _ _ H1 Hin) as [?| ->]; [tauto|].
    destruct Hkey as [-> | ->]; tauto. }
  unfold touches. destruct (Py.split1 ":" t) as [[k0 v0]|] eqn:E.
  - destruct (nonempty (Py.strip k0)).
    + apply bind_Ok in H as (x & _ & H).
      destruct (Hrest rest (Dict.set m (Py.strip k0) x)) as [Hin|?];
        [done|simpl; lia|done| |tauto].
      apply keys_set in Hin as [?| ->]; [tauto|]. right; right; right.
      exists t. split; [set_solver|]. unfold touches. rewrite E. apply str_eqb_refl.
    + apply (Hrest rest m); [done|simpl; lia|done].
  - destruct (Re.RE_IDENTIFIER t).
    + destruct rest as [|nxt rest']; [by apply (Hsingle "flags"); [left|]|].
      destruct (negb (Py.has_chr ":" nxt) && looks_like_value nxt);
        [|by apply (Hsingle "flags"); [left|]].
      apply bind_Ok in H as (x & _ & H).
      destruct (Hrest rest' (Dict.set m t x)) as [Hin|?];
        [by exists [nxt]|simpl; lia|done| |tauto].
      apply keys_set in Hin as [?| ->]; [tauto|]. right; right; right.
      exists t. split; [set_solver|]. unfold touches. rewrite E. apply str_eqb_refl.
    + by apply (Hsingle "unparsed"); [right|].
Qed.

Lemma drop_while_head_ok (p : ascii -> bool) (s : str) :
  match Py.drop_while p s with [] => True | c :: _ => p c = false end.
Proof. induction s as [|c s IH]; simpl; [done|]. by destruct (p c) eqn:E. Qed.

Lemma drop_while_fixed (p : ascii -> bool) (s : str) :
  match s with [] => True | c :: _ => p c = false end -> Py.drop_while p s = s.
Proof. destruct s as [|c s]; simpl; [done|]. by intros ->. Qed.

Lemma rstrip_idem (s : str) : Py.rstrip (Py.rstrip s) = Py.rstrip s.
Proof.
  unfold Py.rstrip. rewrite rev_involutive. f_equal.
  apply drop_while_fixed, drop_while_head_ok.
Qed.

Lemma strip_idem (s : str) : Py.strip (Py.strip s) = Py.strip s.
Proof.
  unfold Py.strip at 1. assert (Py.lstrip (Py.strip s) = Py.strip s) as ->.
  { unfold Py.lstrip. apply drop_while_fixed.
    destruct (strip_prefix_lstrip s) as [k Hk].
    pose proof (drop_while_head_ok Py.isspace s) as Hh. fold (Py.lstrip s) in Hh.
    rewrite Hk in Hh. by destruct (Py.strip s). }
  apply rstrip_idem.
Qed.

Lemma sub_no_match (s : str) :
  Re.finditer_from 0 s = [] -> Re.sub_from 0 s = s.
Proof.
  induction s as [|c s IH]; simpl; [done|].
  destruct (Re.paren_group_at (c :: s)) as [[[n b] len]|]; [done|].
  intros H. by rewrite IH.
Qed.

Lemma fold_groups_nonempty l G :
  l ≠ [] -> foldM group_step l [] = Ok G -> G ≠ [].
Proof.
  intros Hl H. destruct (exists_last Hl) as (pre & [name body] & ->).
  destruct (fold_groups_last pre name body [] [] G H) as (g & _ & Hg); [set_solver|].
  by intros ->.
Qed.

Lemma take_cc_spec (m : dict) (tokens : list str) :
  (snd (take_cc m tokens)) `suffix_of` tokens
  /\ Dict.get (fst (take_cc m tokens)) "groups" = Dict.get m "groups"
  /\ (forall k, k ∈ Dict.keys (fst (take_cc m tokens)) -> k ∈ Dict.keys m \/ k = ("cc" : str)).
Proof.
  unfold take_cc. destruct tokens as [|t0 rest]; simpl; [by split_and!; [|done|left]|].
  destruct (negb (Py.has_chr ":" t0) && Re.RE_IDENTIFIER t0); simpl.
  - split_and!; [by exists [t0]|by apply get_set_ne|]. intros k. by rewrite keys_set.
  - split_and!; [done|done|by left].
Qed.

(** What [parse_metrics] hands to the token loop. *)
Lemma parse_metrics_unfold lines metrics :
  parse_metrics lines = Ok metrics ->
  metrics_text lines = [] /\ metrics = [("raw" : str, VStr [])]
  \/ exists G m0 tokens,
       foldM group_step (Re.RE_PAREN_GROUP_finditer (metrics_text lines)) [] = Ok G
       /\ (Re.RE_PAREN_GROUP_finditer (metrics_text lines) ≠ [] ->
           Dict.get m0 "groups" = Some (VDict G))
       /\ (forall k, k ∈ Dict.keys m0 -> k ∈ [("raw" : str); ("groups" : str); ("cc" : str)])
       /\ tokens `suffix_of` outer_tokens (metrics_text lines)
       /\ token_loop m0 tokens = Ok metrics.
Proof.
  unfold parse_metrics. destruct (nonempty (metrics_text lines)) eqn:En; simpl.
  2: { intros [= <-]. left. apply nonempty_false_iff in En. by rewrite En. }
  intros H. apply bind_Ok in H as (G & HG & H). right.
  set (text' := metrics_text lines) in *.
  assert (Hcase : exists m1 t1,
             (Re.RE_PAREN_GROUP_finditer text' ≠ [] -> Dict.get m1 "groups" = Some (VDict G))
             /\ (forall k, k ∈ Dict.keys m1 -> k ∈ [("raw" : str); ("groups" : str)])
             /\ Py.split_ws t1 = outer_tokens text'
             /\ (let '(metrics, tokens) := take_cc m1 (Py.split_ws t1) in
                 token_loop metrics tokens) = Ok metrics).
  { destruct G as [|kv G].
    - exists [("raw" : str, VStr text')], text'. split_and!.
      + intros Hne. by destruct (fold_groups_nonempty _ _ Hne HG).
      + intros k. unfold Dict.keys. simpl. set_solver.
      + unfold outer_tokens, Re.RE_PAREN_GROUP_sub. rewrite sub_no_match.
        * unfold text', metrics_text. by rewrite strip_idem.
        * destruct (Re.RE_PAREN_GROUP_finditer text') eqn:E; [done|].
          by destruct (fold_groups_nonempty (p :: l) [] ltac:(done) HG).
      + exact H.
    - eexists _, _. split_and!; [| |reflexivity|exact H].
      + intros _. reflexivity.
      + intros k. unfold Dict.keys. simpl. set_solver. }
  destruct Hcase as (m1 & t1 & Hg & Hk & Ht & Hloop).
  pose proof (take_cc_spec m1 (Py.split_ws t1)) as (Hsuf & Hget & Hkeys).
  destruct (take_cc m1 (Py.split_ws t1)) as [m0 tokens]. simpl in *.
  exists G, m0, tokens. split_and!; [done| | |by rewrite <- Ht|done].
  - intros Hne. rewrite Hget. by apply Hg.
  - intros k Hin. destruct (Hkeys k Hin) as [Hin'| ->]; [|set_solver].
    specialize (Hk k Hin'). set_solver.
Qed.

End Metrics.

(** C7, as the code has it.  When [parse_metrics] returns: (1) the matches of
    [name:(body)] are found left to right without overlap, each body is
    parsed on its own by [parse_paren_body], and [metrics.groups[name]] holds
    the parse of the last match of that name, unless a token of the outer
    text has the key [groups]; (2) the matched spans are cut out before the
    outer text is split into tokens, so every key of [metrics] other than
    [raw], [groups], [cc], [flags] and [unparsed] is named by an outer token;
    (3) a group body is a comma-separated sequence whose part [key:value]
    stores [coerce_value(value)] under [key], a later part of the same key
    replacing an earlier one; (4) "bbr:(bw:100bps,mrtt:1.2)" gives the group
    [bbr] with [bw] the quantity 100 bps and [mrtt] the float 1.2, and no
    outer [bw] or [mrtt]. *)
Theorem parse_metrics_groups (lines : list str) (metrics : dict) :
  Parser.parse_metrics lines = Ok metrics ->
  (forall pre name body post,
      Re.RE_PAREN_GROUP_finditer (Parser.metrics_text lines) = pre ++ (name, body) :: post ->
      name ∉ map fst post ->
      Forall (fun t => touches "groups" t = false) (outer_tokens (Parser.metrics_text lines)) ->
      exists groups g,
        Dict.get metrics "groups" = Some (VDict groups)
        /\ Parser.parse_paren_body body = Ok g
        /\ Dict.get groups name = Some (VDict g))
  /\ (forall k, k ∈ Dict.keys metrics ->
        k ∈ reserved_keys
        \/ exists t, t ∈ outer_tokens (Parser.metrics_text lines) /\ touches k t = true)
  /\ (forall body g pre p post k0 v0,
        Parser.parse_paren_body body = Ok g ->
        Parser.comma_parts (Py.strip body) = pre ++ p :: post ->
        Py.split1 ":" p = Some (k0, v0) ->
        Forall (fun q => part_key (Py.strip k0) q = false) post ->
        exists x, Parser.coerce_value (Py.strip v0) = Ok x
                  /\ Dict.get g (Py.strip k0) = Some x)
  /\ Parser.parse_metrics [("bbr:(bw:100bps,mrtt:1.2)" : str)]
     = Ok [("raw" : str, VStr "bbr:(bw:100bps,mrtt:1.2)");
           ("groups" : str,
            VDict [("bbr" : str,
                    VDict [("bw" : str,
                            VDict [("value" : str, VInt 100); ("unit" : str, VStr "bps")]);
                           ("mrtt" : str, VFloat "1.2")])])].
Proof.
  intros H. split_and!; [| | |reflexivity].
  - intros pre name body post Hf Hn Ht.
    apply parse_metrics_unfold in H as [[He _]|(G & m0 & tokens & HG & Hg & _ & Hsuf & Hloop)].
    { rewrite He in Hf. by destruct pre. }
    rewrite Hf in HG. destruct (fold_groups_last _ _ _ _ _ _ HG Hn) as (g & Hb & Hget).
    exists G, g. split_and!; [|done|done].
    rewrite (token_loop_get "groups" tokens ltac:(done) ltac:(done) m0 metrics); [|  |done].
    + apply Hg. rewrite Hf. by destruct pre.
    + destruct Hsuf as [k Hk]. rewrite Hk in Ht. by apply Forall_app in Ht as [_ ?].
  - intros k Hk.
    apply parse_metrics_unfold in H as [[_ ->]|(G & m0 & tokens & _ & _ & Hm0 & Hsuf & Hloop)].
    { left. unfold Dict.keys, reserved_keys in *. simpl in *. set_solver. }
    destruct (token_loop_keys k tokens m0 metrics Hloop Hk) as [Hin|[->|[->|(t & Hin & Ht)]]].
    + left. specialize (Hm0 k Hin). unfold reserved_keys. set_solver.
    + left. unfold reserved_keys. set_solver.
    + left. unfold reserved_keys. set_solver.
    + right. exists t. split; [|done]. destruct Hsuf as [pre ->]. set_solver.
  - intros body g pre p post k0 v0 Hg Hparts Hp Hpost. unfold Parser.parse_paren_body in Hg.
    rewrite Hparts in Hg. by eapply fold_parts_last.
Qed.

(** ** The store under concurrent readers *)

Section StoreFacts.
Import Store.

Lemma wf_empty : wf Store.empty.
Proof. split; intros *; simpl; by rewrite lookup_empty. Qed.

Lemma quiet_refl f : quiet f f.
Proof. by split_and!. Qed.

Lemma quiet_trans f f' f'' : quiet f f' -> quiet f' f'' -> quiet f f''.
Proof.
  intros (Hn & Hq & Hd & Ho) (Hn' & Hq' & Hd' & Ho'). split_and!.
  - lia.
  - intros q Hqf. by rewrite Hq', Hq.
  - intros i Hi Hfin. rewrite Hd'; [by apply Hd|lia|].
    intros p Hp. apply Hfin. by apply Ho.
  - intros p i Hp Hi. apply Ho; [|done]. apply Ho'; [done|lia].
Qed.

Lemma is_tmp_ne (p q : str) : is_tmp p = true -> is_tmp q = false -> p ≠ q.
Proof. by intros Hp Hq ->; rewrite Hp in Hq. Qed.

Lemma step_tmp f o : wf f -> op_tmp o -> wf (apply_op o f) /\ quiet f (apply_op o f).
Proof.
  intros [Hb Hi] Ho.
  assert (Hkeep : forall i0 x, names f !! i0.1 = Some i0.2 -> is_tmp i0.1 = true ->
            let f' := {| names := names f; data := <[i0.2 := x]> (data f); next := next f |} in
            wf f' /\ quiet f f').
  { intros [p i] x Hp Ht; simpl in *. split; [done|]. split_and!; simpl; [lia|done| |done].
    intros i' _ Hfin. apply lookup_insert_ne. intros ->.
    specialize (Hfin _ Hp). by rewrite Ht in Hfin. }
  destruct o as [dir|p|p c|src dst]; simpl in *; [by split; [|apply quiet_refl]| | |done].
  - destruct (names f !! p) as [i|] eqn:E; [by apply (Hkeep (p, i))|].
    split; [split|split_and!]; simpl.
    + intros q i. rewrite lookup_insert. case_decide; [intros [= <-]; lia|].
      intros Hx. apply Hb in Hx. lia.
    + intros a b i. rewrite !lookup_insert. repeat case_decide; simplify_eq; try done.
      * intros [= <-] Hx. apply Hb in Hx. lia.
      * intros Hx [= <-]. apply Hb in Hx. lia.
      * apply Hi.
    + lia.
    + intros q Hq. apply lookup_insert_ne. by apply is_tmp_ne.
    + intros i Hlt _. apply lookup_insert_ne. lia.
    + intros q i. rewrite lookup_insert. case_decide; [intros [= <-]; lia|done].
  - destruct (names f !! p) as [i|] eqn:E; [by apply (Hkeep (p, i))|].
    by split; [|apply quiet_refl].
Qed.

Lemma run_tmp ops f :
  Forall op_tmp ops -> wf f -> wf (run_ops ops f) /\ quiet f (run_ops ops f).
Proof.
  intros Hops. revert f. induction Hops as [|o ops Ho _ IH]; intros f Hwf; simpl.
  - split; [done|apply quiet_refl].
  - destruct (step_tmp f o Hwf Ho) as [Hwf' Hq'].
    destruct (IH _ Hwf') as [Hwf'' Hq'']. split; [done|]. by eapply quiet_trans.
Qed.

Lemma run_ops_app a b f : run_ops (a ++ b) f = run_ops b (run_ops a f).
Proof. apply fold_left_app. Qed.

(** While the content is written, the temporary name leads to a file that
    holds what was written so far. *)
Lemma run_writes tmp content f i acc :
  names f !! tmp = Some i -> data f !! i = Some acc ->
  let f' := run_ops (map (WriteChr tmp) content) f in
  names f' !! tmp = Some i /\ data f' !! i = Some (acc ++ content).
Proof.
  revert f acc. induction content as [|c content IH]; intros f acc Hn Hd; simpl.
  - by rewrite app_nil_r.
  - rewrite Hn. replace (acc ++ c :: content) with ((acc ++ [c]) ++ content)
      by (by rewrite <- app_assoc).
    apply IH; simpl; [done|]. rewrite Hd. simpl. apply lookup_insert_eq.
Qed.

Lemma open_trunc_fresh tmp f :
  exists i, names (apply_op (OpenTrunc tmp) f) !! tmp = Some i
            /\ data (apply_op (OpenTrunc tmp) f) !! i = Some [].
Proof.
  simpl. destruct (names f !! tmp) as [i|] eqn:E; simpl.
  - exists i. split; [done|apply lookup_insert_eq].
  - exists (next f). split; apply lookup_insert_eq.
Qed.

Lemma atomic_write_ops_split path content :
  atomic_write_ops path content
  = write_steps path content ++ [Replace (tmp_path path) path].
Proof. unfold atomic_write_ops, write_steps. by rewrite <- app_assoc. Qed.

Lemma is_tmp_tmp_path path : is_tmp (tmp_path path) = true.
Proof.
  unfold is_tmp, tmp_path, Py.endswith. apply startswith_prefix.
  rewrite rev_app_distr. by exists (rev path).
Qed.

Lemma write_steps_tmp path content : Forall op_tmp (write_steps path content).
Proof.
  unfold write_steps. apply Forall_app. split.
  - repeat constructor. simpl. apply is_tmp_tmp_path.
  - apply Forall_map, Forall_forall. intros c _. simpl. apply is_tmp_tmp_path.
Qed.

Lemma write_steps_written path content f :
  exists i, names (run_ops (write_steps path content) f) !! tmp_path path = Some i
            /\ data (run_ops (write_steps path content) f) !! i = Some content.
Proof.
  unfold write_steps. rewrite run_ops_app. simpl run_ops at 2.
  destruct (open_trunc_fresh (tmp_path path) f) as (i & Hn & Hd). exists i.
  by apply (run_writes _ content _ i []).
Qed.

(** A prefix of the steps is a prefix of the write steps, or all of them. *)
Lemma take_atomic_write_ops k path content :
  k <= length (write_steps path content) ->
  take k (atomic_write_ops path content) = take k (write_steps path content).
Proof. intros H. rewrite atomic_write_ops_split. by apply take_app_le. Qed.


Lemma prefix_quiet k path content f :
  wf f -> k <= length (write_steps path content) ->
  wf (run_ops (take k (atomic_write_ops path content)) f)
  /\ quiet f (run_ops (take k (atomic_write_ops path content)) f).
Proof.
  intros Hwf Hk. rewrite take_atomic_write_ops by done. apply run_tmp; [|done].
  apply Forall_take, write_steps_tmp.
Qed.

(** The state after the rename, in terms of the state before it. *)
Lemma after_replace path content f :
  let f1 := run_ops (write_steps path content) f in
  let f2 := run_ops (atomic_write_ops path content) f in
  exists i, names f1 !! tmp_path path = Some i
            /\ data f1 !! i = Some content
            /\ names f2 = <[path := i]> (delete (tmp_path path) (names f1))
            /\ data f2 = data f1 /\ next f2 = next f1.
Proof.
  intros f1 f2. destruct (write_steps_written path content f) as (i & Hn & Hd).
  exists i. fold f1 in Hn, Hd. unfold f2. rewrite atomic_write_ops_split, run_ops_app.
  fold f1. simpl. by rewrite Hn.
Qed.

Lemma wf_after_write path content f :
  wf f -> is_tmp path = false -> wf (run_ops (atomic_write_ops path content) f).
Proof.
  intros Hwf Hp. destruct (after_replace path content f) as (i & Hn & Hd & Hn2 & Hd2 & Hx).
  destruct (run_tmp _ f (write_steps_tmp path content) Hwf) as [[Hb Hi] _].
  split.
  - intros p j. rewrite Hn2, Hx, lookup_insert. case_decide.
    + intros [= <-]. by eapply Hb.
    + rewrite lookup_delete. case_decide; [done|]. apply Hb.
  - intros p q j. rewrite Hn2, !lookup_insert, !lookup_delete.
    repeat case_decide; simplify_eq; try done.
    + intros [= <-] Hy. by destruct (Hi _ _ _ Hn Hy).
    + intros Hy [= <-]. by destruct (Hi _ _ _ Hn Hy).
    + apply Hi.
Qed.



End StoreFacts.

(** ** What the collector writes *)

Section CollectorWrites.
Import Collector.
Variable o : oracle.

Lemma replay_app a b f : replay (a ++ b) f = replay b (replay a f).
Proof. apply fold_left_app. Qed.

Lemma writes_ret {A} (a : A) : writes_atomically (ret a).
Proof. intros w. exists []. by split; [constructor|]. Qed.

Lemma writes_pure {A} (g : world -> result A) : writes_atomically (fun w => (g w, w)).
Proof. intros w. exists []. by split; [constructor|]. Qed.

Lemma writes_bind {A B} (m : io A) (k : A -> io B) :
  writes_atomically m -> (forall a, writes_atomically (k a)) ->
  writes_atomically (io_bind m k).
Proof.
  intros Hm Hk w. unfold io_bind. destruct (Hm w) as (t1 & Hf1 & H1).
  destruct (m w) as [[a|e] w1]; simpl in *.
  - destruct (Hk a w1) as (t2 & Hf2 & H2). exists (t1 ++ t2).
    split; [by apply Forall_app|]. by rewrite H2, H1, replay_app.
  - by exists t1.
Qed.

Lemma writes_run cmd timeout : writes_atomically (run o cmd timeout).
Proof. intros w. exists []. by split; [constructor|]. Qed.

Lemma writes_now : writes_atomically (now o).
Proof. intros w. exists []. by split; [constructor|]. Qed.

Lemma writes_atomic_write_text path content :
  Store.is_tmp path = false -> writes_atomically (atomic_write_text o path content).
Proof.
  intros Hp w. exists [(disk_fault o (n_write w), path, content)].
  split; [by repeat constructor|]. unfold atomic_write_text. simpl.
  by destruct (Store.atomic_write_text _ _ _ _).
Qed.

Lemma writes_try_attempts cmds timeout last :
  writes_atomically (try_attempts o cmds timeout last).
Proof.
  revert last. induction cmds as [|cmd cmds IH]; intros last; simpl.
  - apply writes_ret.
  - apply writes_bind; [apply writes_run|]. intros r.
    destruct (accepted r); [apply writes_ret|apply IH].
Qed.

Lemma json_is_final (x : str) : Store.is_tmp (x ++ (".json" : str)) = false.
Proof.
  unfold Store.is_tmp, Py.endswith. rewrite rev_app_distr. reflexivity.
Qed.

Lemma host_file_final out_dir host :
  Store.is_tmp (path_join out_dir (host ++ ("_ss_tin.json" : str))) = false
  /\ Store.is_tmp (path_join out_dir (host ++ ("_ss_tin_error.json" : str))) = false
  /\ Store.is_tmp (path_join out_dir "index.json") = false.
Proof.
  unfold path_join. split_and!.
  - replace (out_dir ++ ("/" : str) ++ host ++ ("_ss_tin.json" : str))
      with ((out_dir ++ ("/" : str) ++ host ++ ("_ss_tin" : str)) ++ (".json" : str))
      by (by rewrite <- !app_assoc). apply json_is_final.
  - replace (out_dir ++ ("/" : str) ++ host ++ ("_ss_tin_error.json" : str))
      with ((out_dir ++ ("/" : str) ++ host ++ ("_ss_tin_error" : str)) ++ (".json" : str))
      by (by rewrite <- !app_assoc). apply json_is_final.
  - replace (out_dir ++ ("/" : str) ++ ("index.json" : str))
      with ((out_dir ++ ("/" : str) ++ ("index" : str)) ++ (".json" : str))
      by (by rewrite <- !app_assoc). apply json_is_final.
Qed.

Lemma writes_collect_host now_ m_path out_dir timeout entries host :
  writes_atomically (collect_host o now_ m_path out_dir timeout entries host).
Proof.
  destruct (host_file_final out_dir host) as (H1 & H2 & _).
  unfold collect_host. apply writes_bind; [apply writes_try_attempts|].
  intros [[rc out] err]. destruct ((rc =? 0)%Z && nonempty (Py.strip out)).
  - apply writes_bind.
    { unfold parse. apply writes_bind; [apply writes_now|]. intros t. apply writes_pure. }
    intros parsed. apply writes_bind; [apply writes_pure|]. intros record.
    apply writes_bind; [by apply writes_atomic_write_text|]. intros _. apply writes_ret.
  - apply writes_bind; [by apply writes_atomic_write_text|]. intros _. apply writes_ret.
Qed.

Lemma writes_collect_hosts now_ m_path out_dir timeout entries hosts :
  writes_atomically (collect_hosts o now_ m_path out_dir timeout entries hosts).
Proof.
  revert entries. induction hosts as [|host hosts IH]; intros entries; simpl.
  - apply writes_ret.
  - apply writes_bind; [apply writes_collect_host|]. intros entries'. apply IH.
Qed.

Lemma writes_collect_and_write hosts m_path out_dir timeout :
  writes_atomically (collect_and_write o hosts m_path out_dir timeout).
Proof.
  unfold collect_and_write. apply writes_bind; [apply writes_now|]. intros now_.
  apply writes_bind; [apply writes_collect_hosts|]. intros entries.
  apply writes_bind; [|intros _; apply writes_ret].
  apply writes_atomic_write_text. by destruct (host_file_final out_dir []) as (_ & _ & ?).
Qed.

End CollectorWrites.

Section ReplayFacts.
Import Store.

Lemma wf_atomic_write_text fault path content f :
  wf f -> is_tmp path = false -> wf (snd (atomic_write_text fault path content f)).
Proof.
  intros Hwf Hp. unfold atomic_write_text.
  destruct fault as [k|]; [|by apply wf_after_write].
  destruct (k <? length (atomic_write_ops path content)) eqn:E; simpl;
    [|by apply wf_after_write].
  apply Nat.ltb_lt in E. apply prefix_quiet; [done|].
  rewrite atomic_write_ops_split, length_app in E. simpl in *. lia.
Qed.

Lemma wf_replay trace f : final_paths trace -> wf f -> wf (replay trace f).
Proof.
  intros Ht. revert f. induction Ht as [|[[fault p] c] trace Hp _ IH]; intros f Hwf; simpl.
  - done.
  - apply IH. by apply wf_atomic_write_text.
Qed.

Lemma rsplit1_app sep (a b : str) :
  Py.has_chr sep b = false ->
  Py.rsplit1 sep (a ++ b)
  = match Py.rsplit1 sep a with
    | Some (x, y) => Some (x, y ++ b)
    | None => None
    end.
Proof.
  intros Hb. induction a as [|c a IH]; simpl.
  - induction b as [|c b IHb]; simpl; [done|]. simpl in Hb.
    apply orb_false_iff in Hb as [Hc Hb]. rewrite (IHb Hb).
    by rewrite chr_eqb_sym, Hc.
  - rewrite IH. destruct (Py.rsplit1 sep a) as [[x y]|]; [done|].
    by destruct (Py.chr_eqb c sep).
Qed.


End ReplayFacts.


(** ** The collector *)

Section CollectorFacts.
Import Collector.
Variable o : oracle.












End CollectorFacts.

Section Sweep.
Import Collector.
Variable o : oracle.



Lemma parse_document env out doc :
  Parser.parse_ss_tin_output env out = Ok doc ->
  exists sockets, doc = Parser.document env sockets.
Proof.
  unfold Parser.parse_ss_tin_output. intros H. apply bind_Ok in H as (sockets & _ & [= <-]).
  by exists sockets.
Qed.



End Sweep.



(** ** Sample runs *)







(** C7 as stated fails: of two groups of the same name only the last is
    kept, and an outer token whose key is [groups] replaces the groups
    altogether. *)
Lemma repeated_group_keeps_last :
  Re.RE_PAREN_GROUP_finditer "a:(x:1) a:(y:2)"
  = [("a" : str, "x:1" : str); ("a" : str, "y:2" : str)]
  /\ Parser.parse_paren_body "x:1" = Ok [("x" : str, VInt 1)]
  /\ Parser.parse_metrics [("a:(x:1) a:(y:2)" : str)]
     = Ok [("raw" : str, VStr "a:(x:1) a:(y:2)");
           ("groups" : str, VDict [("a" : str, VDict [("y" : str, VInt 2)])])]
  /\ Parser.parse_metrics [("bbr:(bw:1) groups:5" : str)]
     = Ok [("raw" : str, VStr "bbr:(bw:1) groups:5"); ("groups" : str, VInt 5)].
Proof. split_and!; reflexivity. Qed.

Lemma parse_metrics_groups_witness :
  exists metrics groups g,
    Parser.parse_metrics [("cubic rto:204 x:(a:1) x:(c:2)" : str)] = Ok metrics
    /\ Dict.get metrics "groups" = Some (VDict groups)
    /\ Parser.parse_paren_body "c:2" = Ok g
    /\ Dict.get groups "x" = Some (VDict g).
Proof.
  destruct (Parser.parse_metrics [("cubic rto:204 x:(a:1) x:(c:2)" : str)])
    as [metrics|e] eqn:E; [|vm_compute in E; discriminate].
  destruct (parse_metrics_groups _ _ E) as (H & _).
  destruct (H [("x" : str, "a:1" : str)] ("x" : str) ("c:2" : str) [] eq_refl)
    as (groups & g & H1 & H2 & H3).
  - apply not_elem_of_nil.
  - vm_compute. repeat constructor.
  - by exists metrics, groups, g.
Defined.

(** C6 at the failing input: the text after the last colon is the superscript
    two, which [str.isdigit] accepts and [int] rejects, so [parse_ip_port]
    raises instead of keeping the text as the port.  On the bracketed example
    of the specification it returns the ip and the integer port. *)
Theorem parse_ip_port_superscript_port :
  Py.isdigit ["178"%char] = true
  /\ int ["178"%char] = Raise ValueError
  /\ Parser.parse_ip_port (("a:" : str) ++ ["178"%char]) = Raise ValueError
  /\ Parser.parse_ip_port "[2001:db8::1]:22"
     = Ok (Parser.endpoint "[2001:db8::1]:22" (VStr "2001:db8::1") (VInt 22)).
Proof. split_and!; reflexivity. Qed.

(** ** Endpoints with a decimal port *)

Section Endpoints.
Import Parser.

Lemma rsplit1_snoc sep (l : str) : Py.rsplit1 sep (l ++ [sep]) = Some (l, []).
Proof.
  induction l as [|c l IH]; simpl.
  - by rewrite chr_eqb_refl.
  - by rewrite IH.
Qed.

Lemma rsplit1_last sep (l r : str) :
  Py.has_chr sep r = false -> Py.rsplit1 sep (l ++ sep :: r) = Some (l, r).
Proof.
  intros Hr. rewrite cons_middle, app_assoc, rsplit1_app by done.
  by rewrite rsplit1_snoc.
Qed.

Lemma rsplit1_absent sep (t : str) : Py.has_chr sep t = false -> Py.rsplit1 sep t = None.
Proof. intros Ht. by rewrite <- (app_nil_l t), rsplit1_app. Qed.

Lemma isdecimal_nonspace c : Py.isdecimal c = true -> negb (Py.isspace c) = true.
Proof. each_char c. Qed.

Lemma isdecimal_not_sign c :
  Py.isdecimal c = true -> Py.chr_eqb c "+" = false /\ Py.chr_eqb c "-" = false.
Proof. each_char c. Qed.

Lemma isdecimal_isdigit c : Py.isdecimal c = true -> Py.isdigit_char c = true.
Proof. unfold Py.isdigit_char. by intros ->. Qed.

Lemma isspace_LF c : negb (Py.isspace c) = true -> Py.chr_eqb Py.LF c = false.
Proof. each_char c. Qed.

(** [int] on a run of decimal digits. *)
Lemma int_digits (port : str) : Re.digits1 port = true -> int port = Ok (digits_val port).
Proof.
  unfold Re.digits1. rewrite andb_true_iff. intros [Hne Hd].
  unfold int. rewrite strip_keeps by (by apply (forallb_impl _ _ _ isdecimal_nonspace)).
  destruct port as [|c r]; [done|]. pose proof Hd as Hd'. simpl in Hd'.
  apply andb_true_iff in Hd' as [Hc _]. destruct (isdecimal_not_sign c Hc) as [-> ->].
  unfold int_unsigned. by rewrite Hd.
Qed.

Lemma digits1_isdigit (port : str) : Re.digits1 port = true -> Py.isdigit port = true.
Proof.
  unfold Re.digits1, Py.isdigit. rewrite andb_true_iff. intros [Hne Hd].
  destruct port; [done|]. by apply (forallb_impl _ _ _ isdecimal_isdigit).
Qed.

Lemma bracket_match_shape (ip port : str) :
  Re.digits1 port = true -> Py.has_chr Py.LF ip = false ->
  Re.bracket_match ("["%char :: ip ++ ("]:" : str) ++ port) = Some (ip, port).
Proof.
  unfold Re.digits1. rewrite andb_true_iff. intros [Hne Hd] Hlf.
  unfold Re.bracket_match. rewrite chr_eqb_refl.
  assert (Hrev : rev (ip ++ ("]:" : str) ++ port) = rev port ++ ":"%char :: "]"%char :: rev ip).
  { rewrite !rev_app_distr. simpl. by rewrite <- !app_assoc. }
  rewrite Hrev.
  rewrite take_while_app_stop, drop_while_app_stop by (by rewrite ?forallb_rev).
  rewrite !chr_eqb_refl, !rev_involutive, Hne. simpl.
  assert (Py.has_chr Py.LF (rev ip) = false) as ->; [|done].
  apply has_chr_false. rewrite forallb_rev. by apply has_chr_false.
Qed.

Lemma bracket_match_inv (t ip port : str) :
  Re.bracket_match t = Some (ip, port) ->
  t = "["%char :: ip ++ ("]:" : str) ++ port /\ Re.digits1 port = true.
Proof.
  unfold Re.bracket_match. destruct t as [|c t]; [done|].
  destruct (Py.chr_eqb c "[") eqn:Ec; [|done]. apply chr_eqb_eq in Ec as ->.
  pose proof (take_drop_while Py.isdecimal (rev t)) as Htd.
  pose proof (take_while_all Py.isdecimal (rev t)) as Hall.
  remember (Py.take_while Py.isdecimal (rev t)) as tk eqn:Etk. clear Etk.
  destruct (Py.drop_while Py.isdecimal (rev t)) as [|c1 [|c2 ip_rev]]; [done|done|].
  destruct (Py.chr_eqb c1 ":") eqn:E1; [|done]. apply chr_eqb_eq in E1 as ->.
  destruct (Py.chr_eqb c2 "]") eqn:E2; [|done]. apply chr_eqb_eq in E2 as ->. simpl.
  destruct (nonempty (rev tk)) eqn:En; [|done]. simpl.
  destruct (Py.has_chr Py.LF ip_rev); [done|]. simpl. intros [= <- <-].
  split.
  - f_equal. apply (f_equal (@rev ascii)) in Htd. rewrite rev_involutive in Htd.
    subst t. rewrite rev_app_distr. simpl. by rewrite <- !app_assoc.
  - unfold Re.digits1. by rewrite En, forallb_rev.
Qed.

End Endpoints.

(** On a token without whitespace, [parse_ip_port] does what the
    specification says as long as the text after the last colon is not made
    of digits that are no decimal digits: a bracketed token [[ip]:port] with a
    decimal port gives the ip and the integer port, any other token that
    starts with a bracket gives neither; otherwise the token is split at its
    last colon, the right-hand part becoming the integer port when it is a
    run of decimal digits and being kept as it is when [str.isdigit] rejects
    it; a token without a colon is the ip, with no port. *)
Theorem parse_ip_port_on_tokens (t : str) :
  forallb (fun c => negb (Py.isspace c)) t = true ->
  (forall ip port,
      t = "["%char :: ip ++ ("]:" : str) ++ port -> Re.digits1 port = true ->
      Parser.parse_ip_port t = Ok (Parser.endpoint t (VStr ip) (VInt (digits_val port))))
  /\ (Py.startswith "[" t = true ->
      (forall ip port, t = "["%char :: ip ++ ("]:" : str) ++ port -> Re.digits1 port = false) ->
      Parser.parse_ip_port t = Ok (Parser.endpoint t VNone VNone))
  /\ (Py.startswith "[" t = false ->
      forall l r, t = l ++ ":"%char :: r -> Py.has_chr ":" r = false ->
      (Re.digits1 r = true ->
       Parser.parse_ip_port t = Ok (Parser.endpoint t (VStr l) (VInt (digits_val r))))
      /\ (Py.isdigit r = false ->
          Parser.parse_ip_port t = Ok (Parser.endpoint t (VStr l) (VStr r))))
  /\ (Py.startswith "[" t = false -> Py.has_chr ":" t = false ->
      Parser.parse_ip_port t = Ok (Parser.endpoint t (VStr t) VNone)).
Proof.
  intros Hsp. unfold Parser.parse_ip_port. rewrite (strip_keeps t Hsp). split_and!.
  - intros ip port -> Hd.
    change (Py.startswith "[" ("["%char :: ip ++ ("]:" : str) ++ port)) with true. cbv iota.
    rewrite bracket_match_shape; [by rewrite (int_digits port Hd)|done|].
    apply has_chr_false. simpl in Hsp. rewrite forallb_app in Hsp.
    apply andb_true_iff in Hsp as [Hsp _].
    eapply forallb_impl; [|exact Hsp]. intros c Hc. by rewrite isspace_LF.
  - intros -> Hno. destruct (Re.bracket_match t) as [[ip port]|] eqn:E; [|done].
    apply bracket_match_inv in E as [Ht Hd]. by rewrite (Hno ip port Ht) in Hd.
  - intros Hs l r -> Hr. rewrite Hs, (rsplit1_last ":" l r Hr). split.
    + intros Hd. by rewrite (digits1_isdigit r Hd), (int_digits r Hd).
    + by intros ->.
  - intros -> Ht. by rewrite (rsplit1_absent ":" t Ht).
Qed.

Lemma parse_ip_port_on_tokens_witness :
  Parser.parse_ip_port "10.0.0.1:5201"
  = Ok (Parser.endpoint "10.0.0.1:5201" (VStr "10.0.0.1") (VInt 5201)).
Proof.
  destruct (parse_ip_port_on_tokens "10.0.0.1:5201" eq_refl) as (_ & _ & H & _).
  destruct (H eq_refl "10.0.0.1" "5201" eq_refl eq_refl) as [Hd _].
  exact (Hd eq_refl).
Defined.

(** * Further properties *)

(** ** The splitter as a whole *)

Section Grouping.
Import Parser.

Lemma fold_split_groups l :
  Forall kept l ->
  forall st,
    (cur_header st = None ->
     exists strays groups,
       l = strays ++ concat (map group_lines groups)
       /\ Forall (fun ln => is_indented ln = true) strays
       /\ Forall is_group groups
       /\ flush (fold_left split_step l st)
          = blocks st ++ map stray_block strays ++ map group_block groups)
    /\ (forall h, cur_header st = Some h ->
        exists conts groups,
          l = conts ++ concat (map group_lines groups)
          /\ Forall (fun ln => is_indented ln = true) conts
          /\ Forall is_group groups
          /\ flush (fold_left split_step l st)
             = blocks st ++ [(h, cur_cont st ++ map Py.strip conts)]
               ++ map group_block groups).
Proof.
  induction 1 as [|ln l [Hb Hs] Hl IH]; intros st.
  { split.
    - intros Hh. exists [], []. unfold flush. simpl. rewrite Hh, app_nil_r. done.
    - intros h Hh. exists [], []. unfold flush. simpl. rewrite Hh, !app_nil_r. done. }
  simpl. unfold split_step at 2 4. rewrite Hb, Hs.
  destruct (is_indented ln) eqn:Ei.
  - split.
    + intros Hh. rewrite Hh.
      destruct (IH {| blocks := blocks st ++ [([], [Py.strip ln])]; cur_header := None;
                      cur_cont := cur_cont st |}) as [IH1 _].
      destruct (IH1 eq_refl) as (strays & groups & -> & Hst & Hg & ->).
      exists (ln :: strays), groups. split_and!; [done|by constructor|done|].
      simpl. by rewrite <- app_assoc.
    + intros h Hh. rewrite Hh.
      destruct (IH {| blocks := blocks st; cur_header := Some h;
                      cur_cont := cur_cont st ++ [Py.strip ln] |}) as [_ IH2].
      destruct (IH2 h eq_refl) as (conts & groups & -> & Hc & Hg & ->).
      exists (ln :: conts), groups. split_and!; [done|by constructor|done|].
      simpl. by rewrite <- app_assoc.
  - destruct (IH {| blocks := flush st; cur_header := Some (Py.strip ln); cur_cont := [] |})
      as [_ IH2].
    destruct (IH2 (Py.strip ln) eq_refl) as (conts & groups & -> & Hc & Hg & ->).
    simpl. split.
    + intros Hh. exists [], ((ln, conts) :: groups).
      split_and!; [done|done|by constructor|]. unfold flush. by rewrite Hh.
    + intros h Hh. exists [], ((ln, conts) :: groups).
      split_and!; [done|done|by constructor|]. unfold flush. rewrite Hh. simpl.
      by rewrite app_nil_r, <- app_assoc.
Qed.

End Grouping.

(** [split_blocks] as a whole.  The lines it keeps (neither blank nor a
    "State " row) are, in order, some indented lines that come before any
    header, then groups of one non-indented line with the indented lines
    under it; the result is one block with an empty header and a single
    entry for each of the former, then one block for each group, holding the
    stripped header line and the stripped continuation lines, in the order of
    the text.  So no kept line is lost or repeated, and a block without a
    header can only stand before the first header. *)
Theorem split_blocks_groups (ss_output : str) :
  exists strays groups,
    filter kept (Parser.input_lines ss_output) = strays ++ concat (map group_lines groups)
    /\ Forall (fun ln => Parser.is_indented ln = true) strays
    /\ Forall is_group groups
    /\ Parser.split_blocks ss_output
       = map stray_block strays ++ map group_block groups.
Proof.
  unfold Parser.split_blocks, Parser.split_lines.
  rewrite <- fold_split_filter.
  assert (Hk : Forall kept (filter kept (Parser.input_lines ss_output))).
  { apply Forall_forall. intros ln Hln. by apply list_elem_of_filter in Hln as [? _]. }
  destruct (fold_split_groups _ Hk Parser.split_init) as [H _].
  destruct (H eq_refl) as (strays & groups & Hl & Hs & Hg & Hf).
  exists strays, groups. by split_and!.
Qed.

(** ** The rules of [coerce_value] *)

Section CoercionRules.
Import Parser.



(** What [$] lets through: the text, or the text and a final newline. *)
Lemma chomp_cases (s : str) : Re.chomp s = s \/ s = Re.chomp s ++ [Py.LF].
Proof.
  unfold Re.chomp. destruct (rev s) as [|c r] eqn:E; [by left|].
  destruct (Py.chr_eqb c Py.LF) eqn:Ec; [|by left]. right.
  apply chr_eqb_eq in Ec as ->. apply (f_equal (@rev ascii)) in E.
  rewrite rev_involutive in E. by rewrite E.
Qed.


Lemma int_literal_float (s : str) : Re.int_literal s = true -> Re.float_literal s = true.
Proof.
  unfold Re.int_literal, Re.float_literal, Re.float_unsigned. intros H.
  assert (Py.split1 "." (Re.drop_sign s) = None) as ->; [|done].
  apply split1_None, has_chr_false. unfold Re.digits1 in H.
  apply andb_true_iff in H as [_ H]. eapply forallb_impl; [|exact H].
  intros c. each_char c.
Qed.

Lemma int_literal_no_point (s : str) : Re.int_literal s = true -> Py.has_chr "." s = false.
Proof.
  unfold Re.int_literal, Re.digits1, Re.drop_sign. rewrite andb_true_iff. intros [_ H].
  assert (Hd : forall t, forallb Py.isdecimal t = true -> Py.has_chr "." t = false).
  { intros t Ht. apply has_chr_false. eapply forallb_impl; [|exact Ht]. intros c. each_char c. }
  destruct s as [|c r]; [done|].
  destruct (Py.chr_eqb c "+" || Py.chr_eqb c "-") eqn:E.
  - simpl. rewrite (Hd r H), orb_false_r.
    apply orb_true_iff in E as [E|E]; apply chr_eqb_eq in E as ->; reflexivity.
  - by apply Hd.
Qed.

Lemma RE_INT_FLOAT (s : str) : Re.RE_INT s = true -> Re.RE_FLOAT s = true.
Proof. apply int_literal_float. Qed.



Lemma float_unsigned_numchars (t : str) :
  Re.float_unsigned t = true -> forallb Re.isnumchar t = true.
Proof.
  unfold Re.float_unsigned, Re.isnumchar.
  assert (Hd : forall a, forallb Py.isdecimal a = true ->
                 forallb (fun c => Py.isdecimal c || Py.chr_eqb c ".") a = true).
  { intros a. apply forallb_impl. by intros c ->. }
  destruct (Py.split1 "." t) as [[a b]|] eqn:E.
  - apply split1_Some in E as [-> _]. rewrite !andb_true_iff. intros [[Ha Hb] _].
    rewrite forallb_app. simpl. by rewrite (Hd a Ha), (Hd b Hb).
  - unfold Re.digits1. rewrite andb_true_iff. intros [_ H]. by apply Hd.
Qed.

(** The number of [RE_NUM_UNIT] is a numeric literal. *)
Lemma RE_NUM_UNIT_literal (s num unit_ : str) :
  Re.RE_NUM_UNIT s = Some (num, unit_) -> Re.float_literal num = true.
Proof.
  unfold Re.RE_NUM_UNIT. set (s' := Re.chomp s).
  destruct (Re.float_unsigned _ && _ && _) eqn:E; [|done]. intros [= <- <-].
  apply andb_true_iff in E as [E _]. apply andb_true_iff in E as [E _].
  unfold Re.float_literal. unfold Re.drop_sign in *. destruct s' as [|c r]; [done|].
  destruct (Py.chr_eqb c "+" || Py.chr_eqb c "-") eqn:Ec.
  - simpl length. replace (S (length r) - length r) with 1 by lia. simpl. by rewrite Ec.
  - rewrite Nat.sub_diag. simpl take. rewrite app_nil_l.
    destruct (Py.take_while Re.isnumchar (c :: r)) as [|c' r'] eqn:Et; [done|].
    assert (c' = c) as ->.
    { simpl in Et. destruct (Re.isnumchar c); [|done]. by injection Et as <-. }
    by rewrite Ec.
Qed.




End CoercionRules.

Section LiteralRules.
Import Parser.

Lemma isunit_plain c : Re.isunit c = true -> isnumish c = false /\ Py.isspace c = false
  /\ Py.chr_eqb "," c = false /\ Py.chr_eqb c Py.LF = false /\ Re.isnumchar c = false.
Proof. each_char c. Qed.

Lemma isnumish_facts c : isnumish c = true ->
  Py.isspace c = false /\ Py.chr_eqb "," c = false /\ Py.chr_eqb c Py.LF = false
  /\ Py.chr_eqb "/" c = false /\ Py.chr_eqb c "/" = false.
Proof. each_char c. Qed.

Lemma forallb_false_at (p : ascii -> bool) (a : str) c (b : str) :
  p c = false -> forallb p (a ++ c :: b) = false.
Proof. intros Hc. rewrite forallb_app. simpl. rewrite Hc. by rewrite andb_false_r. Qed.

(** A literal is its own normal form, and neither the pair rule nor the
    comma rule applies to it. *)
Lemma literal_normal_form (s : str) :
  Re.float_literal s = true ->
  Py.strip_chr "," (Py.strip s) = s /\ nonempty s = true /\ pair_sides s = None
  /\ Py.has_chr "," s = false /\ Re.chomp s = s.
Proof.
  intros H. pose proof (float_literal_plain _ H) as [Hne Hp].
  apply isplain_parts in Hp as (H1 & H2 & H3 & H4). split_and!.
  - by rewrite strip_keeps, strip_chr_keeps.
  - by destruct s.
  - unfold pair_sides. assert (Py.has_chr "/" s = false) as ->; [|done].
    apply has_chr_false. eapply forallb_impl; [|exact H3]. intros c.
    by rewrite chr_eqb_sym.
  - by apply has_chr_false.
  - by apply chomp_keeps.
Qed.

(** A numeric literal (an optional sign, digits, at most one decimal point)
    is coerced to a number: a float when it holds a decimal point, an int
    otherwise. *)
Theorem coerce_value_number (s : str) :
  Re.float_literal s = true ->
  exists x, coerce_value s = Ok x /\ is_number_of s x.
Proof.
  intros H. destruct (literal_normal_form s H) as (Hn & Hne & Hp & Hc & Hch).
  unfold coerce_value. rewrite Hn, Hne, Hp, Hc. simpl.
  unfold Re.RE_INT, Re.RE_FLOAT. rewrite Hch, H. unfold is_number_of.
  destruct (Re.int_literal s) eqn:Ei.
  - rewrite (int_literal_no_point s Ei).
    destruct (int_of_literal s H (int_literal_no_point s Ei)) as [z Hz].
    rewrite Hz. simpl. eauto.
  - assert (Hdot : Py.has_chr "." s = true).
    { destruct (Py.has_chr "." s) eqn:E; [done|]. exfalso.
      unfold Re.int_literal, Re.float_literal, Re.float_unsigned in *.
      assert (Hd : Py.has_chr "." (Re.drop_sign s) = false).
      { unfold Re.drop_sign. destruct s as [|c r]; [done|].
        destruct (_ || _); [|done]. simpl in E. by apply orb_false_iff in E as [_ ?]. }
      apply split1_None in Hd. rewrite Hd in H. congruence. }
    rewrite Hdot. exists (VFloat s). split; [|done]. unfold float.
    rewrite strip_keeps; [done|]. apply float_literal_plain in H as [_ H].
    by apply isplain_parts in H as (? & _).
Qed.

Lemma drop_sign_app (num unit_ : str) :
  Re.float_literal num = true ->
  Re.drop_sign (num ++ unit_) = Re.drop_sign num ++ unit_
  /\ take (length (num ++ unit_) - length (Re.drop_sign num ++ unit_)) (num ++ unit_)
       ++ Re.drop_sign num = num.
Proof.
  intros H. apply float_literal_chars in H as [Hne _].
  unfold Re.drop_sign. destruct num as [|c r]; [done|]. simpl.
  destruct (Py.chr_eqb c "+" || Py.chr_eqb c "-").
  - split; [done|]. replace (S (length (r ++ unit_)) - length (r ++ unit_)) with 1 by lia.
    done.
  - split; [done|]. simpl. by rewrite Nat.sub_diag.
Qed.

(** A numeric literal followed by a unit (letters, percent signs, slashes,
    at least one) is coerced to the quantity of the number and the unit,
    whatever the unit is: the pair rule does not take a unit such as [B/s]
    for a pair. *)
Theorem coerce_value_quantity (num unit_ : str) :
  Re.float_literal num = true ->
  unit_ <> [] -> forallb Re.isunit unit_ = true ->
  exists x,
    coerce_value (num ++ unit_)
    = Ok (VDict [("value" : str, x); ("unit" : str, VStr unit_)])
    /\ is_number_of num x.
Proof.
  intros Hnum Hne Hu.
  pose proof (float_literal_chars _ Hnum) as [Hnne Hnch].
  destruct unit_ as [|u0 us]; [done|].
  assert (Hu0 : Re.isunit u0 = true).
  { simpl in Hu. by apply andb_true_iff in Hu as [? _]. }
  set (unit_ := u0 :: us) in *. set (s := num ++ unit_).
  assert (Hsp : forallb (fun c => negb (Py.isspace c)) s = true).
  { unfold s. rewrite forallb_app. apply andb_true_iff. split.
    - eapply forallb_impl; [|exact Hnch]. intros c Hc.
      apply isnumish_facts in Hc as (-> & _). done.
    - eapply forallb_impl; [|exact Hu]. intros c Hc.
      apply isunit_plain in Hc as (_ & -> & _). done. }
  assert (Hco : forallb (fun c => negb (Py.chr_eqb "," c)) s = true).
  { unfold s. rewrite forallb_app. apply andb_true_iff. split.
    - eapply forallb_impl; [|exact Hnch]. intros c Hc.
      apply isnumish_facts in Hc as (_ & -> & _). done.
    - eapply forallb_impl; [|exact Hu]. intros c Hc.
      apply isunit_plain in Hc as (_ & _ & -> & _). done. }
  assert (Hlf : forallb (fun c => negb (Py.chr_eqb c Py.LF)) s = true).
  { unfold s. rewrite forallb_app. apply andb_true_iff. split.
    - eapply forallb_impl; [|exact Hnch]. intros c Hc.
      apply isnumish_facts in Hc as (_ & _ & -> & _). done.
    - eapply forallb_impl; [|exact Hu]. intros c Hc.
      apply isunit_plain in Hc as (_ & _ & _ & -> & _). done. }
  assert (Hnotlit : forall t, forallb Re.isunit t = true -> t <> [] ->
                      Re.float_literal t = false).
  { intros t Ht Htne. destruct (Re.float_literal t) eqn:E; [|done].
    apply float_literal_chars in E as [_ E]. destruct t as [|c t]; [done|].
    simpl in *. apply andb_true_iff in Ht as [Ht _]. apply andb_true_iff in E as [E _].
    apply isunit_plain in Ht as (Ht & _). congruence. }
  assert (Hs_notlit : Re.float_literal s = false).
  { destruct (Re.float_literal s) eqn:E; [|done].
    apply float_literal_chars in E as [_ E]. unfold s, unit_ in E.
    rewrite forallb_false_at in E; [done|]. by apply isunit_plain in Hu0 as (? & _). }
  assert (Hpair : pair_sides s = None).
  { unfold pair_sides.
    destruct (Py.has_chr "/" s && negb (Py.startswith "/" s) && negb (Py.endswith "/" s))
      eqn:Eg; [|done].
    apply andb_true_iff in Eg as [Eg Hend]. apply negb_true_iff in Hend.
    destruct (Py.split1 "/" s) as [[l r]|] eqn:Es; [|done].
    apply split1_Some in Es as [Hs Hl].
    assert (Hr : exists u1, unit_ = u1 ++ "/"%char :: r).
    { assert (Hnum_no : Py.has_chr "/" num = false).
      { apply has_chr_false. eapply forallb_impl; [|exact Hnch]. intros c Hc.
        apply isnumish_facts in Hc as (_ & _ & _ & -> & _). done. }
      clear -Hs Hl Hnum_no. unfold s in Hs. revert l Hs Hl.
      induction num as [|c num IH]; intros l Hs Hl.
      - exists l. done.
      - simpl in Hnum_no. apply orb_false_iff in Hnum_no as [Hc Hn].
        destruct l as [|c' l].
        + simpl in Hs. injection Hs as -> _. by rewrite chr_eqb_refl in Hc.
        + simpl in Hs. injection Hs as -> Hs. simpl in Hl.
          apply orb_false_iff in Hl as [_ Hl]. by apply (IH Hn l). }
    destruct Hr as [u1 Hr].
    assert (Hru : forallb Re.isunit r = true).
    { rewrite Hr in Hu. rewrite forallb_app in Hu.
      apply andb_true_iff in Hu as [_ Hu]. exact Hu. }
    assert (Hrne : r <> []).
    { intros ->. unfold Py.endswith in Hend. rewrite Hs, rev_app_distr in Hend.
      simpl in Hend. discriminate Hend. }
    assert (Py.strip r = r) as ->.
    { apply strip_keeps. eapply forallb_impl; [|exact Hru]. intros c Hc.
      apply isunit_plain in Hc as (_ & -> & _). done. }
    assert (Re.RE_FLOAT r = false) as ->; [|by rewrite andb_false_r].
    unfold Re.RE_FLOAT. rewrite chomp_keeps; [by apply Hnotlit|].
    eapply forallb_impl; [|exact Hru]. intros c Hc.
    apply isunit_plain in Hc as (_ & _ & _ & -> & _). done. }
  destruct (number_of_literal num Hnum) as (x & Hx & Hxn). exists x. split; [|done].
  unfold coerce_value. fold s. rewrite (strip_keeps s Hsp), (strip_chr_keeps _ s Hco).
  assert (nonempty s = true) as -> by (unfold s; by destruct num).
  simpl. rewrite Hpair.
  assert (Py.has_chr "," s = false) as -> by (by apply has_chr_false).
  simpl. unfold Re.RE_INT, Re.RE_FLOAT, Re.RE_NUM_UNIT. rewrite (chomp_keeps s Hlf).
  assert (Re.int_literal s = false) as ->.
  { destruct (Re.int_literal s) eqn:E; [|done]. apply int_literal_float in E. congruence. }
  rewrite Hs_notlit.
  destruct (drop_sign_app num unit_ Hnum) as [Hd Hsign]. fold s in Hd, Hsign.
  rewrite Hd. 
  assert (Hnc : forallb Re.isnumchar (Re.drop_sign num) = true).
  { apply float_unsigned_numchars. exact Hnum. }
  assert (Hu0n : Re.isnumchar u0 = false) by (by apply isunit_plain in Hu0 as (_ & _ & _ & _ & ?)).
  unfold unit_. rewrite take_while_app_stop, !drop_while_app_stop by done.
  fold unit_.
  change (Re.float_unsigned (Re.drop_sign num)) with (Re.float_literal num).
  rewrite Hnum, Hu. assert (nonempty unit_ = true) as -> by done.
  simpl. rewrite Hsign, Hx. done.
Qed.

End LiteralRules.

Section ListRule.
Import Parser.

Lemma split_chr_from_plain sep (cur p : str) :
  Py.has_chr sep p = false -> Py.split_chr_from sep cur p = [cur ++ p].
Proof.
  revert cur. induction p as [|c p IH]; intros cur; simpl.
  - by rewrite app_nil_r.
  - rewrite orb_false_iff. intros [Hc Hp]. rewrite chr_eqb_sym, Hc, IH by done.
    by rewrite <- app_assoc.
Qed.

Lemma split_chr_from_app sep (cur p rest : str) :
  Py.has_chr sep p = false ->
  Py.split_chr_from sep cur (p ++ sep :: rest)
  = (cur ++ p) :: Py.split_chr_from sep [] rest.
Proof.
  revert cur. induction p as [|c p IH]; intros cur; simpl.
  - by rewrite chr_eqb_refl, app_nil_r.
  - rewrite orb_false_iff. intros [Hc Hp]. rewrite chr_eqb_sym, Hc, IH by done.
    by rewrite <- app_assoc.
Qed.

(** [",".join(parts).split(",")] gives the parts back. *)
Lemma split_chr_join sep (parts : list str) :
  parts <> [] -> Forall (fun p => Py.has_chr sep p = false) parts ->
  Py.split_chr sep (Py.join [sep] parts) = parts.
Proof.
  unfold Py.split_chr. induction parts as [|p parts IH]; [done|]. intros _ Hp.
  apply Forall_cons in Hp as [Hp Hps]. destruct parts as [|q parts].
  - simpl. by rewrite split_chr_from_plain.
  - change (Py.join [sep] (p :: q :: parts)) with (p ++ sep :: Py.join [sep] (q :: parts)).
    rewrite split_chr_from_app by done. by rewrite IH.
Qed.

Lemma join_chars (p : ascii -> bool) sep (parts : list str) :
  p sep = true -> Forall (fun x => forallb p x = true) parts ->
  forallb p (Py.join [sep] parts) = true.
Proof.
  intros Hsep. induction parts as [|x parts IH]; [done|]. intros Hx.
  apply Forall_cons in Hx as [Hx Hxs]. destruct parts as [|y parts]; [done|].
  change (Py.join [sep] (x :: y :: parts)) with (x ++ sep :: Py.join [sep] (y :: parts)).
  rewrite forallb_app, Hx. cbn [forallb andb]. rewrite Hsep. by apply IH.
Qed.

Lemma join_head sep (x : str) (parts : list str) c r :
  x = c :: r -> exists r', Py.join [sep] (x :: parts) = c :: r'.
Proof. intros ->. destruct parts; simpl; eauto. Qed.

Lemma join_snoc sep (parts : list str) (x : str) :
  exists pre, Py.join [sep] (parts ++ [x]) = pre ++ x.
Proof.
  induction parts as [|y parts [pre IH]]; simpl.
  - by exists [].
  - destruct (parts ++ [x]) as [|z l] eqn:E; [by destruct parts|].
    exists (y ++ sep :: pre). rewrite IH. by rewrite <- app_assoc.
Qed.

Lemma join_last sep (parts : list str) (x : str) c r :
  rev x = c :: r -> exists r', rev (Py.join [sep] (parts ++ [x])) = c :: r'.
Proof.
  intros Hx. destruct (join_snoc sep parts x) as [pre ->].
  rewrite rev_app_distr, Hx. simpl. eauto.
Qed.

Lemma mapM_number_literals (parts : list str) :
  Forall (fun p => Re.float_literal p = true) parts ->
  exists xs, mapM number parts = Ok xs /\ Forall2 is_number_of parts xs.
Proof.
  induction 1 as [|p parts Hp _ IH]; simpl; [by exists []|].
  destruct (number_of_literal p Hp) as (x & -> & Hx). destruct IH as (xs & -> & Hxs).
  simpl. exists (x :: xs). split; [done|]. by constructor.
Qed.

(** Two or more numeric literals joined by commas are coerced to the list
    of their numbers, in order. *)
Theorem coerce_value_number_list (parts : list str) :
  2 <= length parts ->
  Forall (fun p => Re.float_literal p = true) parts ->
  exists xs,
    coerce_value (Py.join "," parts) = Ok (VList xs) /\ Forall2 is_number_of parts xs.
Proof.
  intros Hlen Hlit. change (s_ ",") with [","%char]. set (s := Py.join [","%char] parts).
  assert (Hparts : Forall (fun p => forallb isnumish p = true /\ p <> []) parts).
  { eapply Forall_impl; [exact Hlit|]. intros p Hp. simpl.
    by apply float_literal_chars in Hp as [? ?]. }
  pose (ok := fun c => isnumish c || Py.chr_eqb "," c).
  assert (Hok : forallb ok s = true).
  { apply (join_chars ok "," parts); [done|]. eapply Forall_impl; [exact Hparts|].
    intros p [Hp _]. simpl. eapply forallb_impl; [|exact Hp]. unfold ok. by intros c ->. }
  assert (Hsp : forallb (fun c => negb (Py.isspace c)) s = true).
  { eapply forallb_impl; [|exact Hok]. intros c. unfold ok. each_char c. }
  assert (Hnoc : Forall (fun p => Py.has_chr "," p = false) parts).
  { eapply Forall_impl; [exact Hparts|]. intros p [Hp _]. simpl. apply has_chr_false.
    eapply forallb_impl; [|exact Hp]. intros c Hc.
    apply isnumish_facts in Hc as (_ & -> & _). done. }
  assert (Hhead : Py.drop_while (Py.chr_eqb ",") s = s).
  { apply drop_while_fixed. unfold s. clear s Hok Hsp.
    destruct parts as [|p0 parts0]; [simpl in Hlen; lia|].
    apply Forall_cons in Hparts as [[Hp0 Hne0] _].
    destruct p0 as [|c r]; [done|].
    destruct (join_head "," (c :: r) parts0 c r eq_refl) as [r' ->]. simpl in Hp0.
    apply andb_true_iff in Hp0 as [Hc _]. by apply isnumish_facts in Hc as (_ & ? & _). }
  assert (Hlast : Py.drop_while (Py.chr_eqb ",") (rev s) = rev s).
  { apply drop_while_fixed. unfold s. clear s Hok Hsp Hhead.
    destruct (exists_last (l := parts)) as (front & x & ->).
    { intros ->. simpl in Hlen. lia. }
    apply Forall_app in Hparts as [_ Hx]. apply Forall_cons in Hx as [[Hx Hxne] _].
    destruct (rev x) as [|c r] eqn:Erx.
    { apply (f_equal (@rev ascii)) in Erx. rewrite rev_involutive in Erx. done. }
    destruct (join_last "," front x c r Erx) as [r' ->].
    assert (Hc : isnumish c = true).
    { rewrite <- forallb_rev, Erx in Hx. simpl in Hx. by apply andb_true_iff in Hx as [? _]. }
    by apply isnumish_facts in Hc as (_ & ? & _). }
  assert (Hstrip : Py.strip_chr "," s = s).
  { unfold Py.strip_chr, Py.rstrip_chr. by rewrite Hhead, Hlast, rev_involutive. }
  assert (Hpair : pair_sides s = None).
  { unfold pair_sides. assert (Py.has_chr "/" s = false) as ->; [|done].
    apply has_chr_false. eapply forallb_impl; [|exact Hok]. intros c. unfold ok.
    each_char c. }
  assert (Hcomma : Py.has_chr "," s = true).
  { destruct parts as [|p0 [|p1 parts0]]; [simpl in Hlen; lia|simpl in Hlen; lia|].
    unfold s. change (Py.join [","%char] (p0 :: p1 :: parts0))
      with (p0 ++ ","%char :: Py.join [","%char] (p1 :: parts0)).
    unfold Py.has_chr. rewrite existsb_app. simpl. by rewrite orb_true_r. }
  assert (Hbr : has_bracket s = false).
  { unfold has_bracket. simpl.
    assert (Hno : forall ch, ok ch = false -> Py.has_chr ch s = false).
    { intros ch Hch. apply has_chr_false. eapply forallb_impl; [|exact Hok].
      intros c Hc. apply negb_true_iff. destruct (Py.chr_eqb ch c) eqn:E; [|done].
      apply chr_eqb_eq in E as ->. congruence. }
    by rewrite !Hno. }
  assert (Hcp : comma_parts s = parts).
  { unfold comma_parts, s. rewrite (split_chr_join "," parts);
      [|by destruct parts; [simpl in Hlen; lia|]|done].
    clear -Hparts. induction Hparts as [|p parts [Hp Hne] _ IH]; [done|].
    simpl. rewrite filter_cons. rewrite strip_keeps.
    - destruct p; [done|]. simpl. by rewrite IH.
    - eapply forallb_impl; [|exact Hp]. intros c Hc.
      apply isnumish_facts in Hc as (-> & _). done. }
  destruct (mapM_number_literals parts Hlit) as (xs & Hxs & Hnum). exists xs.
  split; [|done]. unfold coerce_value. fold s. rewrite (strip_keeps s Hsp), Hstrip.
  assert (nonempty s = true) as ->.
  { destruct s; [done|done]. }
  simpl. rewrite Hpair, Hcomma, Hbr, Hcp. simpl.
  assert (nonempty parts = true) as -> by (destruct parts; [simpl in Hlen; lia|done]).
  assert (forallb Re.RE_FLOAT parts = true) as ->.
  { clear -Hlit. induction Hlit as [|p parts Hp _ IH]; [done|].
    simpl. by rewrite (RE_FLOAT_literal p Hp), IH. }
  simpl. by rewrite Hxs.
Qed.

End ListRule.

(** ** Endpoints and header rows *)

Section EndpointErrors.
Import Parser.





End EndpointErrors.

Section Headers.
Import Parser.


Lemma run1_app (p : ascii -> bool) (a : str) c r :
  a <> [] -> forallb p a = true -> p c = false -> Re.run1 p (a ++ c :: r) = Some (a, c :: r).
Proof.
  intros Hne Ha Hc. unfold Re.run1.
  rewrite take_while_app_stop, drop_while_app_stop by done. by destruct a.
Qed.

Lemma run1_all (p : ascii -> bool) (a : str) :
  a <> [] -> forallb p a = true -> Re.run1 p a = Some (a, []).
Proof.
  intros Hne Ha. unfold Re.run1. rewrite take_while_all_id, drop_while_all by done.
  by destruct a.
Qed.


End Headers.

Section HeaderRows.
Import Parser.

Lemma lstrip_idem (s : str) : Py.lstrip (Py.lstrip s) = Py.lstrip s.
Proof. apply drop_while_fixed, drop_while_head_ok. Qed.

Lemma strip_lstrip (s : str) : Py.strip (Py.lstrip s) = Py.strip s.
Proof. unfold Py.strip. by rewrite lstrip_idem. Qed.

Lemma gap_head (w : str) : is_gap w -> exists c r, w = c :: r /\ Py.isspace c = true.
Proof.
  intros [Hne Hw]. destruct w as [|c r]; [done|]. exists c, r. split; [done|].
  simpl in Hw. by apply andb_true_iff in Hw as [? _].
Qed.

Lemma run1_field_gap (x w rest : str) :
  is_field x -> is_gap w -> Re.run1 Re.nonspace (x ++ w ++ rest) = Some (x, w ++ rest).
Proof.
  intros [Hne Hx] Hw. destruct (gap_head w Hw) as (c & r & -> & Hc).
  rewrite <- !app_comm_cons. apply run1_app; [done|done|]. unfold Re.nonspace. by rewrite Hc.
Qed.

Lemma run1_digits_gap (x w rest : str) :
  Re.digits1 x = true -> is_gap w ->
  Re.run1 Py.isdecimal (x ++ w ++ rest) = Some (x, w ++ rest).
Proof.
  unfold Re.digits1. rewrite andb_true_iff. intros [Hne Hx] Hw.
  destruct (gap_head w Hw) as (c & r & -> & Hc).
  rewrite <- !app_comm_cons. apply run1_app; [by destruct x|done|].
  revert Hc. clear. each_char c.
Qed.

Lemma run1_gap_field (w x rest : str) :
  is_gap w -> (exists c r, x = c :: r /\ Py.isspace c = false) ->
  Re.run1 Py.isspace (w ++ x ++ rest) = Some (w, x ++ rest).
Proof.
  intros [Hne Hw] (c & r & -> & Hc). rewrite <- !app_comm_cons. by apply run1_app.
Qed.

Lemma field_head (x : str) : is_field x -> exists c r, x = c :: r /\ Py.isspace c = false.
Proof.
  intros [Hne Hx]. destruct x as [|c r]; [done|]. exists c, r. split; [done|].
  simpl in Hx. apply andb_true_iff in Hx as [Hc _]. by apply negb_true_iff in Hc.
Qed.

Lemma digits_head (x : str) :
  Re.digits1 x = true -> exists c r, x = c :: r /\ Py.isspace c = false.
Proof.
  unfold Re.digits1. rewrite andb_true_iff. intros [Hne Hx].
  destruct x as [|c r]; [done|]. exists c, r. split; [done|].
  simpl in Hx. apply andb_true_iff in Hx as [Hc _]. revert Hc. clear. each_char c.
Qed.

(** [RE_HEADER] on a header row. *)
Lemma RE_HEADER_fields (f : header_fields) (h : str) :
  header_of f h ->
  exists proc,
    Re.RE_HEADER h
    = Some {| Re.h_state := f_state f; Re.h_recvq := f_recvq f; Re.h_sendq := f_sendq f;
              Re.h_local := f_local f; Re.h_peer := f_peer f; Re.h_proc := proc |}
    /\ Py.strip (default [] proc) = Py.strip (f_tail f).
Proof.
  intros (w1 & w2 & w3 & w4 & -> & H1 & H2 & H3 & H4 & Hst & Hrq & Hsq & Hlo & Hpe & Hta).
  unfold Re.RE_HEADER.
  rewrite (run1_field_gap _ w1 _ Hst H1). simpl mbind.
  rewrite (run1_gap_field w1 _ _ H1 (digits_head _ Hrq)). simpl mbind.
  rewrite (run1_digits_gap _ w2 _ Hrq H2). simpl mbind.
  rewrite (run1_gap_field w2 _ _ H2 (digits_head _ Hsq)). simpl mbind.
  rewrite (run1_digits_gap _ w3 _ Hsq H3). simpl mbind.
  rewrite (run1_gap_field w3 _ _ H3 (field_head _ Hlo)). simpl mbind.
  rewrite (run1_field_gap _ w4 _ Hlo H4). simpl mbind.
  rewrite (run1_gap_field w4 _ _ H4 (field_head _ Hpe)). simpl mbind.
  destruct Hta as [Ht|[Hind Hlf]].
  - rewrite Ht, app_nil_r. destruct Hpe as [Hne Hp]. rewrite (run1_all _ _ Hne Hp).
    simpl mbind. cbv beta iota. exists None. by split.
  - destruct (f_tail f) as [|c t] eqn:Et; [done|]. simpl in Hind.
    destruct Hpe as [Hne Hp]. rewrite run1_app; [|done|done|by unfold Re.nonspace; rewrite Hind].
    simpl mbind. cbv beta iota.
    assert (Hkeep : Re.chomp (Py.drop_while Py.isspace (c :: t))
                    = Py.lstrip (c :: t) /\ Py.has_chr Py.LF (Py.lstrip (c :: t)) = false).
    { assert (Hno : forallb (fun x => negb (Py.chr_eqb x Py.LF)) (Py.lstrip (c :: t)) = true).
      { apply has_chr_false in Hlf. destruct (drop_while_suffix Py.isspace (c :: t)) as [k Hk].
        fold (Py.lstrip (c :: t)) in Hk. rewrite Hk, forallb_app in Hlf.
        apply andb_true_iff in Hlf as [_ Hlf]. eapply forallb_impl; [|exact Hlf].
        intros x. by rewrite chr_eqb_sym. }
      split; [by apply chomp_keeps|]. apply has_chr_false.
      eapply forallb_impl; [|exact Hno]. intros x. by rewrite chr_eqb_sym. }
    change (if Py.isspace c then Py.drop_while Py.isspace t else c :: t)
      with (Py.drop_while Py.isspace (c :: t)).
    destruct Hkeep as [-> ->]. eexists. split; [reflexivity|]. simpl. apply strip_lstrip.
Qed.

(** A header row made of a state, two queue lengths in decimal digits, a
    local and a peer endpoint, separated by whitespace and followed by
    nothing or by whitespace and a process text, gives the record with these
    fields: the queues as integers, the endpoints as [parse_ip_port] reads
    them, the stripped process text, the metrics of the continuation lines,
    and the header and the continuation lines as they were. *)
Theorem parse_block_header_row (f : header_fields) (h : str) (cont : list str)
    (l p : value) (m : dict) :
  header_of f h ->
  parse_ip_port (f_local f) = Ok l ->
  parse_ip_port (f_peer f) = Ok p ->
  parse_metrics cont = Ok m ->
  parse_block h cont
  = Ok (VDict [("state" : str, VStr (f_state f));
               ("recv_q" : str, VInt (digits_val (f_recvq f)));
               ("send_q" : str, VInt (digits_val (f_sendq f)));
               ("local" : str, l);
               ("peer" : str, p);
               ("process" : str, VStr (Py.strip (f_tail f)));
               ("header_raw" : str, VStr h);
               ("metrics" : str, VDict m);
               ("cont_lines_raw" : str, VList (map VStr cont))]).
Proof.
  intros Hh Hl Hp Hm. pose proof Hh as (_ & _ & _ & _ & _ & _ & _ & _ & _ & _ & Hrq & Hsq & _).
  destruct (RE_HEADER_fields f h Hh) as (proc & Hre & Hproc).
  unfold parse_block. rewrite Hre. simpl.
  rewrite (int_digits _ Hrq), (int_digits _ Hsq), Hl, Hp, Hm. simpl. by rewrite Hproc.
Qed.

End HeaderRows.

(** ** Exceptions of the parser *)

Section MetricsErrors.
Import Parser.















End MetricsErrors.

Section OutputErrors.
Import Parser.



Lemma parse_blocks_Ok bs :
  Forall (fun b => fst b <> [] -> exists rec, parse_block (fst b) (snd b) = Ok rec) bs ->
  forall acc, exists sockets, parse_blocks bs acc = Ok sockets.
Proof.
  induction 1 as [|[h c] bs Hb _ IH]; intros acc; simpl; [eauto|].
  destruct h as [|x h]; simpl; [apply IH|].
  destruct Hb as [rec Hrec]; [done|]. simpl in Hrec. rewrite Hrec. simpl. apply IH.
Qed.

End OutputErrors.

(** ** The token loop *)

Section TokenLoop.
Import Parser.

Lemma isident_start_facts c :
  Py.isident_start c = true ->
  Py.isdecimal c = false /\ Py.chr_eqb c "+" = false /\ Py.chr_eqb c "-" = false
  /\ Py.chr_eqb c "." = false /\ Py.chr_eqb c ":" = false.
Proof. each_char c. Qed.

Lemma isword_not_colon c : Py.isword c = true -> negb (Py.chr_eqb ":" c) = true.
Proof. each_char c. Qed.

Lemma has_chr_chomp x (s : str) :
  Py.chr_eqb x Py.LF = false -> Py.has_chr x s = Py.has_chr x (Re.chomp s).
Proof.
  intros Hx. destruct (chomp_cases s) as [->|Hs]; [done|]. rewrite Hs at 1.
  unfold Py.has_chr. rewrite existsb_app. simpl. by rewrite Hx, !orb_false_r.
Qed.

Lemma identifier_no_colon (t : str) : Re.RE_IDENTIFIER t = true -> Py.split1 ":" t = None.
Proof.
  intros H. apply split1_None. rewrite (has_chr_chomp ":" t eq_refl).
  unfold Re.RE_IDENTIFIER in H. destruct (Re.chomp t) as [|c r]; [done|].
  apply andb_true_iff in H as [Hc Hr]. apply has_chr_false. simpl.
  apply andb_true_iff. split.
  - apply isident_start_facts in Hc as (_ & _ & _ & _ & Hc). by rewrite chr_eqb_sym, Hc.
  - eapply forallb_impl; [|exact Hr]. apply isword_not_colon.
Qed.

Lemma float_literal_head (s : str) :
  Re.float_literal s = true ->
  exists c r, s = c :: r /\ Py.isident_start c = false.
Proof.
  intros H. apply float_literal_chars in H as [Hne H]. destruct s as [|c r]; [done|].
  exists c, r. split; [done|]. simpl in H. apply andb_true_iff in H as [Hc _].
  revert Hc. clear. each_char c.
Qed.

(** An identifier does not look like a value. *)
Lemma identifier_not_value (t : str) :
  Re.RE_IDENTIFIER t = true -> looks_like_value t = false.
Proof.
  intros H. unfold Re.RE_IDENTIFIER in H. destruct (Re.chomp t) as [|c r] eqn:E; [done|].
  apply andb_true_iff in H as [Hc _].
  assert (Hf : Re.RE_FLOAT t = false).
  { unfold Re.RE_FLOAT. rewrite E. destruct (Re.float_literal (c :: r)) eqn:Ef; [|done].
    apply float_literal_head in Ef as (c' & r' & [= <- <-] & Hc'). congruence. }
  assert (Hi : Re.RE_INT t = false).
  { destruct (Re.RE_INT t) eqn:Ei; [|done]. apply RE_INT_FLOAT in Ei. congruence. }
  assert (Hu : Re.RE_NUM_UNIT t = None).
  { destruct (Re.RE_NUM_UNIT t) as [[num unit_]|] eqn:Eu; [|done].
    pose proof (RE_NUM_UNIT_literal _ _ _ Eu) as Hl.
    apply float_literal_head in Hl as (c' & r' & Hnum & Hc').
    unfold Re.RE_NUM_UNIT in Eu. rewrite E in Eu.
    destruct (_ && _ && _) in Eu; [|done]. injection Eu as Hn _.
    apply isident_start_facts in Hc as (Hd & Hp & Hm & Hdot & _).
    unfold Re.drop_sign in Hn. rewrite Hp, Hm in Hn. simpl in Hn.
    rewrite Nat.sub_diag in Hn. simpl in Hn. unfold Re.isnumchar in Hn.
    rewrite Hd, Hdot in Hn. simpl in Hn. congruence. }
  unfold looks_like_value. rewrite Hf, Hi, Hu. reflexivity.
Qed.

(** The loop reaches every token that cannot be the value of a pair. *)
Lemma token_loop_app pre :
  forall m t rest,
    Py.has_chr ":" t = true \/ looks_like_value t = false ->
    token_loop m (pre ++ t :: rest)
    = let* m' := token_loop m pre in token_loop m' (t :: rest).
Proof.
  induction pre as [pre IH] using (induction_ltof1 _ (@length str)).
  unfold ltof in IH. intros m t rest Ht. destruct pre as [|p pre]; [done|].
  rewrite <- app_comm_cons.
  assert (Hnot : negb (Py.has_chr ":" t) && looks_like_value t = false).
  { destruct Ht as [-> | ->]; [done|apply andb_false_r]. }
  assert (Hsingle : forall key,
            (let* metrics' := Dict.append_to m key (VStr p) in
             token_loop metrics' (pre ++ t :: rest))
            = let* m' := (let* metrics' := Dict.append_to m key (VStr p) in
                          token_loop metrics' pre) in
              token_loop m' (t :: rest)).
  { intros key. destruct (Dict.append_to m key (VStr p)) as [m1|e]; [|done].
    simpl bind at 1 3. apply IH; [simpl; lia|done]. }
  cbn [token_loop]. destruct (Py.split1 ":" p) as [[k0 v0]|].
  - destruct (nonempty (Py.strip k0)).
    + destruct (coerce_value (Py.strip v0)) as [x|e]; [|done]. simpl bind at 1 3.
      apply IH; [simpl; lia|done].
    + apply IH; [simpl; lia|done].
  - destruct (Re.RE_IDENTIFIER p); [|apply Hsingle].
    destruct pre as [|nxt pre'].
    + cbn [app]. rewrite Hnot. apply Hsingle.
    + rewrite <- app_comm_cons.
      destruct (negb (Py.has_chr ":" nxt) && looks_like_value nxt); [|apply Hsingle].
      destruct (coerce_value nxt) as [x|e]; [|done]. simpl bind at 1 3.
      apply IH; [simpl; lia|done].
Qed.

(** What [parse_metrics] hands to the loop when the text is not empty. *)
Lemma parse_metrics_loop lines metrics :
  parse_metrics lines = Ok metrics -> metrics_text lines <> [] ->
  exists m1,
    (forall k, k ∈ Dict.keys m1 -> k = ("raw" : str) \/ k = ("groups" : str))
    /\ (let '(m, tokens) := take_cc m1 (outer_tokens (metrics_text lines)) in
        token_loop m tokens) = Ok metrics.
Proof.
  unfold parse_metrics. set (text := metrics_text lines). intros H Hne.
  destruct (nonempty text) eqn:En; [|by destruct text]. simpl in H.
  apply bind_Ok in H as (G & HG & H). destruct G as [|kv G].
  - exists [("raw" : str, VStr text)]. split.
    { intros k Hk. left. unfold Dict.keys in Hk. simpl in Hk. by apply list_elem_of_singleton in Hk. }
    assert (outer_tokens text = Py.split_ws text) as ->; [|exact H].
    unfold outer_tokens, Re.RE_PAREN_GROUP_sub. rewrite sub_no_match.
    + unfold text, metrics_text. by rewrite strip_idem.
    + destruct (Re.RE_PAREN_GROUP_finditer text) eqn:E; [done|].
      by destruct (fold_groups_nonempty (p :: l) [] ltac:(done) HG).
  - exists (Dict.set [("raw" : str, VStr text)] "groups" (VDict (kv :: G))). split; [|exact H].
    intros k Hk. apply keys_set in Hk as [Hk| ->]; [|by right]. left.
    unfold Dict.keys in Hk. simpl in Hk. by apply list_elem_of_singleton in Hk.
Qed.

Lemma take_cc_tokens (m : dict) (tokens : list str) :
  snd (take_cc m tokens) = snd (take_cc [] tokens).
Proof. unfold take_cc. destruct tokens as [|t0 rest]; [done|]. by destruct (_ && _). Qed.

Lemma get_absent (d : dict) k : k ∉ Dict.keys d -> Dict.get d k = None.
Proof.
  induction d as [|[k' v] d IH]; simpl; [done|]. unfold Dict.keys. simpl.
  intros Hk. destruct (Py.str_eqb k' k) eqn:E.
  - apply str_eqb_eq in E as ->. destruct Hk. apply list_elem_of_here.
  - apply IH. intros Hin. apply Hk. by apply list_elem_of_further.
Qed.

(** The loop from the dictionary line 193 leaves. *)
Lemma parse_metrics_scan lines metrics :
  parse_metrics lines = Ok metrics -> metrics_text lines <> [] ->
  exists m0,
    token_loop m0 (scanned_tokens (metrics_text lines)) = Ok metrics
    /\ Dict.get m0 "cc"
       = match outer_tokens (metrics_text lines) with
         | t0 :: _ => if is_bare t0 then Some (VStr t0) else None
         | [] => None
         end.
Proof.
  intros H Hne. destruct (parse_metrics_loop lines metrics H Hne) as (m1 & Hk & Hloop).
  assert (Hcc : Dict.get m1 "cc" = None).
  { apply get_absent. intros Hin. by destruct (Hk _ Hin). }
  unfold scanned_tokens. rewrite <- (take_cc_tokens m1).
  destruct (take_cc m1 (outer_tokens (metrics_text lines))) as [m0 tokens] eqn:Et.
  exists m0. split; [done|]. unfold take_cc in Et.
  destruct (outer_tokens (metrics_text lines)) as [|t0 rest]; [by injection Et as <- _|].
  fold (is_bare t0) in Et. destruct (is_bare t0); injection Et as <- _; [|done].
  apply get_set_eq.
Qed.

Lemma outer_tokens_nil : outer_tokens [] = [].
Proof. reflexivity. Qed.


End TokenLoop.

Section Flags.
Import Parser.

Lemma append_to_list (d d' : dict) k x :
  Dict.append_to d k x = Ok d' -> exists l, Dict.get d' k = Some (VList (l ++ [x])).
Proof.
  unfold Dict.append_to. destruct (Dict.get d k) as [[]|]; try done; intros [= <-].
  - eexists. apply get_set_eq.
  - exists []. apply get_set_eq.
Qed.

Lemma append_to_grows (d d' : dict) k x l :
  Dict.append_to d k x = Ok d' -> Dict.get d k = Some (VList l) ->
  Dict.get d' k = Some (VList (l ++ [x])).
Proof.
  unfold Dict.append_to. intros H Hl. rewrite Hl in H. injection H as <-. apply get_set_eq.
Qed.

(** The list of flags only grows while no token names the key [flags]. *)
Lemma token_loop_flags tokens :
  forall m m' l,
    Forall (fun t => touches "flags" t = false) tokens ->
    token_loop m tokens = Ok m' -> Dict.get m "flags" = Some (VList l) ->
    exists l', Dict.get m' "flags" = Some (VList (l ++ l')).
Proof.
  induction tokens as [tokens IH] using (induction_ltof1 _ (@length str)).
  unfold ltof in IH. intros m m' l Ht H Hl. destruct tokens as [|t rest]; simpl in H.
  { injection H as <-. exists []. by rewrite app_nil_r. }
  apply Forall_cons in Ht as [Ht Hrest]. unfold touches in Ht.
  assert (Hset : forall k x rest',
            k <> ("flags" : str) -> length rest' < length (t :: rest) ->
            Forall (fun t => touches "flags" t = false) rest' ->
            token_loop (Dict.set m k x) rest' = Ok m' ->
            exists l', Dict.get m' "flags" = Some (VList (l ++ l'))).
  { intros k x rest' Hk Hlen Hr Hloop. apply (IH rest' Hlen _ _ l Hr Hloop).
    by rewrite get_set_ne. }
  destruct (Py.split1 ":" t) as [[k0 v0]|].
  - apply str_eqb_neq in Ht. destruct (nonempty (Py.strip k0)).
    + apply bind_Ok in H as (x & _ & H). by apply (Hset (Py.strip k0) x rest); [|simpl; lia| |].
    + by apply (IH rest) with (m := m); [simpl; lia| | |].
  - apply str_eqb_neq in Ht. destruct (Re.RE_IDENTIFIER t).
    + assert (Hsingle :
                (let* metrics' := Dict.append_to m "flags" (VStr t) in
                 token_loop metrics' rest) = Ok m' ->
                exists l', Dict.get m' "flags" = Some (VList (l ++ l'))).
      { intros Hs. apply bind_Ok in Hs as (m1 & H1 & Hs).
        pose proof (append_to_grows _ _ _ _ _ H1 Hl) as Hl1.
        destruct (IH rest ltac:(simpl; lia) _ _ _ Hrest Hs Hl1) as [l' Hl'].
        exists ([VStr t] ++ l'). by rewrite app_assoc. }
      destruct rest as [|nxt rest']; [by apply Hsingle|].
      destruct (negb (Py.has_chr ":" nxt) && looks_like_value nxt); [|by apply Hsingle].
      apply bind_Ok in H as (x & _ & H). apply Forall_cons in Hrest as [_ Hrest].
      by apply (Hset t x rest'); [|simpl; lia| |].
    + apply bind_Ok in H as (m1 & H1 & H).
      apply (IH rest) with (m := m1); [simpl; lia|done|done|].
      rewrite <- Hl. by eapply append_to_get.
Qed.

Lemma parse_metrics_flag lines metrics pre t post :
  parse_metrics lines = Ok metrics ->
  scanned_tokens (metrics_text lines) = pre ++ t :: post ->
  Re.RE_IDENTIFIER t = true ->
  match post with
  | [] => True
  | nxt :: _ => Py.has_chr ":" nxt = true \/ looks_like_value nxt = false
  end ->
  Forall (fun t' => touches "flags" t' = false) post ->
  exists l, Dict.get metrics "flags" = Some (VList l) /\ VStr t ∈ l.
Proof.
  intros H Hs Ht Hnext Hpost.
  assert (Hne : metrics_text lines <> []).
  { intros He. rewrite He in Hs. by destruct pre. }
  destruct (parse_metrics_scan lines metrics H Hne) as (m0 & Hloop & _).
  rewrite Hs, token_loop_app in Hloop by (right; by apply identifier_not_value).
  apply bind_Ok in Hloop as (m' & _ & Hloop). simpl in Hloop.
  rewrite (identifier_no_colon t Ht), Ht in Hloop.
  assert (Hsingle : (let* metrics' := Dict.append_to m' "flags" (VStr t) in
                     token_loop metrics' post) = Ok metrics).
  { destruct post as [|nxt post']; [done|].
    destruct Hnext as [Hn|Hn]; rewrite Hn in Hloop; [done|].
    by rewrite andb_false_r in Hloop. }
  apply bind_Ok in Hsingle as (m1 & H1 & Hrest).
  destruct (append_to_list _ _ _ _ H1) as [l0 Hl0].
  destruct (token_loop_flags post _ _ _ Hpost Hrest Hl0) as [l' Hl'].
  eexists. split; [exact Hl'|]. set_solver.
Qed.

End Flags.

(** ** More of the parser *)


Lemma coerce_value_number_witness :
  (exists x, Parser.coerce_value "204" = Ok x /\ is_number_of "204" x)
  /\ (exists x, Parser.coerce_value "-.5" = Ok x /\ is_number_of "-.5" x).
Proof.
  split; [apply (coerce_value_number "204")|apply (coerce_value_number "-.5")]; reflexivity.
Defined.

Lemma coerce_value_quantity_witness :
  exists x,
    Parser.coerce_value (("58207107640" : str) ++ ("B/s" : str))
    = Ok (VDict [("value" : str, x); ("unit" : str, VStr "B/s")])
    /\ is_number_of "58207107640" x.
Proof.
  apply (coerce_value_quantity "58207107640" "B/s"); [reflexivity|discriminate|reflexivity].
Defined.

Lemma coerce_value_number_list_witness :
  exists xs,
    Parser.coerce_value (Py.join "," [("7" : str); ("7.5" : str)]) = Ok (VList xs)
    /\ Forall2 is_number_of [("7" : str); ("7.5" : str)] xs.
Proof.
  apply (coerce_value_number_list [("7" : str); ("7.5" : str)]).
  - simpl. lia.
  - repeat constructor.
Defined.


Lemma parse_block_header_row_witness :
  Parser.parse_block "ESTAB 0      0   10.0.0.1:5201  10.0.0.2:51322 users:x" []
  = Ok (VDict [("state" : str, VStr "ESTAB");
               ("recv_q" : str, VInt 0);
               ("send_q" : str, VInt 0);
               ("local" : str,
                Parser.endpoint "10.0.0.1:5201" (VStr "10.0.0.1") (VInt 5201));
               ("peer" : str,
                Parser.endpoint "10.0.0.2:51322" (VStr "10.0.0.2") (VInt 51322));
               ("process" : str, VStr "users:x");
               ("header_raw" : str,
                VStr "ESTAB 0      0   10.0.0.1:5201  10.0.0.2:51322 users:x");
               ("metrics" : str, VDict [("raw" : str, VStr [])]);
               ("cont_lines_raw" : str, VList [])]).
Proof.
  apply (parse_block_header_row sample_fields
           "ESTAB 0      0   10.0.0.1:5201  10.0.0.2:51322 users:x" []).
  - exists (" " : str), ("      " : str), ("   " : str), ("  " : str).
    unfold is_gap, is_field, is_tail.
    split_and!; try reflexivity; try discriminate. right. by split.
  - reflexivity.
  - reflexivity.
  - reflexivity.
Defined.








(** A bare identifier that the loop does not take for the key of a pair
    (the next token has a colon or does not look like a value, or there is
    none) is appended to [flags], and stays there as long as no later token
    names the key [flags]. *)
Theorem parse_metrics_flags (lines : list str) (metrics : dict) (pre : list str)
    (t : str) (post : list str) :
  Parser.parse_metrics lines = Ok metrics ->
  scanned_tokens (Parser.metrics_text lines) = pre ++ t :: post ->
  Re.RE_IDENTIFIER t = true ->
  match post with
  | [] => True
  | nxt :: _ => Py.has_chr ":" nxt = true \/ Parser.looks_like_value nxt = false
  end ->
  Forall (fun t' => touches "flags" t' = false) post ->
  exists l, Dict.get metrics "flags" = Some (VList l) /\ VStr t ∈ l.
Proof. apply parse_metrics_flag. Qed.

Lemma parse_metrics_flags_witness :
  exists metrics l,
    Parser.parse_metrics [("ts sack cubic rto:204 app_limited" : str)] = Ok metrics
    /\ Dict.get metrics "flags" = Some (VList l) /\ VStr "sack" ∈ l.
Proof.
  destruct (Parser.parse_metrics [("ts sack cubic rto:204 app_limited" : str)])
    as [metrics|e] eqn:E; [|vm_compute in E; discriminate E].
  destruct (parse_metrics_flags _ metrics [] ("sack" : str)
              [("cubic" : str); ("rto:204" : str); ("app_limited" : str)] E)
    as (l & Hl & Hin).
  - vm_compute. reflexivity.
  - vm_compute. reflexivity.
  - right. vm_compute. reflexivity.
  - apply (bool_decide_unpack _). vm_compute. exact I.
  - exists metrics, l. split; [reflexivity|]. split; [exact Hl|exact Hin].
Defined.

(** ** The accessors of the table *)

Section TableReads.
Import Parser.

Lemma or_dict (m : dict) : Table.or_ (VDict m) (VDict []) = VDict m.
Proof. unfold Table.or_. by destruct m. Qed.


(** The metrics of a record, as the accessors find them. *)
Lemma record_metrics h cont rec :
  parse_block h cont = Ok rec ->
  (Re.RE_HEADER h = None /\ forall k d, Table.get rec k d = Ok (default d (Dict.get
       [("raw_header" : str, VStr h); ("raw_cont" : str, VList (map VStr cont))] k)))
  \/ exists metrics,
       parse_metrics cont = Ok metrics
       /\ fmap_result (fun m => Table.or_ m (VDict [])) (Table.get rec "metrics" (VDict []))
          = Ok (VDict metrics).
Proof.
  unfold parse_block. destruct (Re.RE_HEADER h) as [m|].
  - intros H. right. apply bind_Ok in H as (recvq & _ & H). apply bind_Ok in H as (sendq & _ & H).
    apply bind_Ok in H as (l & _ & H). apply bind_Ok in H as (p & _ & H).
    apply bind_Ok in H as (metrics & Hm & [= <-]). exists metrics. split; [done|].
    simpl. by rewrite or_dict.
  - intros [= <-]. left. by split.
Qed.



(** [get_group_metric] on the record of a header row finds what the last
    group of that name holds under the key. *)
Theorem get_group_metric_reads_group
    h cont rec pre name body post pre' p post' k0 v0 (d : value) :
  parse_block h cont = Ok rec ->
  Re.RE_HEADER h <> None ->
  Re.RE_PAREN_GROUP_finditer (metrics_text cont) = pre ++ (name, body) :: post ->
  name ∉ map fst post ->
  Forall (fun t => touches "groups" t = false) (outer_tokens (metrics_text cont)) ->
  comma_parts (Py.strip body) = pre' ++ p :: post' ->
  Py.split1 ":" p = Some (k0, v0) ->
  Forall (fun q => part_key (Py.strip k0) q = false) post' ->
  exists x, coerce_value (Py.strip v0) = Ok x
            /\ Table.get_group_metric rec name (Py.strip k0) d = Ok x.
Proof.
  intros H Hh Hf Hn Ht Hparts Hp Hpost.
  destruct (record_metrics h cont rec H) as [[Hnone _]|(metrics & Hm & Hget)]; [done|].
  destruct (parse_metrics_unfold _ _ Hm)
    as [[He _]|(G & m0 & tokens & HG & Hg & _ & Hsuf & Hloop)].
  { rewrite He in Hf. by destruct pre. }
  rewrite Hf in HG. destruct (fold_groups_last _ _ _ _ _ _ HG Hn) as (g & Hb & HGn).
  assert (Hgroups : Dict.get metrics "groups" = Some (VDict G)).
  { rewrite (token_loop_get "groups" tokens ltac:(done) ltac:(done) m0 metrics); [| |done].
    - apply Hg. rewrite Hf. by destruct pre.
    - destruct Hsuf as [k Hk]. rewrite Hk in Ht. by apply Forall_app in Ht as [_ ?]. }
  unfold parse_paren_body in Hb. rewrite Hparts in Hb.
  destruct (fold_parts_last _ _ _ _ _ _ _ Hb Hp Hpost) as (x & Hx & Hgx).
  exists x. split; [done|]. unfold Table.get_group_metric. rewrite Hget. simpl.
  simpl in Hgroups. rewrite Hgroups. simpl. rewrite or_dict. simpl. rewrite HGn. simpl. rewrite or_dict.
  simpl. by rewrite Hgx.
Qed.



End TableReads.

Lemma get_group_metric_reads_group_witness :
  exists rec x,
    Parser.parse_block "ESTAB 0 0 10.0.0.1:5201 10.0.0.2:51322"
      [("bbr wscale:7,7 bbr:(bw:100bps,mrtt:1.2)" : str)] = Ok rec
    /\ Parser.coerce_value "100bps" = Ok x
    /\ Table.get_group_metric rec "bbr" "bw" (VStr []) = Ok x.
Proof.
  destruct (Parser.parse_block "ESTAB 0 0 10.0.0.1:5201 10.0.0.2:51322"
              [("bbr wscale:7,7 bbr:(bw:100bps,mrtt:1.2)" : str)]) as [rec|e] eqn:E;
    [|vm_compute in E; discriminate E].
  destruct (get_group_metric_reads_group
              "ESTAB 0 0 10.0.0.1:5201 10.0.0.2:51322"
              [("bbr wscale:7,7 bbr:(bw:100bps,mrtt:1.2)" : str)] rec
              [] ("bbr" : str) ("bw:100bps,mrtt:1.2" : str) []
              [] ("bw:100bps" : str) [("mrtt:1.2" : str)] ("bw" : str) ("100bps" : str)
              (VStr []) E) as (x & Hx & Hget).
  - vm_compute. discriminate.
  - vm_compute. reflexivity.
  - apply not_elem_of_nil.
  - apply (bool_decide_unpack _). vm_compute. exact I.
  - vm_compute. reflexivity.
  - vm_compute. reflexivity.
  - apply (bool_decide_unpack _). vm_compute. exact I.
  - exists rec, x. split; [reflexivity|]. split; [exact Hx|exact Hget].
Defined.


(** ** Failed writes and the cost of a sweep *)

Section FailedWrites.
Import Store.

Lemma quiet_read_file f f' q :
  wf f -> quiet f f' -> is_tmp q = false -> read_file f' q = read_file f q.
Proof.
  intros [Hb Hi] (_ & Hn & Hd & _) Hq. unfold read_file, open, read.
  rewrite (Hn q Hq). destruct (names f !! q) as [i|] eqn:E; simpl; [|done].
  apply Hd; [by eapply Hb|]. intros p Hp. by rewrite (Hi _ _ _ Hp E).
Qed.

Lemma take_write_steps k path content :
  2 <= k -> take k (write_steps path content) = write_steps path (take (k - 2) content).
Proof.
  intros Hk. unfold write_steps. destruct k as [|[|k]]; [lia|lia|]. simpl.
  rewrite Nat.sub_0_r. by rewrite <- fmap_take.
Qed.

Lemma failed_write f path content k :
  wf f -> is_tmp path = false -> k < length (atomic_write_ops path content) ->
  fst (atomic_write_text (Some k) path content f) = Raise OSError
  /\ (forall q, is_tmp q = false ->
        read_file (snd (atomic_write_text (Some k) path content f)) q = read_file f q)
  /\ (2 <= k ->
      read_file (snd (atomic_write_text (Some k) path content f)) (tmp_path path)
      = Some (take (k - 2) content)).
Proof.
  intros Hwf Hp Hk. unfold atomic_write_text.
  pose proof Hk as Hk'. apply Nat.ltb_lt in Hk' as ->. simpl.
  assert (Hle : k <= length (write_steps path content)).
  { rewrite atomic_write_ops_split, length_app in Hk. cbn [length] in Hk. lia. }
  split_and!; [done| |].
  - intros q Hq. destruct (prefix_quiet k path content f Hwf Hle) as [_ Hquiet].
    by apply quiet_read_file.
  - intros H2. rewrite take_atomic_write_ops, take_write_steps by done.
    destruct (write_steps_written path (take (k - 2) content) f) as (i & Hn & Hd).
    unfold read_file, open, read. rewrite Hn. simpl. exact Hd.
Qed.


End FailedWrites.

Section Cost.
Import Collector.
Variable o : oracle.

Lemma within_ret {A} allowed (a : A) : within allowed 0 0 0 (ret a).
Proof. intros w. exists []. simpl. rewrite app_nil_r. split_and!; try done; lia. Qed.

Lemma within_pure {A} allowed (g : world -> result A) :
  within allowed 0 0 0 (fun w => (g w, w)).
Proof. intros w. exists []. simpl. rewrite app_nil_r. split_and!; try done; lia. Qed.

Lemma within_weaken {A} allowed c t d c' t' d' (m : io A) :
  within allowed c t d m -> c <= c' -> t <= t' -> d <= d' -> within allowed c' t' d' m.
Proof.
  intros Hm Hc Ht Hd w. destruct (Hm w) as (new & H1 & H2 & H3 & H4 & H5).
  exists new. split_and!; try done; lia.
Qed.

Lemma within_bind {A B} allowed c1 t1 d1 c2 t2 d2 (m : io A) (k : A -> io B) :
  within allowed c1 t1 d1 m -> (forall a, within allowed c2 t2 d2 (k a)) ->
  within allowed (c1 + c2) (t1 + t2) (d1 + d2) (io_bind m k).
Proof.
  intros Hm Hk w. unfold io_bind. destruct (Hm w) as (new1 & H1 & H2 & H3 & H4 & H5).
  destruct (m w) as [[a|e] w1]; simpl in *.
  - destruct (Hk a w1) as (new2 & G1 & G2 & G3 & G4 & G5).
    exists (new1 ++ new2). rewrite G1, H1, <- app_assoc.
    split_and!; [done|by apply Forall_app| | | | |]; rewrite ?length_app; lia.
  - exists new1. split_and!; try done; lia.
Qed.

Lemma within_run allowed cmd timeout :
  allowed cmd -> within allowed 1 0 0 (run o cmd timeout).
Proof.
  intros Hc w. exists [cmd]. simpl. split_and!; try done; try lia. by repeat constructor.
Qed.

Lemma within_now allowed : within allowed 0 1 0 (now o).
Proof. intros w. exists []. simpl. rewrite app_nil_r. split_and!; try done; lia. Qed.

Lemma within_atomic_write_text allowed path content :
  within allowed 0 0 1 (atomic_write_text o path content).
Proof.
  intros w. exists []. unfold atomic_write_text.
  destruct (Store.atomic_write_text _ _ _ _). simpl. rewrite app_nil_r.
  split_and!; try done; lia.
Qed.

Lemma within_try_attempts allowed cmds timeout last :
  Forall allowed cmds -> within allowed (length cmds) 0 0 (try_attempts o cmds timeout last).
Proof.
  intros Hc. revert last. induction Hc as [|cmd cmds Hcmd _ IH]; intros last; simpl.
  - apply within_ret.
  - apply (within_bind allowed 1 0 0 (length cmds) 0 0); [by apply within_run|].
    intros r. destruct (accepted r); [|apply IH].
    eapply within_weaken; [apply within_ret|lia..].
Qed.

Lemma within_collect_host allowed now_ m_path out_dir timeout entries host :
  Forall allowed (attempts m_path host) ->
  within allowed 4 1 1 (collect_host o now_ m_path out_dir timeout entries host).
Proof.
  intros Ha. unfold collect_host.
  apply (within_bind allowed 4 0 0 0 1 1); [by apply (within_try_attempts allowed _ _ _ Ha)|].
  intros [[rc out] err]. destruct ((rc =? 0)%Z && nonempty (Py.strip out)).
  - apply (within_bind allowed 0 1 0 0 0 1).
    { unfold parse. apply (within_bind allowed 0 1 0 0 0 0); [apply within_now|].
      intros t. apply within_pure. }
    intros parsed. apply (within_bind allowed 0 0 0 0 0 1); [apply within_pure|].
    intros record. apply (within_bind allowed 0 0 1 0 0 0);
      [apply within_atomic_write_text|]. intros _. apply within_ret.
  - eapply within_weaken; [|reflexivity|apply Nat.le_0_l|reflexivity].
    apply (within_bind allowed 0 0 1 0 0 0); [apply within_atomic_write_text|].
    intros _. apply within_ret.
Qed.

Lemma within_collect_hosts allowed now_ m_path out_dir timeout entries hosts :
  Forall (fun host => Forall allowed (attempts m_path host)) hosts ->
  within allowed (4 * length hosts) (length hosts) (length hosts)
    (collect_hosts o now_ m_path out_dir timeout entries hosts).
Proof.
  intros Hh. revert entries. induction Hh as [|host hosts Hhost _ IH]; intros entries.
  - apply within_ret.
  - simpl collect_hosts. eapply within_weaken.
    + apply (within_bind allowed 4 1 1 (4 * length hosts) (length hosts) (length hosts));
        [by apply within_collect_host|]. intros entries'. apply IH.
    + simpl. lia.
    + simpl. lia.
    + simpl. lia.
Qed.

(** Whatever the commands answer and whether or not it returns, a sweep
    runs nothing but variants of the command for the configured hosts, at
    most four for each host, reads the clock at most once more than there
    are hosts and calls [atomic_write_text] at most once more than there are
    hosts. *)
Theorem sweep_runs_only_the_variants hosts m_path out_dir timeout :
  within (variant_for m_path hosts) (4 * length hosts) (S (length hosts)) (S (length hosts))
    (collect_and_write o hosts m_path out_dir timeout).
Proof.
  unfold collect_and_write.
  eapply within_weaken;
    [apply (within_bind _ 0 1 0 (4 * length hosts) (length hosts) (S (length hosts)));
       [apply within_now|]
    |lia..].
  intros now_.
  eapply within_weaken;
    [apply (within_bind _ (4 * length hosts) (length hosts) (length hosts) 0 0 1)
    |lia..].
  - apply within_collect_hosts. apply Forall_forall. intros host Hhost.
    apply Forall_forall. intros cmd Hcmd. by exists host.
  - intros entries. apply (within_bind _ 0 0 1 0 0 0); [apply within_atomic_write_text|].
    intros _. apply within_ret.
Qed.

End Cost.

(** ** The index and the files *)

Section IndexOnDisk.
Import Collector.
Variable o : oracle.

Lemma with_host_meta_document now_ host env sockets :
  with_host_meta now_ host (Parser.document env sockets)
  = Ok (VDict [("meta" : str,
                VDict [("captured_at_utc" : str, VStr (Parser.now_utc env));
                       ("hostname" : str, VStr (Parser.hostname env));
                       ("source_cmd" : str, VStr "ss -tin");
                       ("mininet_host" : str, VStr host)]);
               ("sockets" : str, VList sockets)])
  /\ count_sockets (Parser.document env sockets) = length sockets.
Proof. split; reflexivity. Qed.





End IndexOnDisk.

(** ** The host list *)

Section HostLists.
Import Collector.

Lemma run1_stop (p : ascii -> bool) (a rest : str) :
  a <> [] -> forallb p a = true ->
  match rest with [] => True | c :: _ => p c = false end ->
  Re.run1 p (a ++ rest) = Some (a, rest).
Proof.
  intros Hne Ha Hrest. destruct rest as [|c r].
  - rewrite app_nil_r. by apply run1_all.
  - by apply run1_app.
Qed.

Lemma lstrip_app_space (ws rest : str) :
  forallb Py.isspace ws = true ->
  match rest with [] => True | c :: _ => Py.isspace c = false end ->
  Py.lstrip (ws ++ rest) = rest.
Proof.
  intros Hws Hrest. unfold Py.lstrip. rewrite drop_while_app_all by done.
  by apply drop_while_fixed.
Qed.

Lemma digits1_forallb (a : str) :
  Re.digits1 a = true -> a <> [] /\ forallb Py.isdecimal a = true.
Proof. unfold Re.digits1. rewrite andb_true_iff. intros [Hn Ha]. by destruct a. Qed.

Lemma space_not_decimal c : Py.isspace c = true -> Py.isdecimal c = false.
Proof. each_char c. Qed.

Lemma head_space_or_nil (p : ascii -> bool) (ws rest : str) :
  (forall c, Py.isspace c = true -> p c = false) ->
  forallb Py.isspace ws = true ->
  match rest with [] => True | c :: _ => p c = false end ->
  match ws ++ rest with [] => True | c :: _ => p c = false end.
Proof.
  intros Hp Hws Hrest. destruct ws as [|c ws]; [done|]. simpl in *.
  apply andb_true_iff in Hws as [Hc _]. by apply Hp.
Qed.

Lemma range_match_shape (a b ws0 ws1 ws2 ws3 : str) :
  Re.digits1 a = true -> Re.digits1 b = true ->
  forallb Py.isspace ws0 = true -> forallb Py.isspace ws1 = true ->
  forallb Py.isspace ws2 = true -> forallb Py.isspace ws3 = true ->
  range_match (ws0 ++ a ++ ws1 ++ "-"%char :: ws2 ++ b ++ ws3) = Some (a, b).
Proof.
  intros Ha Hb H0 H1 H2 H3.
  destruct (digits1_forallb a Ha) as [Hane Had].
  destruct (digits1_forallb b Hb) as [Hbne Hbd].
  destruct (digits_head a Ha) as (ca & ra & Ea & Hca).
  destruct (digits_head b Hb) as (cb & rb & Eb & Hcb).
  unfold range_match.
  rewrite lstrip_app_space; [|done|by rewrite Ea].
  rewrite run1_stop; [|done|done|].
  2: { apply head_space_or_nil; [apply space_not_decimal|done|reflexivity]. }
  simpl mbind. cbv beta iota.
  rewrite lstrip_app_space; [|done|reflexivity].
  change (Py.chr_eqb "-" "-") with true. cbv iota.
  rewrite lstrip_app_space; [|done|by rewrite Eb].
  rewrite run1_stop; [|done|done|].
  2: { rewrite <- (app_nil_r ws3).
       apply head_space_or_nil; [apply space_not_decimal|done|done]. }
  simpl mbind. cbv beta iota. by rewrite H3.
Qed.


Lemma s_inj (x y : string) : s_ x = s_ y -> x = y.
Proof.
  unfold s_. intros H. apply (f_equal String.string_of_list_ascii) in H.
  by rewrite !String.string_of_list_ascii_of_string in H.
Qed.

Lemma host_name_inj prefix : Inj (=) (=) (host_name prefix).
Proof.
  intros i j H. unfold host_name in H. apply app_inv_head in H.
  apply s_inj in H. by apply (inj pretty) in H.
Qed.

(** [--range a-b], with whitespace allowed around the numbers and the dash,
    yields the names [prefix ++ i] for every [i] from the smaller to the
    larger of the two numbers, in ascending order whichever comes first:
    one more name than the numbers differ by, and no name twice. *)
Theorem parse_host_list_range (csv : option str) (prefix a b ws0 ws1 ws2 ws3 : str) :
  falsy csv ->
  Re.digits1 a = true -> Re.digits1 b = true ->
  forallb Py.isspace ws0 = true -> forallb Py.isspace ws1 = true ->
  forallb Py.isspace ws2 = true -> forallb Py.isspace ws3 = true ->
  let lo := Z.min (digits_val a) (digits_val b) in
  let hi := Z.max (digits_val a) (digits_val b) in
  let names := map (host_name prefix) (seqZ lo (hi + 1 - lo)) in
  parse_host_list csv (Some (ws0 ++ a ++ ws1 ++ "-"%char :: ws2 ++ b ++ ws3)) prefix
  = Ok (Hosts names)
  /\ length names = Z.to_nat (hi - lo + 1)
  /\ NoDup names.
Proof.
  intros Hcsv Ha Hb H0 H1 H2 H3 lo hi names. split_and!.
  - unfold parse_host_list.
    assert (Hr : exists c r, ws0 ++ a ++ ws1 ++ "-"%char :: ws2 ++ b ++ ws3 = c :: r).
    { destruct (digits_head a Ha) as (ca & ra & -> & _). destruct ws0; simpl; eauto. }
    destruct Hr as (c & r & Hr).
    assert (Hmatch := range_match_shape a b ws0 ws1 ws2 ws3 Ha Hb H0 H1 H2 H3).
    rewrite Hr in *.
    assert (Hgo : match range_match (c :: r) with
                  | None => Ok (SystemExit "--range must be like 1-8")
                  | Some (ga, gb) =>
                      let* a := int ga in
                      let* b := int gb in
                      let '(a, b) := if (b <? a)%Z then (b, a) else (a, b) in
                      Ok (Hosts (map (host_name prefix) (seqZ a (b + 1 - a))))
                  end = Ok (Hosts names)).
    { rewrite Hmatch, (int_digits a Ha), (int_digits b Hb). simpl.
      unfold names, lo, hi. destruct (Z.ltb_spec (digits_val b) (digits_val a)).
      - by rewrite Z.min_r, Z.max_l by lia.
      - by rewrite Z.min_l, Z.max_r by lia. }
    by destruct Hcsv as [-> | ->].
  - unfold names. rewrite length_map, length_seqZ. f_equal. lia.
  - unfold names. pose proof (host_name_inj prefix) as Hinj.
    apply (NoDup_fmap_2 (host_name prefix)), NoDup_seqZ.
Qed.

Lemma forallb_drop_while (q p : ascii -> bool) (s : str) :
  forallb q s = true -> forallb q (Py.drop_while p s) = true.
Proof.
  intros H. destruct (drop_while_suffix p s) as [k Hk]. rewrite Hk, forallb_app in H.
  by apply andb_true_iff in H as [_ ?].
Qed.

Lemma forallb_strip (q : ascii -> bool) (s : str) :
  forallb q s = true -> forallb q (Py.strip s) = true.
Proof.
  intros H. unfold Py.strip, Py.rstrip, Py.lstrip.
  rewrite forallb_rev. apply forallb_drop_while. rewrite forallb_rev.
  by apply forallb_drop_while.
Qed.

Lemma split_chr_from_pieces sep (cur s : str) :
  Py.has_chr sep cur = false ->
  Forall (fun p => Py.has_chr sep p = false) (Py.split_chr_from sep cur s).
Proof.
  revert cur. induction s as [|c s IH]; intros cur Hcur; simpl.
  - by constructor.
  - destruct (Py.chr_eqb c sep) eqn:E.
    + constructor; [done|]. by apply IH.
    + apply IH. unfold Py.has_chr. rewrite existsb_app. simpl.
      fold (Py.has_chr sep cur). by rewrite Hcur, chr_eqb_sym, E.
Qed.

(** [--hosts], when it is not empty, wins over [--range] and never exits:
    the hosts are the stripped pieces between the commas that are not blank,
    so every name is non-empty, has no whitespace around it and no comma in
    it; a list of nothing but commas and whitespace gives no host at all. *)
Theorem parse_host_list_csv (csv : str) (host_range : option str) (prefix : str) :
  csv <> [] ->
  exists hosts,
    parse_host_list (Some csv) host_range prefix = Ok (Hosts hosts)
    /\ Forall clean_name hosts
    /\ forall h, h ∈ hosts <->
         h <> [] /\ exists piece, piece ∈ Py.split_chr "," csv /\ h = Py.strip piece.
Proof.
  intros Hne. destruct csv as [|c r]; [done|]. eexists. split; [reflexivity|].
  set (pieces := Py.split_chr "," (c :: r)).
  assert (Hmem : forall h,
            h ∈ filter (fun h => nonempty h = true) (map Py.strip pieces)
            <-> h <> [] /\ exists piece, piece ∈ pieces /\ h = Py.strip piece).
  { intros h. rewrite list_elem_of_filter, list_elem_of_fmap. split.
    - intros [Hh (piece & -> & Hin)]. split; [by destruct (Py.strip piece)|eauto].
    - intros [Hh (piece & Hin & ->)]. split; [by destruct (Py.strip piece)|eauto]. }
  split; [|exact Hmem].
  apply Forall_forall. intros h Hh. apply Hmem in Hh as [Hh (piece & Hin & ->)].
  split_and!; [done|apply strip_idem|].
  apply has_chr_false, forallb_strip, has_chr_false.
  pose proof (split_chr_from_pieces "," [] (c :: r) eq_refl) as Hp.
  rewrite Forall_forall in Hp. by apply Hp.
Qed.


End HostLists.

(** ** What a sweep leaves alone, and the collector thread *)

Section Frame.
Import Collector.
Variable o : oracle.

















End Frame.

Section Thread.
Import Collector.
Variable o : oracle.
Variable str_of : exn -> str.
Variable dumps_indent : value -> str.
Variable hosts : list str.
Variable m_path : str.
Variable out_dir : str.
Variable timeout : nat.






End Thread.

(** ** More of the collector *)

(** A write that fails part-way ([OSError] at step [k]) leaves every final
    file as it was, the one it was writing included; from the second step on
    the temporary file is left behind, holding the part of the content that
    was written. *)
Theorem failed_write_keeps_final_files (f : Store.fs) (path content : str) (k : nat) :
  wf f ->
  Store.is_tmp path = false ->
  k < length (Store.atomic_write_ops path content) ->
  fst (Store.atomic_write_text (Some k) path content f) = Raise OSError
  /\ (forall q, Store.is_tmp q = false ->
        Store.read_file (snd (Store.atomic_write_text (Some k) path content f)) q
        = Store.read_file f q)
  /\ (2 <= k ->
      Store.read_file (snd (Store.atomic_write_text (Some k) path content f))
        (Store.tmp_path path)
      = Some (take (k - 2) content)).
Proof. apply failed_write. Qed.

Lemma failed_write_keeps_final_files_witness :
  fst (Store.atomic_write_text (Some 3) "/out/index.json" "{}" sample_store) = Raise OSError
  /\ Store.read_file (snd (Store.atomic_write_text (Some 3) "/out/index.json" "{}"
                             sample_store)) "/out/index.json"
     = Store.read_file sample_store "/out/index.json"
  /\ Store.read_file (snd (Store.atomic_write_text (Some 3) "/out/index.json" "{}"
                             sample_store)) "/out/index.json.tmp"
     = Some ("{" : str).
Proof.
  assert (Hwf : wf sample_store).
  { destruct (writes_collect_and_write oracle_timeout two_hosts "/m" "/out" 10
                Collector.world0) as (trace & Ht & Hf).
    unfold sample_store. rewrite Hf. apply wf_replay; [done|apply wf_empty]. }
  destruct (failed_write_keeps_final_files sample_store "/out/index.json" "{}" 3 Hwf eq_refl)
    as (H1 & H2 & H3); [simpl; lia|].
  split_and!; [exact H1|by apply H2|]. apply H3. lia.
Defined.


(** The document written for a reachable host keeps the time the parser
    read and gets the host as last key of its [meta]: the [setdefault] of
    line 133 never takes effect and the time of the sweep is not used, and
    lines 131-135 raise nothing on a document of the parser.  The number of
    sockets of the index entry is the length of [sockets]. *)
Theorem host_document_meta
  (env : Parser.env) (out now_ host : str) (doc : value) :
  Parser.parse_ss_tin_output env out = Ok doc ->
  exists sockets,
    doc = Parser.document env sockets
    /\ Collector.with_host_meta now_ host doc
       = Ok (VDict [("meta" : str,
                     VDict [("captured_at_utc" : str, VStr (Parser.now_utc env));
                            ("hostname" : str, VStr (Parser.hostname env));
                            ("source_cmd" : str, VStr "ss -tin");
                            ("mininet_host" : str, VStr host)]);
                    ("sockets" : str, VList sockets)])
    /\ Collector.count_sockets doc = length sockets.
Proof.
  intros H. destruct (parse_document _ _ _ H) as (sockets & ->). exists sockets.
  split; [done|]. apply with_host_meta_document.
Qed.

Lemma host_document_meta_witness :
  exists doc sockets,
    Parser.parse_ss_tin_output sample_env sample_text = Ok doc
    /\ Collector.with_host_meta "2030-01-01T00:00:00+00:00" "hs1" doc
       = Ok (VDict [("meta" : str,
                     VDict [("captured_at_utc" : str, VStr "2024-01-01T00:00:00+00:00");
                            ("hostname" : str, VStr "h1");
                            ("source_cmd" : str, VStr "ss -tin");
                            ("mininet_host" : str, VStr "hs1")]);
                    ("sockets" : str, VList sockets)])
    /\ Collector.count_sockets doc = length sockets.
Proof.
  destruct (Parser.parse_ss_tin_output sample_env sample_text) as [doc|e] eqn:E;
    [|vm_compute in E; discriminate E].
  destruct (host_document_meta sample_env sample_text "2030-01-01T00:00:00+00:00" "hs1"
              doc E) as (sockets & _ & Hm & Hn).
  exists doc, sockets. split; [reflexivity|]. split; [exact Hm|exact Hn].
Defined.




Lemma parse_host_list_range_witness :
  Collector.parse_host_list None (Some (" 3 - 1" : str)) "hs"
  = Ok (Collector.Hosts [("hs1" : str); ("hs2" : str); ("hs3" : str)]).
Proof.
  destruct (parse_host_list_range None "hs" "3" "1" " " " " " " []
              (or_introl eq_refl) eq_refl eq_refl eq_refl eq_refl eq_refl eq_refl)
    as (H & _).
  exact H.
Defined.

Lemma parse_host_list_csv_witness :
  exists hosts,
    Collector.parse_host_list (Some (" , " : str)) (Some ("1-8" : str)) "hs"
    = Ok (Collector.Hosts hosts)
    /\ hosts = [].
Proof.
  destruct (parse_host_list_csv " , " (Some ("1-8" : str)) "hs")
    as (hosts & H & _); [discriminate|].
  exists hosts. split; [exact H|]. vm_compute in H. by injection H as <-.
Defined.


